(** * GemmaGuardian surveillance agent: a shallow embedding

    The Python sources under [src/SurveillanceAgent] are embedded as Rocq
    definitions, one Rocq [Module] per Python module or class:

    - [Text]      : the [str] operations the sources use ([lower], [upper],
                    [strip], [in], [replace], [split], slicing, [join]);
    - [Entities]  : [modules/domain/entities.py];
    - [Services]  : [SecurityThreatEvaluator] of [modules/domain/services.py];
    - [Ollama]    : [OllamaSecurityAnalyzer] of
                    [modules/infrastructure/ollama_client.py];
    - [Transformer] : the parts of [gemma_transformer_client.py] that the
                    Ollama client is compared with;
    - [Json]      : [json.dumps(..., separators=(',', ':'))];
    - [Notify]    : [MobileNotificationService] of
                    [modules/infrastructure/mobile_notifications.py];
    - [PersonDetector] : [is_detection_valid] of
                    [modules/infrastructure/person_detector.py];
    - [Repositories] : [SQLitePersonDetectionRepository.save_detection] and
                    [FileSystemVideoClipRepository.save_clip] of
                    [modules/interfaces/repositories.py];
    - [UseCases]  : [PersonDetectionUseCase], [VideoRecordingUseCase] and
                    [MonitoringSessionUseCase] of
                    [modules/application/use_cases.py], with
                    [InMemoryMonitoringSessionRepository] of
                    [modules/interfaces/repositories.py];
    - [Config]    : [get_notification_service] of
                    [config/dependency_injection.py];
    - [Monitor]   : the two loops of [SecurityMonitor] of
                    [modules/application/security_monitor.py].

    [Spec] holds the words the properties are stated in, [Sample] the
    values they are tried on.

    Conventions.  A Python [str] is a [string]; the embedding is that of
    ASCII text, on which [lower], [upper] and [strip] below are Python's and
    the length of a string is its number of characters and of bytes.  A
    [float] is the rational it stands for.  A [datetime] is a number of
    microseconds, a [timedelta] a difference of two.  A call that may raise
    returns a [result]; a function whose body catches every exception is a
    total function.  What a collaborator (the clock, the network, the model
    server, a repository) answers is an argument of the function that asks. *)

From Stdlib Require Import ZArith QArith Qminmax List String Ascii Bool Lia DecimalString.
From stdpp Require Import base option list strings gmap.

Local Open Scope string_scope.
Local Open Scope Z_scope.

(** ** Python strings *)

Module Text.

Definition code (c : ascii) : N := N_of_ascii c.

(** [str.lower] and [str.upper] on one character. *)
Definition lower_char (c : ascii) : ascii :=
  if ((65 <=? code c) && (code c <=? 90))%N
  then ascii_of_N (code c + 32) else c.

Definition upper_char (c : ascii) : ascii :=
  if ((97 <=? code c) && (code c <=? 122))%N
  then ascii_of_N (code c - 32) else c.

Fixpoint smap (f : ascii -> ascii) (s : string) : string :=
  match s with
  | EmptyString => EmptyString
  | String c r => String (f c) (smap f r)
  end.

Definition lower : string -> string := smap lower_char.
Definition upper : string -> string := smap upper_char.

(** [s.startswith(p)]. *)
Fixpoint startswith (p s : string) : bool :=
  match p, s with
  | EmptyString, _ => true
  | String a p', String b s' => Ascii.eqb a b && startswith p' s'
  | String _ _, EmptyString => false
  end.

(** [needle in hay]. *)
Fixpoint contains (needle hay : string) : bool :=
  startswith needle hay ||
  match hay with
  | EmptyString => false
  | String _ r => contains needle r
  end.

(** [any(k in text for k in keywords)]. *)
Definition any_in (keywords : list string) (text : string) : bool :=
  existsb (fun k => contains k text) keywords.

(** The ASCII characters [str.strip()] removes. *)
Definition is_space (c : ascii) : bool :=
  (((9 <=? code c) && (code c <=? 13)) || ((28 <=? code c) && (code c <=? 32)))%N.

Fixpoint lstrip (s : string) : string :=
  match s with
  | EmptyString => EmptyString
  | String c r => if is_space c then lstrip r else s
  end.

Fixpoint rstrip (s : string) : string :=
  match s with
  | EmptyString => EmptyString
  | String c r =>
      match rstrip r with
      | EmptyString => if is_space c then EmptyString else String c EmptyString
      | r' => String c r'
      end
  end.

Definition strip (s : string) : string := rstrip (lstrip s).

(** [s[:n]]. *)
Fixpoint take (n : nat) (s : string) : string :=
  match n, s with
  | O, _ => EmptyString
  | S _, EmptyString => EmptyString
  | S n', String c r => String c (take n' r)
  end.

(** [sep.join(parts)]. *)
Fixpoint join (sep : string) (parts : list string) : string :=
  match parts with
  | [] => EmptyString
  | [p] => p
  | p :: rest => p ++ sep ++ join sep rest
  end.

(** [s.split(c)] for a one-character separator: never an empty list. *)
Fixpoint split (sep : ascii) (s : string) : list string :=
  match s with
  | EmptyString => [EmptyString]
  | String c r =>
      if Ascii.eqb c sep then EmptyString :: split sep r
      else match split sep r with
           | [] => [String c EmptyString]
           | w :: ws => String c w :: ws
           end
  end.

(** [s.replace(old, new)] for a non-empty [old]: the occurrences are taken
    from the left and do not overlap.  [skip] counts the characters of an
    occurrence still to be dropped. *)
Fixpoint replace_from (old new : string) (skip : nat) (s : string) : string :=
  match s with
  | EmptyString => EmptyString
  | String c r =>
      match skip with
      | S k => replace_from old new k r
      | O =>
          if startswith old s
          then new ++ replace_from old new (String.length old - 1) r
          else String c (replace_from old new 0 r)
      end
  end.

Definition replace (old new s : string) : string := replace_from old new 0 s.

(** [str(n)] for an integer. *)
Definition str_of_Z (n : Z) : string := NilZero.string_of_int (Z.to_int n).

Definition quote : string := String (ascii_of_nat 34) EmptyString.
Definition newline : string := String (ascii_of_nat 10) EmptyString.

End Text.

(** ** Exceptions

    [Raised] stands for a Python exception escaping the call. *)

Inductive result (A : Type) : Type :=
| Ok (a : A)
| Raised.
Arguments Ok {A} a.
Arguments Raised {A}.

#[export] Instance result_bind : MBind result := fun A B k r =>
  match r with
  | Ok a => k a
  | Raised => Raised
  end.

(** ** modules/domain/entities.py *)

Module Entities.

Inductive SecurityThreatLevel : Set := LOW | MEDIUM | HIGH | CRITICAL.

#[export] Instance SecurityThreatLevel_eq_dec : EqDecision SecurityThreatLevel.
Proof. solve_decision. Defined.

(** The enumeration's [value]. *)
Definition value (l : SecurityThreatLevel) : string :=
  match l with
  | LOW => "low"
  | MEDIUM => "medium"
  | HIGH => "high"
  | CRITICAL => "critical"
  end.

Inductive DetectionStatus : Set := PENDING | IN_PROGRESS | COMPLETED | FAILED.

#[export] Instance DetectionStatus_eq_dec : EqDecision DetectionStatus.
Proof. solve_decision. Defined.

Record BoundingBox : Type := {
  x : Z;
  y : Z;
  width : Z;
  height : Z;
  box_confidence : Q
}.

Record PersonDetection : Type := {
  detection_timestamp : Z;
  bounding_box : BoundingBox;
  frame_number : Z;
  detection_confidence : Q
}.

(** [PersonDetection.__post_init__]: the check made at construction. *)
Definition post_init (d : PersonDetection) : result PersonDetection :=
  if (Qlt_le_dec (detection_confidence d) 0) then Raised
  else if (Qlt_le_dec 1 (detection_confidence d)) then Raised
  else Ok d.

Record VideoClip : Type := {
  file_path : string;
  start_time : Z;
  duration : Q;
  frame_count : Z;
  resolution : Z * Z;
  trigger_detection : PersonDetection
}.

Record SecurityAnalysis : Type := {
  video_clip : VideoClip;
  analysis_text : string;
  threat_level : SecurityThreatLevel;
  confidence : Q;
  keywords : list string;
  timestamp : Z
}.

Definition is_threat_detected (a : SecurityAnalysis) : bool :=
  bool_decide (threat_level a ∈ [MEDIUM; HIGH; CRITICAL]).

Record MonitoringSession : Type := {
  session_id : string;
  session_start_time : Z;
  end_time : option Z;
  detections : list PersonDetection;
  video_clips : list VideoClip;
  analyses : list SecurityAnalysis;
  status : DetectionStatus
}.

(** [sum(1 for analysis in self.analyses if analysis.is_threat_detected)]. *)
Definition threat_count (s : MonitoringSession) : Z :=
  fold_right Z.add 0 (map (fun _ => 1) (List.filter is_threat_detected (analyses s))).

End Entities.

(** ** The HTTP backend

    What one [requests.post(..., timeout=t)] to the model server does: it
    answers with a status code and a body, or raises.  [response] is the
    text [response.json().get('response', '')] yields; it is [Raised] when
    the body is not a JSON object holding a string there.  The code reads
    it only after a status of 200. *)

Inductive PostResult : Type :=
| HttpReply (status_code : Z) (response : result string)
| RaisesTimeout
| RaisesOther.

(** ** modules/domain/services.py: SecurityThreatEvaluator *)

Module Services.
Import Entities.

(** How an iteration of the retry loop ends. *)
Inductive LoopStep (A : Type) : Type :=
| Return (a : A)
| Break
| Reraise
| Continue.
Arguments Return {A} a.
Arguments Break {A}.
Arguments Reraise {A}.
Arguments Continue {A}.

(** How the whole [for attempt in range(max_retries)] loop ends:
    [Fallthrough] is both a [break] and the end of the range. *)
Inductive LoopExit (A : Type) : Type :=
| Returned (a : A)
| Fallthrough
| Reraised.
Arguments Returned {A} a.
Arguments Fallthrough {A}.
Arguments Reraised {A}.

(** The value a call returns, with the timeouts (seconds) of the requests
    it made, in the order it made them. *)
Record Outcome (A : Type) : Type := {
  returned : A;
  calls : list Z
}.
Arguments returned {A} o.
Arguments calls {A} o.

Definition max_retries : Z := 3.

(** [range(n)]. *)
Definition range (n : Z) : list Z := map Z.of_nat (seq 0 (Z.to_nat n)).

Section retry.
Context {A : Type}.
(** [on_reply]: the body of [if response.status_code == 200:], run on the
    text of the reply. *)
Variable on_reply : string -> A.
(** [post attempt timeout]: the request of the given attempt. *)
Variable post : Z -> Z -> PostResult.

(** One iteration of the loop body, [try] and both [except] clauses. *)
Definition retry_step (attempt : Z) : LoopStep A :=
  let timeout := 60 + attempt * 30 in
  match post attempt timeout with
  | HttpReply status_code response =>
      if status_code =? 200 then
        match response with
        | Ok text => Return (on_reply text)
        | Raised => if attempt =? max_retries - 1 then Reraise else Continue
        end
      else if attempt =? max_retries - 1 then Break else Continue
  | RaisesTimeout => if attempt =? max_retries - 1 then Break else Continue
  | RaisesOther => if attempt =? max_retries - 1 then Reraise else Continue
  end.

Fixpoint retry_loop (attempts : list Z) : LoopExit A * list Z :=
  match attempts with
  | [] => (Fallthrough, [])
  | attempt :: rest =>
      let timeout := 60 + attempt * 30 in
      match retry_step attempt with
      | Return a => (Returned a, [timeout])
      | Break => (Fallthrough, [timeout])
      | Reraise => (Reraised, [timeout])
      | Continue => let (e, made) := retry_loop rest in (e, timeout :: made)
      end
  end.

End retry.

Definition safe_indicators : list string :=
  [ "no security concerns detected";
    "normal scene";
    "no people or suspicious activity visible";
    "no suspicious activity";
    "all frames show normal";
    "normal activity";
    "no threats detected";
    "appears normal" ].

Definition critical_keywords : list string :=
  ["weapon"; "violence"; "attack"; "break-in"; "forced entry"].

Definition high_keywords : list string :=
  ["suspicious"; "unauthorized"; "trespassing"].

Definition negative_context : list string :=
  ["no suspicious"; "not suspicious"; "no unauthorized"].

Definition medium_keywords : list string :=
  ["unusual"; "loitering"; "investigation"].

Definition _fallback_keyword_evaluation (analysis_text : string) : SecurityThreatLevel :=
  let text_lower := Text.lower analysis_text in
  if Text.any_in safe_indicators text_lower then LOW
  else if Text.any_in critical_keywords text_lower then CRITICAL
  else if Text.any_in high_keywords text_lower
          && negb (Text.any_in negative_context text_lower) then HIGH
  else if Text.any_in medium_keywords text_lower then MEDIUM
  else LOW.

(** The mapping of the backend's reply to the enumeration. *)
Definition threat_of_reply (reply : string) : SecurityThreatLevel :=
  let threat_response := Text.upper (Text.strip reply) in
  if Text.contains "CRITICAL" threat_response then CRITICAL
  else if Text.contains "HIGH" threat_response then HIGH
  else if Text.contains "MEDIUM" threat_response then MEDIUM
  else LOW.

(** [evaluate_threat_level]: a [return] inside the loop, the handler of the
    outer [try] after a re-raised exception, or the [return] after the
    [try] statement.  The [import requests] before the loop is taken to
    succeed. *)
Definition evaluate_threat_level
    (post : Z -> Z -> PostResult) (analysis_text : string)
  : Outcome SecurityThreatLevel :=
  let (exit, made) := retry_loop threat_of_reply post (range max_retries) in
  match exit with
  | Returned l => {| returned := l; calls := made |}
  | Reraised =>
      {| returned := _fallback_keyword_evaluation analysis_text; calls := made |}
  | Fallthrough => {| returned := LOW; calls := made |}
  end.

Definition all_keywords : list string :=
  [ "normal"; "suspicious"; "unusual"; "people"; "person"; "individual";
    "parking"; "vehicle"; "car"; "building"; "entrance"; "activity";
    "walking"; "running"; "standing"; "weapon"; "threat"; "security";
    "loitering"; "trespassing"; "breaking"; "forced entry" ].

Definition _fallback_keyword_extraction (analysis_text : string) : list string :=
  let text_lower := Text.lower analysis_text in
  firstn 5 (List.filter (fun keyword => Text.contains keyword text_lower) all_keywords).

(** The parsing of the backend's comma-separated reply. *)
Definition keywords_of_reply (reply : string) : list string :=
  let keywords_response := Text.strip reply in
  let keywords :=
    map (fun k => Text.lower (Text.strip k)) (Text.split "," keywords_response) in
  firstn 5 (List.filter (fun k => (2 <? String.length k)%nat) keywords).

(** [extract_keywords]: the same loop; both ways out of it lead to the
    fallback extraction. *)
Definition extract_keywords
    (post : Z -> Z -> PostResult) (analysis_text : string)
  : Outcome (list string) :=
  let (exit, made) := retry_loop keywords_of_reply post (range max_retries) in
  match exit with
  | Returned ks => {| returned := ks; calls := made |}
  | Reraised =>
      {| returned := _fallback_keyword_extraction analysis_text; calls := made |}
  | Fallthrough =>
      {| returned := _fallback_keyword_extraction analysis_text; calls := made |}
  end.

End Services.

(** ** modules/infrastructure/ollama_client.py: OllamaSecurityAnalyzer *)

Module Ollama.
Import Entities.

(** Everything outside the process that an analysis reads.  [Frame] is what
    [cv2] hands back for one frame.  Saving the frames and writing the
    session log do not feed the result and catch their own exceptions; they
    are left out. *)
Record World (Frame : Type) : Type := {
  (** [datetime.now()] *)
  now : Z;
  (** [extract_frames(video_path, num_frames)], which catches what [cv2]
      raises and returns the frames read so far. *)
  read_frames : string -> Z -> list Frame;
  (** The base64 JPEG of a frame; [None] when the encoder raises. *)
  encode_frame : Frame -> option string;
  (** The request of [_analyze_frame_batch], by batch and batch number. *)
  post_batch : list string -> Z -> PostResult;
  (** The request of [_consolidate_analyses], by prompt. *)
  post_consolidation : string -> PostResult;
  (** The requests of the threat evaluator, by attempt and timeout. *)
  post_threat : Z -> Z -> PostResult;
  post_keywords : Z -> Z -> PostResult
}.
Arguments now {Frame} w.
Arguments read_frames {Frame} w.
Arguments encode_frame {Frame} w.
Arguments post_batch {Frame} w.
Arguments post_consolidation {Frame} w.
Arguments post_threat {Frame} w.
Arguments post_keywords {Frame} w.

Definition _create_failed_analysis
    (now : Z) (video_clip : VideoClip) (error_message : string) : SecurityAnalysis :=
  {| video_clip := video_clip;
     analysis_text := "Analysis failed: " ++ error_message;
     threat_level := LOW;
     confidence := 0;
     keywords := [];
     timestamp := now |}.

(** [_frames_to_base64]: a frame that fails to encode is skipped. *)
Definition _frames_to_base64 {Frame} (w : World Frame) (frames : list Frame) : list string :=
  omap (encode_frame w) frames.

(** [_analyze_frame_batch], reduced to the [batch_summary] of the
    dictionary it returns; [None] is Python's. *)
Definition _analyze_frame_batch {Frame} (w : World Frame)
    (frame_batch : list string) (batch_number : Z) : option string :=
  match post_batch w frame_batch batch_number with
  | HttpReply status_code response =>
      if status_code =? 200 then
        match response with
        | Ok text =>
            let raw_analysis := Text.strip text in
            if String.eqb raw_analysis "" then None else Some raw_analysis
        | Raised => None
        end
      else None
  | RaisesTimeout => None
  | RaisesOther => None
  end.

Definition batch_size : nat := 4.

(** [[frame_data[i:i + batch_size] for i in range(0, len(frame_data), batch_size)]] *)
Definition frame_batches {A} (frame_data : list A) : list (list A) :=
  map (fun k => firstn batch_size (skipn (k * batch_size) frame_data))
      (seq 0 ((length frame_data + batch_size - 1) / batch_size)).

Definition consolidation_prompt (combined_summaries : string) : string :=
  "Consolidate these surveillance batch reports into a final security assessment. "
  ++ "Report only facts observed in the footage - do not speculate or create fictional details. "
  ++ "Summarize: personnel, movements, vehicles, objects, and any documented security concerns. "
  ++ "Base conclusions only on what was actually reported. "
  ++ "For normal activity, conclude: 'No security incidents detected.'"
  ++ Text.newline ++ Text.newline
  ++ combined_summaries ++ Text.newline ++ Text.newline
  ++ "Security Assessment:".

(** ["\n\n".join([f"Batch {i+1}: {summary}" for i, summary in enumerate(batch_summaries)])] *)
Definition combine (batch_summaries : list string) : string :=
  Text.join (Text.newline ++ Text.newline)
    (imap (fun i summary => "Batch " ++ Text.str_of_Z (Z.of_nat i + 1) ++ ": " ++ summary)
          batch_summaries).

Definition _consolidate_analyses
    (post : string -> PostResult) (batch_summaries : list string) : string :=
  let combined_summaries := combine batch_summaries in
  let combined_fallback :=
    "Multiple batch summaries:" ++ Text.newline ++ combined_summaries in
  let except_fallback :=
    "Batch summaries (consolidation failed):" ++ Text.newline
    ++ Text.join Text.newline batch_summaries in
  match post (consolidation_prompt combined_summaries) with
  | HttpReply status_code response =>
      if status_code =? 200 then
        match response with
        | Ok text =>
            let consolidated := Text.strip text in
            if String.eqb consolidated "" then combined_fallback else consolidated
        | Raised => except_fallback
        end
      else combined_fallback
  | RaisesTimeout => except_fallback
  | RaisesOther => except_fallback
  end.

(** [_analyze_frames_individually]: the pool stores each batch's result at
    the batch's index, so the summaries come out in batch order. *)
Definition _analyze_frames_individually {Frame} (w : World Frame)
    (frame_data : list string) : option string :=
  let batch_summaries :=
    imap (fun batch_idx batch =>
            match _analyze_frame_batch w batch (Z.of_nat batch_idx + 1) with
            | Some batch_summary => batch_summary
            | None => "No analysis received"
            end)
         (frame_batches frame_data) in
  match batch_summaries with
  | [] => None
  | _ => Some (_consolidate_analyses (post_consolidation w) batch_summaries)
  end.

(** [_calculate_confidence], in exact arithmetic. *)
Definition _calculate_confidence (analysis_text : string) (keywords : list string) : Q :=
  let base_confidence := 7 # 10 in
  let text_length_factor :=
    Qmin (Z.of_nat (String.length analysis_text) # 200) (2 # 10) in
  let keyword_factor := Qmin (Z.of_nat (length keywords) # 5) (1 # 10) in
  Qmin (base_confidence + text_length_factor + keyword_factor)%Q 1.

(** [analyze_video].  Each helper called in the [try] block catches its own
    exceptions, so the block's [except Exception] clause, which also
    returns [_create_failed_analysis], has nothing to catch here. *)
Definition analyze_video {Frame} (w : World Frame) (video_clip : VideoClip)
  : SecurityAnalysis :=
  let frames := read_frames w (file_path video_clip) 30 in
  match frames with
  | [] => _create_failed_analysis (now w) video_clip "Failed to extract frames"
  | _ =>
      let frame_data := _frames_to_base64 w frames in
      match _analyze_frames_individually w frame_data with
      | None | Some EmptyString =>
          _create_failed_analysis (now w) video_clip
            "Failed to get AI analysis after retries"
      | Some analysis_text =>
          let threat_level :=
            Services.returned (Services.evaluate_threat_level (post_threat w) analysis_text) in
          let keywords :=
            Services.returned (Services.extract_keywords (post_keywords w) analysis_text) in
          {| video_clip := video_clip;
             analysis_text := analysis_text;
             threat_level := threat_level;
             confidence := _calculate_confidence analysis_text keywords;
             keywords := keywords;
             timestamp := now w |}
      end
  end.

(** *** extract_frames

    What [cv2.VideoCapture] answers for a clip.  The two quantities taken
    from the frame rate are integers when the loop uses them. *)

Inductive ReadResult (Frame : Type) : Type :=
| ReadFrame (frame : Frame)
| ReadFailed
| ReadRaises.
Arguments ReadFrame {Frame} frame.
Arguments ReadFailed {Frame}.
Arguments ReadRaises {Frame}.

Record Capture (Frame : Type) : Type := {
  (** [int(cap.get(cv2.CAP_PROP_FRAME_COUNT))] *)
  total_frames : Z;
  (** [int(fps * 2)], with 30.0 for [fps] when the capture reports none *)
  frame_interval : Z;
  (** [int(fps * 60)] *)
  max_duration_frames : Z;
  (** Seeking to a frame, reading it and resizing it. *)
  read_at : Z -> ReadResult Frame
}.
Arguments total_frames {Frame} c.
Arguments frame_interval {Frame} c.
Arguments max_duration_frames {Frame} c.
Arguments read_at {Frame} c.

(** The [while] loop that collects the frame indices; [budget] is what
    [num_frames] leaves above [len(frame_indices)]. *)
Fixpoint frame_indices_loop (budget : nat) (current_frame limit interval : Z) : list Z :=
  match budget with
  | O => []
  | S budget' =>
      if current_frame <? limit
      then current_frame
           :: frame_indices_loop budget' (current_frame + interval) limit interval
      else []
  end.

Definition frame_indices {Frame} (cap : Capture Frame) (num_frames : Z) : list Z :=
  frame_indices_loop (Z.to_nat num_frames) 0
    (Z.min (total_frames cap) (max_duration_frames cap)) (frame_interval cap).

(** The [for frame_idx in frame_indices] loop: a frame that cannot be read
    is skipped; an exception ends the function with the frames read so
    far. *)
Fixpoint read_indices {Frame} (read : Z -> ReadResult Frame) (indices : list Z)
  : list Frame :=
  match indices with
  | [] => []
  | frame_idx :: rest =>
      match read frame_idx with
      | ReadFrame frame => frame :: read_indices read rest
      | ReadFailed => read_indices read rest
      | ReadRaises => []
      end
  end.

(** [extract_frames]; [cap] is [Raised] when the clip cannot be opened. *)
Definition extract_frames {Frame} (cap : result (Capture Frame)) (num_frames : Z)
  : list Frame :=
  match cap with
  | Raised => []
  | Ok cap =>
      if total_frames cap =? 0 then []
      else read_indices (read_at cap) (frame_indices cap num_frames)
  end.

End Ollama.

(** ** modules/infrastructure/gemma_transformer_client.py

    The two helpers of [GemmaTransformerSecurityAnalyzer] that have a
    namesake in the Ollama client. *)

Module Transformer.
Import Entities.

Definition _create_failed_analysis
    (now : Z) (video_clip : VideoClip) (error_message : string) : SecurityAnalysis :=
  {| video_clip := video_clip;
     analysis_text := "Analysis failed: " ++ error_message;
     threat_level := LOW;
     confidence := 0;
     keywords := ["analysis_failed"];
     timestamp := now |}.

(** [_consolidate_batch_analyses], on the [batch_number] and [analysis] of
    each batch.  [predict] is [_predict] on the prompt's variable part; it
    returns [None] when the model raises.  With no batch at all,
    [batch_analyses[0]] raises and the handler answers. *)
Definition _consolidate_batch_analyses
    (predict : string -> option string) (batch_analyses : list (Z * string)) : string :=
  let first_or_failed :=
    match batch_analyses with
    | [] => "Analysis failed"
    | (_, analysis) :: _ => analysis
    end in
  let analyses_text :=
    Text.join (Text.newline ++ Text.newline)
      (map (fun batch =>
              "Time Segment " ++ Text.str_of_Z (fst batch) ++ ": " ++ snd batch)
           batch_analyses) in
  match predict analyses_text with
  | Some (String c r) => String c r
  | _ => first_or_failed
  end.

End Transformer.

(** ** json.dumps

    The values the notification payloads are built from, and
    [json.dumps(v, separators=(',', ':'))] with the default
    [ensure_ascii=True].  A dictionary keeps its insertion order.  A float
    is carried by the text [float.__repr__] gives for it. *)

Module Json.

#[warnings="-register-all"]
Inductive value : Type :=
| JNull
| JBool (b : bool)
| JInt (n : Z)
| JFloat (repr : string)
| JStr (s : string)
| JList (items : list value)
| JDict (entries : list (string * value)).

Definition hex_digit (n : N) : ascii :=
  match String.get (N.to_nat n) "0123456789abcdef" with
  | Some c => c
  | None => "0"%char
  end.

(** One character of a string literal: the short escapes, the printable
    ASCII characters as they are, [\u00XX] for the rest. *)
Definition escape_char (c : ascii) : string :=
  let n := Text.code c in
  if (n =? 34)%N then "\" ++ Text.quote
  else if (n =? 92)%N then "\\"
  else if (n =? 10)%N then "\n"
  else if (n =? 13)%N then "\r"
  else if (n =? 9)%N then "\t"
  else if (n =? 8)%N then "\b"
  else if (n =? 12)%N then "\f"
  else if ((32 <=? n) && (n <=? 126))%N then String c EmptyString
  else "\u00" ++ String (hex_digit (n / 16)) (String (hex_digit (n mod 16)) EmptyString).

Fixpoint escape (s : string) : string :=
  match s with
  | EmptyString => EmptyString
  | String c r => escape_char c ++ escape r
  end.

Definition encode_string (s : string) : string :=
  Text.quote ++ escape s ++ Text.quote.

Fixpoint dumps (v : value) : string :=
  match v with
  | JNull => "null"
  | JBool true => "true"
  | JBool false => "false"
  | JInt n => Text.str_of_Z n
  | JFloat repr => repr
  | JStr s => encode_string s
  | JList items => "[" ++ Text.join "," (map dumps items) ++ "]"
  | JDict entries =>
      "{" ++ Text.join ","
               (map (fun entry => encode_string (fst entry) ++ ":" ++ dumps (snd entry))
                    entries)
          ++ "}"
  end.

(** [len(json.dumps(v, ...).encode('utf-8'))]: the text is ASCII, one byte
    per character. *)
Definition encoded_size (v : value) : nat := String.length (dumps v).

(** [d.get(key, default)] *)
Fixpoint get (d : list (string * value)) (key : string) (default : value) : value :=
  match d with
  | [] => default
  | (k, v) :: rest => if String.eqb k key then v else get rest key default
  end.

(** [v[:n]]: strings and lists can be sliced, anything else raises. *)
Definition slice_to (n : nat) (v : value) : result value :=
  match v with
  | JStr s => Ok (JStr (Text.take n s))
  | JList items => Ok (JList (firstn n items))
  | _ => Raised
  end.

End Json.

(** ** modules/infrastructure/mobile_notifications.py: MobileNotificationService *)

Module Notify.
Import Entities.
Import Json.

Record MobileNotificationService : Type := {
  notification_url : option string;
  webhook_urls : list string;
  min_threat_level : SecurityThreatLevel;
  server_ip : string;
  notification_port : Z;
  enable_push_notifications : bool
}.

(** [__init__]; [local_ip] is what [_get_local_ip()] finds. *)
Definition __init__ (local_ip : string) (notification_url : option string)
    (webhook_urls : option (list string)) (min_threat_level : SecurityThreatLevel)
  : MobileNotificationService :=
  {| notification_url := notification_url;
     webhook_urls := default [] webhook_urls;
     min_threat_level := min_threat_level;
     server_ip := local_ip;
     notification_port := 8888;
     enable_push_notifications := true |}.

(** The truth value of an optional string: [None] and [""] are false. *)
Definition truthy (s : option string) : bool :=
  match s with
  | None => false
  | Some EmptyString => false
  | Some _ => true
  end.

Definition threat_levels : list (SecurityThreatLevel * Z) :=
  [(LOW, 1); (MEDIUM, 2); (HIGH, 3); (CRITICAL, 4)].

(** [threat_levels.get(level, default)] *)
Fixpoint levels_get (d : list (SecurityThreatLevel * Z))
    (level : SecurityThreatLevel) (default : Z) : Z :=
  match d with
  | [] => default
  | (l, n) :: rest => if bool_decide (l = level) then n else levels_get rest level default
  end.

Definition should_notify (self : MobileNotificationService) (analysis : SecurityAnalysis)
  : bool :=
  if negb (enable_push_notifications self) then false
  else if negb (is_threat_detected analysis) then false
  else
    let analysis_level := levels_get threat_levels (threat_level analysis) 0 in
    let min_level := levels_get threat_levels (min_threat_level self) 2 in
    analysis_level >=? min_level.

(** What the payload takes from the clock, the [pathlib] module and the
    float printer. *)
Record Runtime : Type := {
  (** [datetime.now().strftime('%Y%m%d_%H%M%S')] *)
  now_strftime : string;
  (** [datetime.now().isoformat()] *)
  now_isoformat : string;
  (** [Path(p).name] and [Path(p).stem] *)
  path_name : string -> string;
  path_stem : string -> string;
  (** [float.__repr__] *)
  float_repr : Q -> string
}.

Definition strip_markup (s : string) : string :=
  Text.replace "#" "" (Text.replace "*" "" (Text.replace "**" "" s)).

(** The [for sentence in sentences] loop of [_extract_summary]: the first
    sentence of more than 20 characters, cleaned and cut to 100. *)
Fixpoint first_long_sentence (sentences : list string) : option string :=
  match sentences with
  | [] => None
  | sentence :: rest =>
      let sentence := Text.strip sentence in
      if (20 <? String.length sentence)%nat then
        let sentence := strip_markup sentence in
        Some (if (100 <? String.length sentence)%nat
              then Text.take 100 sentence ++ "..." else sentence)
      else first_long_sentence rest
  end.

Definition _extract_summary (analysis_text : string) : string :=
  if String.eqb analysis_text "" then "Security event detected"
  else
    let text := Text.strip analysis_text in
    if Text.contains "No security incidents detected" text
       || Text.contains "Routine surveillance" text
    then "Routine activity - no security concerns"
    else
      match first_long_sentence (Text.split "." text) with
      | Some sentence => sentence
      | None =>
          let summary :=
            if (100 <? String.length text)%nat then Text.take 100 text ++ "..." else text in
          strip_markup summary
      end.

Definition _extract_camera_name (file_path : option string) : string :=
  if negb (truthy file_path) then "Security Camera"
  else
    let path_lower := Text.lower (default "" file_path) in
    if Text.contains "front" path_lower || Text.contains "door" path_lower
    then "Front Door Camera"
    else if Text.contains "back" path_lower || Text.contains "yard" path_lower
    then "Backyard Camera"
    else if Text.contains "side" path_lower || Text.contains "gate" path_lower
    then "Side Gate Camera"
    else if Text.contains "garage" path_lower then "Garage Camera"
    else "Security Camera".

Definition opt_str (s : option string) : value :=
  match s with
  | Some t => JStr t
  | None => JNull
  end.

Definition _create_broadcast_notification_payload
    (self : MobileNotificationService) (rt : Runtime)
    (analysis : SecurityAnalysis) (video_path : option string)
  : list (string * value) :=
  let video_filename :=
    if truthy video_path then Some (path_name rt (default "" video_path)) else None in
  let video_id :=
    if truthy video_path then Some (path_stem rt (default "" video_path)) else None in
  let analysis_summary := _extract_summary (analysis_text analysis) in
  let base :=
    "http://" ++ server_ip self ++ ":" ++ Text.str_of_Z (notification_port self) in
  [ ("type", JStr "security_alert");
    ("id", JStr (if truthy video_id then default "" video_id
                 else "alert_" ++ now_strftime rt));
    ("timestamp", JStr (now_isoformat rt ++ "Z"));
    ("threatLevel", JStr (Text.upper (Entities.value (threat_level analysis))));
    ("confidence", JFloat (float_repr rt (confidence analysis)));
    ("summary", JStr analysis_summary);
    ("camera", JStr (_extract_camera_name video_path));
    ("keywords", JList (map JStr (firstn 3 (keywords analysis))));
    ("video_id", opt_str video_id);
    ("video_filename", opt_str video_filename);
    ("is_threat_detected", JBool (is_threat_detected analysis));
    ("api_endpoint",
      if truthy video_id
      then JStr (base ++ "/api/security/videos/" ++ default "" video_id)
      else JNull);
    ("server_info",
      JDict [("ip", JStr (server_ip self)); ("port", JInt (notification_port self))]) ].

(** *** The network

    One dispatch talks to the network through UDP sockets and HTTP POSTs.
    What it did is recorded, in order, as a list of events; what the
    network answers may depend on everything done so far. *)

Inductive Channel : Set := Webhook | Http.

Inductive AioResult : Type :=
| Status (code : Z)
| AioTimeout
| AioError.

Inductive Event : Type :=
| SocketOpened (port : Z) (ok : bool)
| SentTo (addr : string) (port : Z) (message : string) (ok : bool)
| Posted (channel : Channel) (url : string) (payload : value) (answer : AioResult).

Record Network : Type := {
  (** [_get_broadcast_addresses()], which catches its own exceptions. *)
  broadcast_addresses : list string;
  (** Creating the UDP socket and setting its options does not raise. *)
  open_socket : list Event -> Z -> bool;
  (** [sock.sendto(message, (addr, port))] does not raise. *)
  sendto : list Event -> string -> Z -> string -> bool;
  (** [session.post(url, json=payload, timeout=5s)]. *)
  post : list Event -> string -> value -> AioResult
}.

Definition cap : nat := 1400.

(** The [compact_payload] dictionary; a slice of something that is neither
    a string nor a list raises. *)
Definition compact_payload (payload : list (string * value))
  : result (list (string * value)) :=
  summary ← slice_to 100 (get payload "summary" (JStr ""));
  keywords ← slice_to 2 (get payload "keywords" (JList []));
  Ok [ ("type", get payload "type" JNull);
       ("id", get payload "id" JNull);
       ("timestamp", get payload "timestamp" JNull);
       ("threatLevel", get payload "threatLevel" JNull);
       ("confidence", get payload "confidence" JNull);
       ("summary", summary);
       ("camera", get payload "camera" JNull);
       ("keywords", keywords);
       ("server_info", get payload "server_info" JNull) ].

(** The [message] that [_send_broadcast_notification] hands to [sendto]. *)
Definition broadcast_message (payload : list (string * value)) : result string :=
  let message := dumps (JDict payload) in
  if (cap <? String.length message)%nat
  then compact ← compact_payload payload; Ok (dumps (JDict compact))
  else Ok message.

(** The statement before the [try]: it takes [len] of the summary and, when
    that exceeds 50, slices it and appends a string. *)
Definition summary_for_log (payload : list (string * value)) : result unit :=
  match get payload "summary" (JStr "") with
  | JStr _ => Ok tt
  | JList items => if (50 <? length items)%nat then Raised else Ok tt
  | JDict entries => if (50 <? length entries)%nat then Raised else Ok tt
  | _ => Raised
  end.

Definition ports : list Z := [9999; 9998; 10000; 8888].

(** [for broadcast_addr in broadcast_addresses]: a failed [sendto] is
    logged and the loop goes on. *)
Fixpoint send_to_all (net : Network) (port : Z) (message : string)
    (addrs : list string) (log : list Event) : list Event :=
  match addrs with
  | [] => log
  | addr :: rest =>
      let ok := sendto net log addr port message in
      send_to_all net port message rest (log ++ [SentTo addr port message ok])
  end.

(** [for port in ports]: returns [success_count] and the log. *)
Fixpoint broadcast_ports (net : Network) (message : string) (todo : list Z)
    (success_count : Z) (log : list Event) : Z * list Event :=
  match todo with
  | [] => (success_count, log)
  | port :: rest =>
      if open_socket net log port then
        let log := send_to_all net port message (broadcast_addresses net)
                     (log ++ [SocketOpened port true]) in
        broadcast_ports net message rest (success_count + 1) log
      else
        broadcast_ports net message rest success_count (log ++ [SocketOpened port false])
  end.

Definition _send_broadcast_notification (net : Network)
    (payload : list (string * value)) (log : list Event) : result bool * list Event :=
  match summary_for_log payload with
  | Raised => (Raised, log)
  | Ok _ =>
      match broadcast_message payload with
      | Raised => (Ok false, log)
      | Ok message =>
          let (success_count, log) := broadcast_ports net message ports 0 log in
          (Ok (0 <? success_count), log)
      end
  end.

(** [for webhook_url in self.webhook_urls]: returns [success_count]. *)
Fixpoint webhook_loop (net : Network) (payload : list (string * value))
    (urls : list string) (success_count : Z) (log : list Event) : Z * list Event :=
  match urls with
  | [] => (success_count, log)
  | webhook_url :: rest =>
      let answer := post net log webhook_url (JDict payload) in
      let log := (log ++ [Posted Webhook webhook_url (JDict payload) answer])%list in
      match answer with
      | Status code =>
          if code =? 200 then webhook_loop net payload rest (success_count + 1) log
          else webhook_loop net payload rest success_count log
      | AioTimeout => webhook_loop net payload rest success_count log
      | AioError => webhook_loop net payload rest success_count log
      end
  end.

Definition _send_webhook_notifications (self : MobileNotificationService)
    (net : Network) (payload : list (string * value)) (log : list Event)
  : bool * list Event :=
  let (success_count, log) := webhook_loop net payload (webhook_urls self) 0 log in
  (0 <? success_count, log).

Definition _send_http_notification (self : MobileNotificationService)
    (net : Network) (payload : list (string * value)) (log : list Event)
  : bool * list Event :=
  let url := default "" (notification_url self) in
  let answer := post net log url (JDict payload) in
  let log := (log ++ [Posted Http url (JDict payload) answer])%list in
  match answer with
  | Status code => if code =? 200 then (true, log) else (false, log)
  | AioTimeout => (false, log)
  | AioError => (false, log)
  end.

(** [send_security_alert]: the value returned and the events of the
    dispatch, appended to [log]. *)
Definition send_security_alert (self : MobileNotificationService) (rt : Runtime)
    (net : Network) (analysis : SecurityAnalysis) (video_path : option string)
    (log : list Event) : bool * list Event :=
  if negb (should_notify self analysis) then (false, log)
  else
    let notification :=
      _create_broadcast_notification_payload self rt analysis video_path in
    match _send_broadcast_notification net notification log with
    | (Raised, log) => (false, log)
    | (Ok broadcast_success, log) =>
        let success := broadcast_success in
        let (success, log) :=
          match webhook_urls self with
          | _ :: _ =>
              if negb success then
                let (webhook_success, log) :=
                  _send_webhook_notifications self net notification log in
                (success || webhook_success, log)
              else (success, log)
          | [] => (success, log)
          end in
        if truthy (notification_url self) && negb success
        then _send_http_notification self net notification log
        else (success, log)
    end.

(** *** send_test_notification *)

Definition test_payload (self : MobileNotificationService) (rt : Runtime)
  : list (string * value) :=
  [ ("type", JStr "test_notification");
    ("timestamp", JStr (now_isoformat rt ++ "Z"));
    ("summary", JStr "Security monitoring system test notification");
    ("threatLevel", JStr "TEST");
    ("server_info",
      JDict [("ip", JStr (server_ip self)); ("port", JInt (notification_port self));
             ("status", JStr "active")]) ].

(** [send_test_notification]: the value returned and the events, appended
    to [log]. *)
Definition send_test_notification (self : MobileNotificationService) (rt : Runtime)
    (net : Network) (log : list Event) : bool * list Event :=
  match _send_broadcast_notification net (test_payload self rt) log with
  | (Raised, log) => (false, log)
  | (Ok success, log) =>
      let (success, log) :=
        if negb success && truthy (notification_url self)
        then _send_http_notification self net (test_payload self rt) log
        else (success, log) in
      match webhook_urls self with
      | _ :: _ =>
          if negb success then
            let (webhook_success, log) :=
              _send_webhook_notifications self net (test_payload self rt) log in
            (success || webhook_success, log)
          else (success, log)
      | [] => (success, log)
      end
  end.

End Notify.

(** ** modules/infrastructure/person_detector.py: MobileNetPersonDetector *)

Module PersonDetector.
Import Entities.

(** [is_detection_valid], in exact arithmetic.  The width is at least 30
    where the ratio is taken. *)
Definition is_detection_valid (confidence_threshold : Q) (detection : PersonDetection)
  : bool :=
  if Qlt_le_dec (detection_confidence detection) confidence_threshold then false
  else
    let box := bounding_box detection in
    if (width box <? 30) || (height box <? 60) then false
    else
      let aspect_ratio := (inject_Z (height box) / inject_Z (width box))%Q in
      if Qlt_le_dec aspect_ratio (12 # 10) then false else true.

End PersonDetector.

(** ** modules/interfaces/repositories.py: the repositories of detections
    and of clips

    The two repositories that the container wires.  Each method catches
    whatever its storage raises, logs it and returns: a caller cannot tell
    a record that was written from one that was not. *)

Module Repositories.
Import Entities.

(** [SQLitePersonDetectionRepository.save_detection] on the rows of the
    table [person_detections], each row as the detection it is written
    from, in the order of insertion.  [inserted] says that [sqlite3] ran and
    committed the [INSERT]; otherwise the exception is caught and the table
    is as it was. *)
Definition save_detection (inserted : bool) (table : list PersonDetection)
    (detection : PersonDetection) : list PersonDetection :=
  if inserted then table ++ [detection] else table.

(** The JSON file of [FileSystemVideoClipRepository], as [_load_data] reads
    it: a list of records, each as the clip it is written from; a file that
    cannot be parsed reads as the empty list. *)

(** [_load_data]: the records of the file, or [[]] when opening or parsing
    it raises. *)
Definition _load_data (loaded : bool) (file : list VideoClip) : list VideoClip :=
  if loaded then file else [].

(** How the writing ends: the data are written; nothing is written and the
    file stays as it was, because it cannot be opened or the record cannot
    be built; or the file is opened, which empties it, and the writing
    raises. *)
Inductive WriteOutcome : Set := Written | NotWritten | Torn.

(** [_save_data]: the file afterwards. *)
Definition _save_data (outcome : WriteOutcome) (file data : list VideoClip)
  : list VideoClip :=
  match outcome with
  | Written => data
  | NotWritten => file
  | Torn => []
  end.

(** [FileSystemVideoClipRepository.save_clip]: the file afterwards. *)
Definition save_clip (loaded : bool) (outcome : WriteOutcome) (file : list VideoClip)
    (clip : VideoClip) : list VideoClip :=
  let data := _load_data loaded file in
  _save_data outcome file (data ++ [clip]).

End Repositories.

(** ** modules/application/use_cases.py *)

Module UseCases.
Import Entities.

(** *** PersonDetectionUseCase *)

(** [timedelta(seconds=5)], in microseconds. *)
Definition seconds (n : Z) : Z := n * 1000000.

Record PersonDetectionUseCase : Type := {
  last_detection_time : option Z;
  detection_cooldown : Z;
  (** The rows of the detection repository. *)
  detection_repository : list PersonDetection
}.

Definition PersonDetectionUseCase__init__ : PersonDetectionUseCase :=
  {| last_detection_time := None;
     detection_cooldown := seconds 5;
     detection_repository := [] |}.

(** What the collaborators and the clock do during one [process_frame]:
    the use case knows the detection service and the repository by their
    interfaces only, and either may raise. *)
Record FrameCall : Type := {
  (** [detection_service.detect_persons(frame)] *)
  detect_persons : result (list PersonDetection);
  (** [detection_service.is_detection_valid(detection)] *)
  is_detection_valid : PersonDetection -> result bool;
  (** [detection_repository.save_detection(detection)] returns. *)
  save_detection_ok : PersonDetection -> bool;
  (** The repository, when its [save_detection] returns, has inserted the
      row. *)
  save_detection_inserts : PersonDetection -> bool;
  (** [datetime.now()] in [_should_process_detection] *)
  now_at_check : Z;
  (** [datetime.now()] in [self.last_detection_time = datetime.now()] *)
  now_at_stamp : Z
}.

Definition _should_process_detection (self : PersonDetectionUseCase) (now : Z) : bool :=
  match last_detection_time self with
  | None => true
  | Some last =>
      let time_since_last := now - last in
      time_since_last >=? detection_cooldown self
  end.

(** [[d for d in detections if is_detection_valid(d)]] *)
Fixpoint valid_detections (valid : PersonDetection -> result bool)
    (detections : list PersonDetection) : result (list PersonDetection) :=
  match detections with
  | [] => Ok []
  | d :: rest =>
      keep ← valid d;
      kept ← valid_detections valid rest;
      Ok (if keep : bool then d :: kept else kept)
  end.

(** [for detection in valid_detections: save_detection(detection)]: the
    repository after the loop, and whether the loop ran to its end.  The
    use case knows the repository by its interface, and a call that raises
    ends the loop; the repository of the container never raises, and a call
    of it that returns may have inserted nothing. *)
Fixpoint save_all (ok inserts : PersonDetection -> bool) (todo : list PersonDetection)
    (stored : list PersonDetection) : result unit * list PersonDetection :=
  match todo with
  | [] => (Ok tt, stored)
  | d :: rest =>
      if ok d
      then save_all ok inserts rest (Repositories.save_detection (inserts d) stored d)
      else (Raised, stored)
  end.

Definition set_last (self : PersonDetectionUseCase) (last : option Z)
    (stored : list PersonDetection) : PersonDetectionUseCase :=
  {| last_detection_time := last;
     detection_cooldown := detection_cooldown self;
     detection_repository := stored |}.

(** [process_frame]: the list returned and the use case afterwards.  The
    [except Exception] clause returns the empty list. *)
Definition process_frame (self : PersonDetectionUseCase) (call : FrameCall)
  : list PersonDetection * PersonDetectionUseCase :=
  match detections ← detect_persons call;
        valid_detections (is_detection_valid call) detections with
  | Raised => ([], self)
  | Ok valid =>
      match valid with
      | [] => ([], self)
      | _ :: _ =>
          if _should_process_detection self (now_at_check call) then
            match save_all (save_detection_ok call) (save_detection_inserts call) valid
                    (detection_repository self) with
            | (Raised, stored) => ([], set_last self (last_detection_time self) stored)
            | (Ok _, stored) => (valid, set_last self (Some (now_at_stamp call)) stored)
            end
          else ([], self)
      end
  end.

(** The lists returned by successive calls of [process_frame]. *)
Fixpoint process_frames (self : PersonDetectionUseCase) (calls : list FrameCall)
  : list (list PersonDetection) :=
  match calls with
  | [] => []
  | call :: rest =>
      let (out, self) := process_frame self call in
      out :: process_frames self rest
  end.

(** *** InMemoryMonitoringSessionRepository and MonitoringSessionUseCase

    A session is an object that the use case and the repository both hold:
    the heap maps a reference to the object, and both keep references. *)

Definition ref : Type := positive.

Record SessionRepository : Type := {
  sessions : gmap string ref;
  active_session_id : option string
}.

Record SessionState : Type := {
  heap : gmap ref MonitoringSession;
  current_session : option ref;
  session_repository : SessionRepository
}.

Definition SessionRepository__init__ : SessionRepository :=
  {| sessions := ∅; active_session_id := None |}.

(** [save_session(session)] *)
Definition save_session (repo : SessionRepository) (r : ref) (session : MonitoringSession)
  : SessionRepository :=
  {| sessions := <[session_id session := r]> (sessions repo);
     active_session_id :=
       if bool_decide (status session = IN_PROGRESS) then Some (session_id session)
       else active_session_id repo |}.

(** [update_session(session)] *)
Definition update_session (repo : SessionRepository) (r : ref) (session : MonitoringSession)
  : SessionRepository :=
  {| sessions := <[session_id session := r]> (sessions repo);
     active_session_id :=
       if bool_decide (status session = COMPLETED) then None
       else active_session_id repo |}.

(** A method of the use case that changes the current session in place and
    then hands it to [update_session]. *)
Definition mutate_current (change : MonitoringSession -> MonitoringSession)
    (st : SessionState) : SessionState :=
  match current_session st with
  | None => st
  | Some r =>
      match heap st !! r with
      | None => st
      | Some session =>
          let session := change session in
          {| heap := <[r := session]> (heap st);
             current_session := current_session st;
             session_repository := update_session (session_repository st) r session |}
      end
  end.

Definition append_detection (d : PersonDetection) (s : MonitoringSession) : MonitoringSession :=
  {| session_id := session_id s; session_start_time := session_start_time s;
     end_time := end_time s;
     detections := detections s ++ [d];
     video_clips := video_clips s;
     analyses := analyses s;
     status := status s |}.

Definition append_clip (c : VideoClip) (s : MonitoringSession) : MonitoringSession :=
  {| session_id := session_id s; session_start_time := session_start_time s;
     end_time := end_time s;
     detections := detections s;
     video_clips := video_clips s ++ [c];
     analyses := analyses s;
     status := status s |}.

Definition append_analysis (a : SecurityAnalysis) (s : MonitoringSession) : MonitoringSession :=
  {| session_id := session_id s; session_start_time := session_start_time s;
     end_time := end_time s;
     detections := detections s;
     video_clips := video_clips s;
     analyses := analyses s ++ [a];
     status := status s |}.

Definition complete (now : Z) (s : MonitoringSession) : MonitoringSession :=
  {| session_id := session_id s; session_start_time := session_start_time s;
     end_time := Some now;
     detections := detections s;
     video_clips := video_clips s;
     analyses := analyses s;
     status := COMPLETED |}.

Definition add_detection_to_session (st : SessionState) (detection : PersonDetection)
  : SessionState :=
  mutate_current (append_detection detection) st.

Definition add_clip_to_session (st : SessionState) (video_clip : VideoClip) : SessionState :=
  mutate_current (append_clip video_clip) st.

Definition add_analysis_to_session (st : SessionState) (analysis : SecurityAnalysis)
  : SessionState :=
  mutate_current (append_analysis analysis) st.

(** [end_monitoring_session]: the session returned ([None] is Python's) and
    the state afterwards; [now] is [datetime.now()]. *)
Definition end_monitoring_session (st : SessionState) (now : Z)
  : option ref * SessionState :=
  match current_session st with
  | None => (None, st)
  | Some r =>
      let st := mutate_current (complete now) st in
      (Some r, {| heap := heap st;
                  current_session := None;
                  session_repository := session_repository st |})
  end.

(** [start_monitoring_session]: [now_end] is the clock as the previous
    session is ended, [stamp] is [datetime.now().strftime('%Y%m%d_%H%M%S')]
    and [now] the clock as the new session is created. *)
Definition start_monitoring_session (st : SessionState) (now_end : Z)
    (stamp : string) (now : Z) : ref * SessionState :=
  let st :=
    match current_session st with
    | Some r =>
        match heap st !! r with
        | Some session =>
            match end_time session with
            | None => snd (end_monitoring_session st now_end)
            | Some _ => st
            end
        | None => st
        end
    | None => st
    end in
  let session :=
    {| session_id := "session_" ++ stamp;
       session_start_time := now;
       end_time := None;
       detections := [];
       video_clips := [];
       analyses := [];
       status := IN_PROGRESS |} in
  let r := fresh (dom (heap st)) in
  (r, {| heap := <[r := session]> (heap st);
         current_session := Some r;
         session_repository := save_session (session_repository st) r session |}).

Definition MonitoringSessionUseCase__init__ : SessionState :=
  {| heap := ∅; current_session := None;
     session_repository := SessionRepository__init__ |}.

(** [InMemoryMonitoringSessionRepository.get_active_session] *)
Definition get_active_session (st : SessionState) : option ref :=
  match active_session_id (session_repository st) with
  | None => None
  | Some EmptyString => None
  | Some id =>
      match sessions (session_repository st) !! id with
      | None => None
      | Some r =>
          match heap st !! r with
          | Some session =>
              if bool_decide (status session = IN_PROGRESS) then Some r else None
          | None => None
          end
      end
  end.

(** [get_current_session] *)
Definition get_current_session (st : SessionState) : option ref := current_session st.

(** *** VideoRecordingUseCase

    What the recording service and the clip repository do during one
    [record_security_clip]. *)
Record RecordingCall : Type := {
  (** [recording_service.is_recording_active()] *)
  is_recording_active : result bool;
  (** [recording_service.record_clip(duration, output_path)] *)
  record_clip : result (option VideoClip);
  (** [video_repository.save_clip(video_clip)] returns. *)
  save_clip_ok : bool;
  (** What the repository meets as it saves: whether the file is read, and
      how the writing ends. *)
  clips_loaded : bool;
  clips_written : Repositories.WriteOutcome
}.

Definition with_trigger (video_clip : VideoClip) (trigger : PersonDetection) : VideoClip :=
  {| file_path := file_path video_clip;
     start_time := start_time video_clip;
     duration := duration video_clip;
     frame_count := frame_count video_clip;
     resolution := resolution video_clip;
     trigger_detection := trigger |}.

(** [record_security_clip]: the clip returned ([None] is Python's) and the
    records of the clip repository afterwards.  The use case knows the
    repository by its interface, and a [save_clip] that raises makes it
    return [None]; the repository of the container never raises, and its
    [save_clip] may leave the clip out or drop earlier records. *)
Definition record_security_clip (call : RecordingCall) (stored : list VideoClip)
    (trigger_detection : PersonDetection) : option VideoClip * list VideoClip :=
  match is_recording_active call with
  | Raised => (None, stored)
  | Ok true => (None, stored)
  | Ok false =>
      match record_clip call with
      | Raised => (None, stored)
      | Ok None => (None, stored)
      | Ok (Some video_clip) =>
          let video_clip := with_trigger video_clip trigger_detection in
          if save_clip_ok call
          then (Some video_clip,
                Repositories.save_clip (clips_loaded call) (clips_written call)
                  stored video_clip)
          else (None, stored)
      end
  end.

End UseCases.

(** ** config/dependency_injection.py: get_notification_service *)

Module Config.
Import Entities.

(** The notification fields of [SecurityMonitorSettings]. *)
Record SecurityMonitorSettings : Type := {
  enable_mobile_notifications : bool;
  notification_min_threat_level : string;
  mobile_notification_url : option string;
  notification_webhook_urls : string;
  notification_server_port : Z
}.

(** The defaults of the fields. *)
Definition defaults : SecurityMonitorSettings :=
  {| enable_mobile_notifications := true;
     notification_min_threat_level := "MEDIUM";
     mobile_notification_url := None;
     notification_webhook_urls := "";
     notification_server_port := 8888 |}.

(** [SecurityThreatLevel[name]]: the member of that name, or [KeyError]. *)
Definition level_by_name (name : string) : result SecurityThreatLevel :=
  if String.eqb name "LOW" then Ok LOW
  else if String.eqb name "MEDIUM" then Ok MEDIUM
  else if String.eqb name "HIGH" then Ok HIGH
  else if String.eqb name "CRITICAL" then Ok CRITICAL
  else Raised.

(** [[url.strip() for url in urls.split(',') if url.strip()]], made when
    the setting is not empty. *)
Definition parse_webhook_urls (urls : string) : list string :=
  if String.eqb urls "" then []
  else List.filter (fun url => negb (String.eqb url ""))
         (map Text.strip (Text.split "," urls)).

(** The [try] that reads the minimum level, with its [except KeyError]. *)
Definition parse_min_threat_level (name : string) : SecurityThreatLevel :=
  match level_by_name (Text.upper name) with
  | Ok level => level
  | Raised => MEDIUM
  end.

(** [get_notification_service], on first use; [local_ip] is what the
    service's [_get_local_ip()] finds. *)
Definition get_notification_service (settings : SecurityMonitorSettings)
    (local_ip : string) : Notify.MobileNotificationService :=
  let webhook_urls := parse_webhook_urls (notification_webhook_urls settings) in
  let min_threat_level :=
    parse_min_threat_level (notification_min_threat_level settings) in
  let service :=
    Notify.__init__ local_ip (mobile_notification_url settings) (Some webhook_urls)
      min_threat_level in
  {| Notify.notification_url := Notify.notification_url service;
     Notify.webhook_urls := Notify.webhook_urls service;
     Notify.min_threat_level := Notify.min_threat_level service;
     Notify.server_ip := Notify.server_ip service;
     Notify.notification_port := notification_server_port settings;
     Notify.enable_push_notifications := enable_mobile_notifications settings |}.

End Config.

(** ** modules/application/security_monitor.py: SecurityMonitor

    The monitoring loop and the analysis loop run on two threads and share
    the two flags, the queue of clips and the session.  Each loop blocks in
    one call: the monitoring loop while a clip is recorded, the analysis
    loop while a clip is analysed.  A step of the model is what one loop
    does between two of its blocking calls; the steps of the two loops
    interleave in any order. *)

Module Monitor.
Import Entities.

(** Where each loop stands. *)
Inductive MonitoringLoop : Type :=
| Watching
| Recording (trigger_detection : PersonDetection).

Inductive AnalysisLoop : Type :=
| Waiting
| Analysing (video_clip : VideoClip).

Section monitor.
(** The values of [time.time()], and the test
    [current_time - self._last_detection_time < self._min_detection_interval]
    on two of them. *)
Variable Time : Type.
Variable too_soon : Time -> Time -> bool.

Record SecurityMonitor : Type := {
  _recording_in_progress : bool;
  _analysis_in_progress : bool;
  _last_detection_time : Time;
  pending_analyses : list VideoClip;
  latest_analysis : string;
  latest_threat_level : option SecurityThreatLevel;
  session_use_case : UseCases.SessionState;
  (** The records of the clip repository of [video_recording_use_case]. *)
  video_repository : list VideoClip;
  monitoring_loop : MonitoringLoop;
  analysis_loop : AnalysisLoop
}.

(** The state [__init__] leaves, over a session use case and a clip
    repository; [epoch] is the time 0. *)
Definition __init__ (epoch : Time) (session_use_case : UseCases.SessionState)
    (video_repository : list VideoClip) : SecurityMonitor :=
  {| _recording_in_progress := false;
     _analysis_in_progress := false;
     _last_detection_time := epoch;
     pending_analyses := [];
     latest_analysis := "System Ready";
     latest_threat_level := None;
     session_use_case := session_use_case;
     video_repository := video_repository;
     monitoring_loop := Watching;
     analysis_loop := Waiting |}.

(** [_handle_person_detections] up to the call of [record_security_clip].
    With no detection, [detections[0]] raises and the handler clears both
    flags. *)
Definition handle_detections (m : SecurityMonitor)
    (detections : list PersonDetection) (current_time : Time) : SecurityMonitor :=
  if _recording_in_progress m then m
  else if _analysis_in_progress m then m
  else if too_soon current_time (_last_detection_time m) then m
  else
    match detections with
    | [] =>
        {| _recording_in_progress := false;
           _analysis_in_progress := false;
           _last_detection_time := _last_detection_time m;
           pending_analyses := pending_analyses m;
           latest_analysis := latest_analysis m;
           latest_threat_level := latest_threat_level m;
           session_use_case := session_use_case m;
           video_repository := video_repository m;
           monitoring_loop := monitoring_loop m;
           analysis_loop := analysis_loop m |}
    | trigger_detection :: _ =>
        {| _recording_in_progress := true;
           _analysis_in_progress := _analysis_in_progress m;
           _last_detection_time := current_time;
           pending_analyses := pending_analyses m;
           latest_analysis := latest_analysis m;
           latest_threat_level := latest_threat_level m;
           session_use_case :=
             fold_left UseCases.add_detection_to_session detections (session_use_case m);
           video_repository := video_repository m;
           monitoring_loop := Recording trigger_detection;
           analysis_loop := analysis_loop m |}
    end.

(** [_handle_person_detections] from the call of [record_security_clip] to
    its end; [call] is what the recording service and the clip repository
    do during the call. *)
Definition clip_recorded (m : SecurityMonitor) (trigger_detection : PersonDetection)
    (call : UseCases.RecordingCall) : SecurityMonitor :=
  let (video_clip, stored) :=
    UseCases.record_security_clip call (video_repository m) trigger_detection in
  match video_clip with
  | Some clip =>
      {| _recording_in_progress := false;
         _analysis_in_progress := true;
         _last_detection_time := _last_detection_time m;
         pending_analyses := pending_analyses m ++ [clip];
         latest_analysis := latest_analysis m;
         latest_threat_level := latest_threat_level m;
         session_use_case := UseCases.add_clip_to_session (session_use_case m) clip;
         video_repository := stored;
         monitoring_loop := Watching;
         analysis_loop := analysis_loop m |}
  | None =>
      {| _recording_in_progress := false;
         _analysis_in_progress := _analysis_in_progress m;
         _last_detection_time := _last_detection_time m;
         pending_analyses := pending_analyses m;
         latest_analysis := latest_analysis m;
         latest_threat_level := latest_threat_level m;
         session_use_case := session_use_case m;
         video_repository := stored;
         monitoring_loop := Watching;
         analysis_loop := analysis_loop m |}
  end.

(** The analysis loop up to the call of [analyze_security_clip]:
    [self.pending_analyses.pop(0)] when the queue is not empty. *)
Definition take_clip (m : SecurityMonitor) : SecurityMonitor :=
  match pending_analyses m with
  | [] => m
  | video_clip :: rest =>
      {| _recording_in_progress := _recording_in_progress m;
         _analysis_in_progress := _analysis_in_progress m;
         _last_detection_time := _last_detection_time m;
         pending_analyses := rest;
         latest_analysis := latest_analysis m;
         latest_threat_level := latest_threat_level m;
         session_use_case := session_use_case m;
         video_repository := video_repository m;
         monitoring_loop := monitoring_loop m;
         analysis_loop := Analysing video_clip |}
  end.

(** The analysis loop from the return of [analyze_security_clip], with
    [None] for Python's, to the end of the iteration.  Handling a threat
    sends the alert and changes nothing here; the visual monitor is off. *)
Definition clip_analysed (m : SecurityMonitor) (analysis : option SecurityAnalysis)
  : SecurityMonitor :=
  match analysis with
  | Some a =>
      {| _recording_in_progress := _recording_in_progress m;
         _analysis_in_progress := false;
         _last_detection_time := _last_detection_time m;
         pending_analyses := pending_analyses m;
         latest_analysis := analysis_text a;
         latest_threat_level := Some (threat_level a);
         session_use_case := UseCases.add_analysis_to_session (session_use_case m) a;
         video_repository := video_repository m;
         monitoring_loop := monitoring_loop m;
         analysis_loop := Waiting |}
  | None =>
      {| _recording_in_progress := _recording_in_progress m;
         _analysis_in_progress := false;
         _last_detection_time := _last_detection_time m;
         pending_analyses := pending_analyses m;
         latest_analysis := latest_analysis m;
         latest_threat_level := latest_threat_level m;
         session_use_case := session_use_case m;
         video_repository := video_repository m;
         monitoring_loop := monitoring_loop m;
         analysis_loop := Waiting |}
  end.

(** What happens next: the monitoring loop has detections in hand, the
    recording returns, the analysis loop looks at the queue, the analysis
    returns. *)
Inductive Step : Type :=
| Detected (detections : list PersonDetection) (current_time : Time)
| Recorded (call : UseCases.RecordingCall)
| Polled
| Analysed (analysis : option SecurityAnalysis).

(** A step is taken by the loop that stands where the step starts. *)
Definition step (m : SecurityMonitor) (s : Step) : SecurityMonitor :=
  match s, monitoring_loop m, analysis_loop m with
  | Detected detections current_time, Watching, _ =>
      handle_detections m detections current_time
  | Recorded call, Recording trigger_detection, _ =>
      clip_recorded m trigger_detection call
  | Polled, _, Waiting => take_clip m
  | Analysed analysis, _, Analysing _ => clip_analysed m analysis
  | _, _, _ => m
  end.

Definition run (m : SecurityMonitor) (steps : list Step) : SecurityMonitor :=
  fold_left step steps m.

End monitor.

Arguments _recording_in_progress {Time} s.
Arguments _analysis_in_progress {Time} s.
Arguments _last_detection_time {Time} s.
Arguments pending_analyses {Time} s.
Arguments latest_analysis {Time} s.
Arguments latest_threat_level {Time} s.
Arguments session_use_case {Time} s.
Arguments video_repository {Time} s.
Arguments monitoring_loop {Time} s.
Arguments analysis_loop {Time} s.
Arguments __init__ {Time} epoch session_use_case video_repository.
Arguments handle_detections {Time} too_soon m detections current_time.
Arguments clip_recorded {Time} m trigger_detection call.
Arguments take_clip {Time} m.
Arguments clip_analysed {Time} m analysis.
Arguments Detected {Time} detections current_time.
Arguments Recorded {Time} call.
Arguments Polled {Time}.
Arguments Analysed {Time} analysis.
Arguments step {Time} too_soon m s.
Arguments run {Time} too_soon m steps.

End Monitor.

(** ** Vocabulary of the statements *)

Module Spec.
Import Entities.

(** The ordinals of the threat levels. *)
Definition ordinal (l : SecurityThreatLevel) : Z :=
  match l with
  | LOW => 1
  | MEDIUM => 2
  | HIGH => 3
  | CRITICAL => 4
  end.

(** [needle] occurs in [hay]. *)
Definition occurs_in (needle hay : string) : Prop :=
  exists before after, hay = before ++ needle ++ after.

(** The text, whatever its case, has one of the [phrases]. *)
Definition mentions (phrases : list string) (text : string) : Prop :=
  exists phrase, In phrase phrases /\ occurs_in phrase (Text.lower text).

(** The call at position [k] of a run returned a non-empty list: its
    detections were admitted. *)
Definition admitted_at (outs : list (list PersonDetection)) (k : nat) : bool :=
  match outs !! k with
  | Some (_ :: _) => true
  | _ => false
  end.

(** The clock never goes back between two readings of a run: within a call
    the reading of the check comes before the reading of the stamp, and the
    readings of a call come before those of every later call. *)
Definition clock_monotone (calls : list UseCases.FrameCall) : Prop :=
  (forall k c, calls !! k = Some c ->
     UseCases.now_at_check c <= UseCases.now_at_stamp c) /\
  (forall k l c d, (k < l)%nat -> calls !! k = Some c -> calls !! l = Some d ->
     UseCases.now_at_stamp c <= UseCases.now_at_check d).

(** The channel an event of a dispatch belongs to. *)
Definition is_broadcast_event (e : Notify.Event) : bool :=
  match e with
  | Notify.SocketOpened _ _ => true
  | Notify.SentTo _ _ _ _ => true
  | Notify.Posted _ _ _ _ => false
  end.

Definition is_webhook_event (e : Notify.Event) : bool :=
  match e with
  | Notify.Posted Notify.Webhook _ _ _ => true
  | _ => false
  end.

Definition is_http_event (e : Notify.Event) : bool :=
  match e with
  | Notify.Posted Notify.Http _ _ _ => true
  | _ => false
  end.

(** The event is one that makes its channel succeed: a port whose socket
    was opened, a POST answered by status 200. *)
Definition succeeds (e : Notify.Event) : bool :=
  match e with
  | Notify.SocketOpened _ ok => ok
  | Notify.SentTo _ _ _ _ => false
  | Notify.Posted _ _ _ (Notify.Status code) => code =? 200
  | Notify.Posted _ _ _ _ => false
  end.

(** The outcome of a channel, read off its events. *)
Definition outcome (events : list Notify.Event) : bool := existsb succeeds events.

(** The messages handed to [sendto], in order. *)
Definition sent_messages (events : list Notify.Event) : list string :=
  omap (fun e => match e with
                 | Notify.SentTo _ _ message _ => Some message
                 | _ => None
                 end) events.

(** The text of an answer the retry loop can use: a status of 200 whose
    body holds the reply. *)
Definition usable_reply (r : PostResult) : option string :=
  match r with
  | HttpReply status_code (Ok text) => if status_code =? 200 then Some text else None
  | _ => None
  end.

(** The attempt ends in an exception that is not a timeout: the request
    raises one, or the body of a 200 answer cannot be read. *)
Definition fails_with_error (r : PostResult) : bool :=
  match r with
  | RaisesOther => true
  | HttpReply status_code Raised => status_code =? 200
  | _ => false
  end.

(** Every character of the text is one that [str.strip()] removes. *)
Fixpoint blank (s : string) : bool :=
  match s with
  | EmptyString => true
  | String c r => Text.is_space c && blank r
  end.

(** No character of the word is one that [str.strip()] removes. *)
Fixpoint solid (s : string) : bool :=
  match s with
  | EmptyString => true
  | String c r => negb (Text.is_space c) && solid r
  end.

(** The character occurs in the text. *)
Definition has_char (c : ascii) (s : string) : Prop :=
  In c (list_ascii_of_string s).

(** A call of a method of [MonitoringSessionUseCase], with the readings of
    the clock that the call takes. *)
Inductive SessionCall : Type :=
| StartSession (now_end : Z) (stamp : string) (now : Z)
| EndSession (now : Z)
| AddDetection (detection : PersonDetection)
| AddClip (video_clip : VideoClip)
| AddAnalysis (analysis : SecurityAnalysis).

Definition session_call (st : UseCases.SessionState) (call : SessionCall)
  : UseCases.SessionState :=
  match call with
  | StartSession now_end stamp now =>
      snd (UseCases.start_monitoring_session st now_end stamp now)
  | EndSession now => snd (UseCases.end_monitoring_session st now)
  | AddDetection detection => UseCases.add_detection_to_session st detection
  | AddClip video_clip => UseCases.add_clip_to_session st video_clip
  | AddAnalysis analysis => UseCases.add_analysis_to_session st analysis
  end.

(** The state of a use case after a sequence of calls. *)
Definition session_calls (st : UseCases.SessionState) (calls : list SessionCall)
  : UseCases.SessionState :=
  fold_left session_call calls st.

(** The use case and its repository agree.  The current session, when there
    is one, is an open session in progress that the repository holds under
    its identifier and names as the active one; with no current session the
    repository names no active session.  Every other session object is
    completed. *)
Definition session_consistent (st : UseCases.SessionState) : Prop :=
  match UseCases.current_session st with
  | None => UseCases.active_session_id (UseCases.session_repository st) = None
  | Some r =>
      exists s,
        UseCases.heap st !! r = Some s /\
        status s = IN_PROGRESS /\ end_time s = None /\ session_id s <> "" /\
        UseCases.active_session_id (UseCases.session_repository st)
          = Some (session_id s) /\
        UseCases.sessions (UseCases.session_repository st) !! session_id s = Some r
  end /\
  (forall r s, UseCases.heap st !! r = Some s -> UseCases.current_session st <> Some r ->
     status s = COMPLETED /\ end_time s <> None).

(** The session object the use case works on. *)
Definition current_object (st : UseCases.SessionState) : option MonitoringSession :=
  match UseCases.current_session st with
  | Some r => UseCases.heap st !! r
  | None => None
  end.

(** The number of clips a loop of the monitor has in hand: the one being
    recorded, the one being analysed. *)
Definition being_recorded (l : Monitor.MonitoringLoop) : nat :=
  match l with
  | Monitor.Recording _ => 1
  | Monitor.Watching => 0
  end.

Definition being_analysed (l : Monitor.AnalysisLoop) : nat :=
  match l with
  | Monitor.Analysing _ => 1
  | Monitor.Waiting => 0
  end.

(** The events of the broadcast on one port: the socket is opened, with
    success or not, and on success the message goes to every address in
    turn; [answers] says how the socket and each [sendto] fared. *)
Definition port_events (message : string) (addrs : list string) (port : Z)
    (answers : bool * list bool) : list Notify.Event :=
  Notify.SocketOpened port (fst answers)
  :: (if fst answers
      then zip_with (fun addr ok => Notify.SentTo addr port message ok) addrs (snd answers)
      else []).

End Spec.

(** ** Sample values *)

Module Sample.
Import Entities.

Definition box : BoundingBox :=
  {| x := 100; y := 80; width := 60; height := 150; box_confidence := 92 # 100 |}.

Definition detection : PersonDetection :=
  {| detection_timestamp := 0; bounding_box := box; frame_number := 7;
     detection_confidence := 92 # 100 |}.

Definition clip : VideoClip :=
  {| file_path := "./recordings/security_clip_20250101_120000_000.mp4";
     start_time := 0; duration := 60; frame_count := 1800;
     resolution := (1280, 720); trigger_detection := detection |}.

Definition analysis (level : SecurityThreatLevel) (text : string) (words : list string)
  : SecurityAnalysis :=
  {| video_clip := clip; analysis_text := text; threat_level := level;
     confidence := 8 # 10; keywords := words; timestamp := 0 |}.

Definition service (minimum : SecurityThreatLevel) (enabled : bool)
  : Notify.MobileNotificationService :=
  {| Notify.notification_url := Some "http://192.168.1.20:8080/alert";
     Notify.webhook_urls := ["http://192.168.1.30/hook"];
     Notify.min_threat_level := minimum;
     Notify.server_ip := "192.168.1.10";
     Notify.notification_port := 8888;
     Notify.enable_push_notifications := enabled |}.

(** A backend whose first request fails to connect and whose second is
    answered. *)
Definition post_error_then_high (attempt timeout : Z) : PostResult :=
  if attempt =? 0 then RaisesOther else HttpReply 200 (Ok "HIGH").

(** A world in which the clip cannot be read and the model server is down. *)
Definition unreadable : Ollama.World string :=
  {| Ollama.now := 1735732800000000;
     Ollama.read_frames := fun _ _ => [];
     Ollama.encode_frame := Some;
     Ollama.post_batch := fun _ _ => RaisesOther;
     Ollama.post_consolidation := fun _ => RaisesOther;
     Ollama.post_threat := fun _ _ => RaisesOther;
     Ollama.post_keywords := fun _ _ => RaisesOther |}.

(** A world in which the clip gives five frames and the model server is
    down. *)
Definition server_down : Ollama.World string :=
  {| Ollama.now := 1735732800000000;
     Ollama.read_frames := fun _ _ => ["f0"; "f1"; "f2"; "f3"; "f4"];
     Ollama.encode_frame := Some;
     Ollama.post_batch := fun _ _ => RaisesOther;
     Ollama.post_consolidation := fun _ => RaisesOther;
     Ollama.post_threat := fun _ _ => RaisesOther;
     Ollama.post_keywords := fun _ _ => RaisesOther |}.

(** A clip of 15 seconds at 30 frames a second, every frame readable. *)
Definition capture : Ollama.Capture Z :=
  {| Ollama.total_frames := 450;
     Ollama.frame_interval := 60;
     Ollama.max_duration_frames := 1800;
     Ollama.read_at := fun frame_idx => Ollama.ReadFrame frame_idx |}.

Definition summaries : list string :=
  ["One person walks to the gate."; "The person leaves by the road."].

Definition runtime : Notify.Runtime :=
  {| Notify.now_strftime := "20250101_120003";
     Notify.now_isoformat := "2025-01-01T12:00:03.250000";
     Notify.path_name := fun _ => "security_clip_20250101_120000_000.mp4";
     Notify.path_stem := fun _ => "security_clip_20250101_120000_000";
     Notify.float_repr := fun _ => "0.8" |}.

(** A network on which every socket opens, every [sendto] goes out and
    every POST is answered by status 200. *)
Definition network : Notify.Network :=
  {| Notify.broadcast_addresses := ["255.255.255.255"];
     Notify.open_socket := fun _ _ => true;
     Notify.sendto := fun _ _ _ _ => true;
     Notify.post := fun _ _ _ => Notify.Status 200 |}.

(** A network on which no socket can be opened; POSTs are answered. *)
Definition no_broadcast : Notify.Network :=
  {| Notify.broadcast_addresses := ["255.255.255.255"];
     Notify.open_socket := fun _ _ => false;
     Notify.sendto := fun _ _ _ _ => false;
     Notify.post := fun _ _ _ => Notify.Status 200 |}.

Fixpoint repeat_char (c : ascii) (n : nat) : string :=
  match n with
  | O => EmptyString
  | S k => String c (repeat_char c k)
  end.

(** A keyword of 1400 characters. *)
Definition long_keyword : string := repeat_char "a" 1400.

(** The clock of the monitor in whole seconds, and its five seconds between
    two detections. *)
Definition too_soon (current_time last : Z) : bool := current_time - last <? 5.

(** A recording that succeeds and is stored. *)
Definition recording : UseCases.RecordingCall :=
  {| UseCases.is_recording_active := Ok false;
     UseCases.record_clip := Ok (Some clip);
     UseCases.save_clip_ok := true;
     UseCases.clips_loaded := true;
     UseCases.clips_written := Repositories.Written |}.

(** A call of [process_frame] that sees the sample person, with the clock
    readings given. *)
Definition frame_call (check stamp : Z) : UseCases.FrameCall :=
  {| UseCases.detect_persons := Ok [detection];
     UseCases.is_detection_valid :=
       fun d => Ok (PersonDetector.is_detection_valid (1 # 2) d);
     UseCases.save_detection_ok := fun _ => true;
     UseCases.save_detection_inserts := fun _ => true;
     UseCases.now_at_check := check;
     UseCases.now_at_stamp := stamp |}.

(** Three frames with the person in view: at 0 s, 2 s and 6 s. *)
Definition frames : list UseCases.FrameCall :=
  [ frame_call 0 10;
    frame_call (UseCases.seconds 2) (UseCases.seconds 2 + 10);
    frame_call (UseCases.seconds 6) (UseCases.seconds 6 + 10) ].

End Sample.

(** * Properties *)

Import Entities.

(** ** Threat levels and the notification gate *)

Lemma levels_get_ordinal (l : SecurityThreatLevel) (d : Z) :
  Notify.levels_get Notify.threat_levels l d = Spec.ordinal l.
Proof. destruct l; reflexivity. Qed.

Lemma is_threat_detected_level (a : SecurityAnalysis) :
  is_threat_detected a = negb (bool_decide (threat_level a = LOW)).
Proof. unfold is_threat_detected. destruct (threat_level a); reflexivity. Qed.

Lemma sum_ones_length {A : Type} (l : list A) :
  fold_right Z.add 0 (map (fun _ => 1) l) = Z.of_nat (length l).
Proof.
  induction l as [|a l IH]; [reflexivity|].
  cbn [map fold_right length]. rewrite IH. lia.
Qed.

(** C8: [is_threat_detected] is true exactly when the threat level is
    strictly above LOW, that is for MEDIUM, HIGH and CRITICAL and not for
    LOW; and the [threat_count] of a session is the number of its analyses
    whose level is above LOW. *)
Theorem is_threat_detected_iff_above_low :
  (forall a : SecurityAnalysis,
      is_threat_detected a = true <->
      Spec.ordinal LOW < Spec.ordinal (threat_level a)) /\
  (forall a : SecurityAnalysis,
      is_threat_detected a = true <->
      threat_level a = MEDIUM \/ threat_level a = HIGH \/ threat_level a = CRITICAL) /\
  (forall a : SecurityAnalysis,
      threat_level a = LOW -> is_threat_detected a = false) /\
  (forall s : MonitoringSession,
      threat_count s =
      Z.of_nat (length (List.filter
                          (fun a => Spec.ordinal LOW <? Spec.ordinal (threat_level a))
                          (analyses s)))).
Proof.
  split; [|split; [|split]].
  - intros a. rewrite is_threat_detected_level.
    destruct (threat_level a); vm_compute; split; intros H;
      reflexivity || discriminate.
  - intros a. rewrite is_threat_detected_level.
    destruct (threat_level a); vm_compute; split; intros H; auto;
      try discriminate; destruct H as [H|[H|H]]; discriminate.
  - intros a H. rewrite is_threat_detected_level, H. reflexivity.
  - intros s. unfold threat_count. rewrite sum_ones_length. do 2 f_equal.
    apply filter_ext. intros a. rewrite is_threat_detected_level.
    destruct (threat_level a); reflexivity.
Qed.

(** C1 (as amended): [should_notify] is true if and only if push
    notifications are enabled, [is_threat_detected] is true and the ordinal
    of the analysis' level is at least that of the configured minimum.  A
    service as [__init__] builds it has notifications enabled, and there
    MEDIUM against a minimum of HIGH gives false and HIGH against a minimum
    of MEDIUM gives true. *)
Theorem should_notify_iff_enabled_threat_and_level :
  (forall (self : Notify.MobileNotificationService) (analysis : SecurityAnalysis),
      Notify.should_notify self analysis = true <->
      Notify.enable_push_notifications self = true /\
      is_threat_detected analysis = true /\
      Spec.ordinal (threat_level analysis)
        >= Spec.ordinal (Notify.min_threat_level self)) /\
  (forall ip url hooks minimum (analysis : SecurityAnalysis),
      Notify.should_notify (Notify.__init__ ip url hooks minimum) analysis = true <->
      is_threat_detected analysis = true /\
      Spec.ordinal (threat_level analysis) >= Spec.ordinal minimum) /\
  (forall ip url hooks (analysis : SecurityAnalysis),
      (threat_level analysis = MEDIUM ->
       Notify.should_notify (Notify.__init__ ip url hooks HIGH) analysis = false) /\
      (threat_level analysis = HIGH ->
       Notify.should_notify (Notify.__init__ ip url hooks MEDIUM) analysis = true)).
Proof.
  assert (G : forall self analysis,
             Notify.should_notify self analysis = true <->
             Notify.enable_push_notifications self = true /\
             is_threat_detected analysis = true /\
             Spec.ordinal (threat_level analysis)
               >= Spec.ordinal (Notify.min_threat_level self)).
  { intros self analysis. unfold Notify.should_notify.
    rewrite !levels_get_ordinal.
    destruct (Notify.enable_push_notifications self); cbn [negb].
    - destruct (is_threat_detected analysis); cbn [negb].
      + rewrite Z.geb_le. split; [intros H; repeat split; lia | intros (_ & _ & H); lia].
      + split; [discriminate | intros (_ & H & _); discriminate].
    - split; [discriminate | intros (H & _); discriminate]. }
  split; [exact G|]. split.
  - intros ip url hooks minimum analysis. rewrite G. cbn. tauto.
  - intros ip url hooks analysis. split; intros H.
    + destruct (Notify.should_notify _ analysis) eqn:E; [|reflexivity].
      apply G in E. destruct E as (_ & _ & E). rewrite H in E. cbn in E. lia.
    + apply G. cbn. rewrite is_threat_detected_level, H. cbn. repeat split; lia.
Qed.

(** C1, as stated, fails where notifications are switched off (the
    container sets the flag from [enable_mobile_notifications]): a HIGH
    analysis against a minimum of MEDIUM is a detected threat at or above
    the minimum, and [should_notify] is false. *)
Lemma should_notify_disabled_counterexample :
  let self := Sample.service MEDIUM false in
  let analysis := Sample.analysis HIGH "Person forcing the side gate." ["person"] in
  Notify.should_notify self analysis = false /\
  is_threat_detected analysis = true /\
  Spec.ordinal (threat_level analysis) >= Spec.ordinal (Notify.min_threat_level self).
Proof. cbn. repeat split; reflexivity || lia. Qed.

(** ** Substrings *)

Lemma startswith_spec (p s : string) :
  Text.startswith p s = true <-> exists r, s = p ++ r.
Proof.
  revert s. induction p as [|a p IH]; intros s; cbn.
  - split; [intros _; exists s; reflexivity | reflexivity].
  - destruct s as [|b s].
    + split; [discriminate | intros [r H]; discriminate].
    + rewrite andb_true_iff, Ascii.eqb_eq, IH. split.
      * intros [-> [r ->]]. exists r. reflexivity.
      * intros [r H]. injection H as -> ->. split; [reflexivity | exists r; reflexivity].
Qed.

Lemma contains_spec (needle hay : string) :
  Text.contains needle hay = true <-> Spec.occurs_in needle hay.
Proof.
  unfold Spec.occurs_in. induction hay as [|c hay IH]; cbn [Text.contains].
  - rewrite orb_false_r, startswith_spec. split.
    + intros [r H]. exists "", r. exact H.
    + intros (a & b & H). destruct a; [|discriminate]. exists b. exact H.
  - rewrite orb_true_iff, startswith_spec, IH. split.
    + intros [[r H] | (a & b & H)].
      * exists "", r. exact H.
      * exists (String c a), b. cbn. rewrite H. reflexivity.
    + intros (a & b & H). destruct a as [|c' a]; cbn in H.
      * left. exists b. exact H.
      * right. injection H as _ H. exists a, b. exact H.
Qed.

Lemma any_in_spec (phrases : list string) (text : string) :
  Text.any_in phrases (Text.lower text) = true <-> Spec.mentions phrases text.
Proof.
  unfold Text.any_in, Spec.mentions. rewrite existsb_exists.
  split; intros (w & Hin & H); exists w; split; auto; apply contains_spec; exact H.
Qed.

Lemma any_in_false (phrases : list string) (text : string) :
  Text.any_in phrases (Text.lower text) = false <-> ~ Spec.mentions phrases text.
Proof.
  rewrite <- any_in_spec. destruct (Text.any_in phrases (Text.lower text)).
  - split; [discriminate | intros H; contradiction H; reflexivity].
  - split; [intros _ H; discriminate | reflexivity].
Qed.

(** ** The keyword classifier *)

(** C5 (as amended): the fallback classifier answers LOW when the text has
    a no-concern phrase, which is looked for first; otherwise CRITICAL when
    it has a word of the weapon, violence and break-in list; otherwise HIGH
    when it has a word of the suspicious, unauthorized and trespassing list
    and none of the three phrases "no suspicious", "not suspicious" and
    "no unauthorized" anywhere in it; otherwise MEDIUM when it has a word of
    the unusual and loitering list; otherwise LOW.  The text "no security
    concerns detected" gives LOW, and a text with "weapon" and no no-concern
    phrase gives CRITICAL. *)
Theorem fallback_keyword_evaluation_cascade :
  (forall text : string,
      let answer := Services._fallback_keyword_evaluation text in
      let safe := Spec.mentions Services.safe_indicators text in
      let critical := Spec.mentions Services.critical_keywords text in
      let high := Spec.mentions Services.high_keywords text /\
                  ~ Spec.mentions Services.negative_context text in
      let medium := Spec.mentions Services.medium_keywords text in
      (safe -> answer = LOW) /\
      (~ safe -> critical -> answer = CRITICAL) /\
      (~ safe -> ~ critical -> high -> answer = HIGH) /\
      (~ safe -> ~ critical -> ~ high -> medium -> answer = MEDIUM) /\
      (~ safe -> ~ critical -> ~ high -> ~ medium -> answer = LOW)) /\
  Services._fallback_keyword_evaluation "no security concerns detected" = LOW /\
  (forall text : string,
      ~ Spec.mentions Services.safe_indicators text ->
      Spec.occurs_in "weapon" (Text.lower text) ->
      Services._fallback_keyword_evaluation text = CRITICAL).
Proof.
  assert (G : forall text : string,
             let answer := Services._fallback_keyword_evaluation text in
             let safe := Spec.mentions Services.safe_indicators text in
             let critical := Spec.mentions Services.critical_keywords text in
             let high := Spec.mentions Services.high_keywords text /\
                         ~ Spec.mentions Services.negative_context text in
             let medium := Spec.mentions Services.medium_keywords text in
             (safe -> answer = LOW) /\
             (~ safe -> critical -> answer = CRITICAL) /\
             (~ safe -> ~ critical -> high -> answer = HIGH) /\
             (~ safe -> ~ critical -> ~ high -> medium -> answer = MEDIUM) /\
             (~ safe -> ~ critical -> ~ high -> ~ medium -> answer = LOW)).
  { intros text. cbv zeta. unfold Services._fallback_keyword_evaluation.
    destruct (Text.any_in Services.safe_indicators (Text.lower text)) eqn:Es;
      [apply any_in_spec in Es | apply any_in_false in Es].
    { repeat split; intros; tauto. }
    destruct (Text.any_in Services.critical_keywords (Text.lower text)) eqn:Ec;
      [apply any_in_spec in Ec | apply any_in_false in Ec].
    { repeat split; intros; tauto. }
    destruct (Text.any_in Services.high_keywords (Text.lower text)) eqn:Eh;
      [apply any_in_spec in Eh | apply any_in_false in Eh];
      (destruct (Text.any_in Services.negative_context (Text.lower text)) eqn:En;
       [apply any_in_spec in En | apply any_in_false in En]);
      cbn [andb negb];
      (destruct (Text.any_in Services.medium_keywords (Text.lower text)) eqn:Em;
       [apply any_in_spec in Em | apply any_in_false in Em]);
      repeat split; intros; tauto. }
  split; [exact G|]. split; [reflexivity|].
  intros text Hsafe Hweapon.
  apply (G text); [exact Hsafe|].
  exists "weapon". split; [left; reflexivity | exact Hweapon].
Qed.

(** C5, as stated, fails on the negation, both ways.  The classifier does
    not look at what stands near a word: it looks for three phrases, anywhere
    in the text.  In the first text the one word of the list is negated on
    the spot, and the answer is HIGH; so it is in the second, where nobody
    was suspicious.  In the third text the word "trespassing" has no
    negation near it, and the answer is LOW, for a "no unauthorized" that
    stands a sentence away and belongs to another word.  And a text that
    has "weapon" gives LOW when it has a no-concern phrase, which is looked
    for first. *)
Lemma fallback_keyword_evaluation_negation_counterexample :
  let cleared := "No security concerns detected: the object is a tool, not a weapon." in
  let negated := "The visitor is not trespassing." in
  let nobody := "Nobody suspicious was seen." in
  let apart :=
    "No unauthorized vehicle was seen at the gate this morning. "
    ++ "In the evening, long after dark, a man was trespassing behind the garage." in
  Text.contains "weapon" (Text.lower cleared) = true /\
  Services._fallback_keyword_evaluation cleared = LOW /\
  Text.contains "not trespassing" (Text.lower negated) = true /\
  Services._fallback_keyword_evaluation negated = HIGH /\
  Text.contains "nobody suspicious" (Text.lower nobody) = true /\
  Services._fallback_keyword_evaluation nobody = HIGH /\
  Text.contains "trespassing" (Text.lower apart) = true /\
  Text.contains "not trespassing" (Text.lower apart) = false /\
  Text.contains "no trespassing" (Text.lower apart) = false /\
  Text.any_in Services.negative_context (Text.lower apart) = true /\
  Services._fallback_keyword_evaluation apart = LOW.
Proof. vm_compute. repeat split. Qed.

(** Once the third attempt has timed out, the threat classifier answers LOW
    without consulting the keyword classifier; the keyword extractor, in
    the same situation, goes to its fallback. *)
Lemma evaluate_threat_level_after_three_timeouts :
  Services.evaluate_threat_level (fun _ _ => RaisesTimeout) "A man with a weapon."
    = {| Services.returned := LOW; Services.calls := [60; 90; 120] |} /\
  Services._fallback_keyword_evaluation "A man with a weapon." = CRITICAL /\
  Services.extract_keywords (fun _ _ => RaisesTimeout) "A man with a weapon."
    = {| Services.returned := Services._fallback_keyword_extraction "A man with a weapon.";
         Services.calls := [60; 90; 120] |}.
Proof. repeat split; reflexivity. Qed.

(** ** The retry loop of the threat classifier *)

Lemma range_max_retries : Services.range Services.max_retries = [0; 1; 2].
Proof. reflexivity. Qed.

Ltac split_post r :=
  let code := fresh "code" in
  let resp := fresh "resp" in
  let E := fresh "E" in
  destruct r as [code resp | | ];
  [ destruct (code =? 200) eqn:E; destruct resp | | ].

(** C4 (as amended): the threat classifier makes at most three requests,
    with timeouts of 60, 90 and 120 seconds in that order.  An answer of
    200 with a readable reply ends the attempts and gives the level read
    from the reply.  On the first and on the second attempt a timeout, any
    other exception and any other status alike lead to the next attempt.
    When the third attempt ends in an exception that is not a timeout, the
    level is the keyword classifier's.  No exception reaches the caller:
    the function is total. *)
Theorem evaluate_threat_level_retry_policy
    (post : Z -> Z -> PostResult) (analysis_text : string) :
  let out := Services.evaluate_threat_level post analysis_text in
  let first := post 0 60 in
  let second := post 1 90 in
  let third := post 2 120 in
  (Services.calls out = [60] \/ Services.calls out = [60; 90]
   \/ Services.calls out = [60; 90; 120]) /\
  (forall reply, Spec.usable_reply first = Some reply ->
     Services.calls out = [60] /\
     Services.returned out = Services.threat_of_reply reply) /\
  (Spec.usable_reply first = None ->
   forall reply, Spec.usable_reply second = Some reply ->
     Services.calls out = [60; 90] /\
     Services.returned out = Services.threat_of_reply reply) /\
  (Spec.usable_reply first = None -> Spec.usable_reply second = None ->
     Services.calls out = [60; 90; 120]) /\
  (Spec.usable_reply first = None -> Spec.usable_reply second = None ->
   forall reply, Spec.usable_reply third = Some reply ->
     Services.returned out = Services.threat_of_reply reply) /\
  (Spec.usable_reply first = None -> Spec.usable_reply second = None ->
   Spec.fails_with_error third = true ->
     Services.returned out = Services._fallback_keyword_evaluation analysis_text).
Proof.
  cbv zeta. unfold Services.evaluate_threat_level.
  rewrite range_max_retries.
  cbn [Services.retry_loop]. unfold Services.retry_step, Services.max_retries.
  change (60 + 0 * 30) with 60. change (60 + 1 * 30) with 90.
  change (60 + 2 * 30) with 120.
  change (0 =? 3 - 1) with false. change (1 =? 3 - 1) with false.
  change (2 =? 3 - 1) with true.
  split_post (post 0 60); split_post (post 1 90); split_post (post 2 120);
    cbn -[Services.threat_of_reply Services._fallback_keyword_evaluation];
    rewrite ?E, ?E0, ?E1;
    cbn -[Services.threat_of_reply Services._fallback_keyword_evaluation];
    repeat split; auto; intros; try discriminate; try congruence.
Qed.

(** C4, as stated, fails on an error that is not a timeout: the first
    request raises a connection error, and the classifier does not stop
    there; it makes the second request, with a timeout of 90 seconds, and
    returns the level of its reply, not the keyword classifier's. *)
Lemma evaluate_threat_level_retries_after_error :
  let text := "A delivery van parks at the gate." in
  Sample.post_error_then_high 0 60 = RaisesOther /\
  Services.evaluate_threat_level Sample.post_error_then_high text
    = {| Services.returned := HIGH; Services.calls := [60; 90] |} /\
  Services._fallback_keyword_evaluation text = LOW.
Proof. repeat split; reflexivity. Qed.

(** ** The Ollama analyzer *)

Lemma analyze_video_no_frames {Frame : Type} (w : Ollama.World Frame) (clip : VideoClip) :
  Ollama.read_frames w (file_path clip) 30 = [] ->
  Ollama.analyze_video w clip
    = Ollama._create_failed_analysis (Ollama.now w) clip "Failed to extract frames".
Proof. intros H. unfold Ollama.analyze_video. rewrite H. reflexivity. Qed.

(** C3: for a clip from which no frame is extracted, the Ollama analyzer
    returns the failed analysis, with level LOW and confidence 0; its
    keyword list is empty, it does not hold [analysis_failed], which the
    failed analysis of the transformer analyzer does. *)
Theorem analyze_video_zero_frames_keywords :
  let out := Ollama.analyze_video Sample.unreadable Sample.clip in
  Ollama.read_frames Sample.unreadable (file_path Sample.clip) 30 = [] /\
  threat_level out = LOW /\
  confidence out = 0%Q /\
  keywords out = [] /\
  ~ In "analysis_failed" (keywords out) /\
  keywords (Transformer._create_failed_analysis 0 Sample.clip "Failed to extract frames")
    = ["analysis_failed"].
Proof. cbn. repeat split. intros []. Qed.

Lemma append_cons (c : ascii) (s t : string) : String c s ++ t = String c (s ++ t).
Proof. reflexivity. Qed.

Lemma append_nil_r (s : string) : s ++ "" = s.
Proof. induction s as [|c s IH]; [reflexivity|]. rewrite append_cons, IH. reflexivity. Qed.

Lemma append_assoc (a b c : string) : (a ++ b) ++ c = a ++ b ++ c.
Proof.
  induction a as [|x a IH]; [reflexivity|]. rewrite !append_cons, IH. reflexivity.
Qed.

Lemma length_append (a b : string) :
  String.length (a ++ b) = (String.length a + String.length b)%nat.
Proof.
  induction a as [|x a IH]; [reflexivity|]. rewrite append_cons. cbn. rewrite IH.
  reflexivity.
Qed.

Lemma occurs_in_refl (s : string) : Spec.occurs_in s s.
Proof. exists "", "". cbn. symmetry. apply append_nil_r. Qed.

Lemma occurs_in_append (s a b c : string) :
  Spec.occurs_in s b -> Spec.occurs_in s (a ++ b ++ c).
Proof.
  intros (u & v & ->). exists (a ++ u), (v ++ c).
  rewrite !append_assoc. reflexivity.
Qed.

Lemma occurs_in_after (s a b : string) :
  Spec.occurs_in s b -> Spec.occurs_in s (a ++ b).
Proof.
  intros H. rewrite <- (append_nil_r b). apply occurs_in_append. exact H.
Qed.

Lemma occurs_in_length (s t : string) :
  Spec.occurs_in s t -> (String.length s <= String.length t)%nat.
Proof. intros (a & b & ->). rewrite !length_append. lia. Qed.

Lemma occurs_in_join (sep s : string) (parts : list string) :
  (exists part, In part parts /\ Spec.occurs_in s part) ->
  Spec.occurs_in s (Text.join sep parts).
Proof.
  induction parts as [|p parts IH]; intros (part & Hin & Hs); [destruct Hin|].
  destruct parts as [|q parts].
  - destruct Hin as [<- | []]. exact Hs.
  - change (Text.join sep (p :: q :: parts))
      with (p ++ sep ++ Text.join sep (q :: parts)).
    destruct Hin as [<- | Hin].
    + apply (occurs_in_append s "" p). exact Hs.
    + rewrite <- append_assoc, <- (append_nil_r (Text.join sep (q :: parts))).
      apply occurs_in_append. apply IH. exists part. auto.
Qed.

Lemma occurs_in_combine (summary : string) (batch_summaries : list string) :
  In summary batch_summaries ->
  Spec.occurs_in summary (Ollama.combine batch_summaries).
Proof.
  intros Hin. unfold Ollama.combine. apply occurs_in_join.
  apply list_elem_of_In, list_elem_of_lookup in Hin. destruct Hin as [i Hi].
  exists ("Batch " ++ Text.str_of_Z (Z.of_nat i + 1) ++ ": " ++ summary). split.
  - apply list_elem_of_In, elem_of_lookup_imap. exists i, summary. auto.
  - exists ("Batch " ++ Text.str_of_Z (Z.of_nat i + 1) ++ ": "), "".
    rewrite append_nil_r, !append_assoc. reflexivity.
Qed.

(** C9 (as amended): when the consolidation request fails, the Ollama
    analyzer returns a concatenation of all the batch summaries, in order,
    under a heading: after a status other than 200 or an empty reply each
    summary is labelled with its batch number and the summaries are
    separated by blank lines; after an exception they are joined by
    newlines.  Every batch summary, the first included, occurs in the text
    returned, and that text is never the first summary alone.  The function
    is total: nothing is raised past it. *)
Theorem consolidate_analyses_failure_fallback
    (post : string -> PostResult) (batch_summaries : list string) :
  let combined := Ollama.combine batch_summaries in
  let answer := post (Ollama.consolidation_prompt combined) in
  let out := Ollama._consolidate_analyses post batch_summaries in
  let labelled := "Multiple batch summaries:" ++ Text.newline ++ combined in
  let plain :=
    "Batch summaries (consolidation failed):" ++ Text.newline
    ++ Text.join Text.newline batch_summaries in
  (forall code response,
      answer = HttpReply code response -> code <> 200 -> out = labelled) /\
  (forall reply,
      answer = HttpReply 200 (Ok reply) -> Text.strip reply = "" -> out = labelled) /\
  (answer = RaisesTimeout \/ answer = RaisesOther \/ answer = HttpReply 200 Raised ->
      out = plain) /\
  (forall summary,
      In summary batch_summaries ->
      Spec.occurs_in summary labelled /\ Spec.occurs_in summary plain) /\
  (forall first rest,
      batch_summaries = first :: rest -> labelled <> first /\ plain <> first).
Proof.
  cbv zeta. unfold Ollama._consolidate_analyses.
  assert (Hall : forall summary,
             In summary batch_summaries ->
             Spec.occurs_in summary (Ollama.combine batch_summaries) /\
             Spec.occurs_in summary (Text.join Text.newline batch_summaries)).
  { intros summary H. split; [apply occurs_in_combine, H|].
    apply occurs_in_join. exists summary. split; [exact H | apply occurs_in_refl]. }
  split; [|split; [|split; [|split]]]; cycle 4.
  { intros first rest E.
    destruct (Hall first) as [H1 H2]; [rewrite E; left; reflexivity|].
    apply occurs_in_length in H1, H2.
    split; intros Heq; apply (f_equal String.length) in Heq;
      rewrite !length_append in Heq; cbn in Heq; lia. }
  all: repeat split.
  - intros code response -> Hcode.
    destruct (Z.eqb_spec code 200) as [->|_]; [contradiction Hcode|]; reflexivity.
  - intros reply -> ->. reflexivity.
  - intros [-> | [-> | ->]]; reflexivity.
  - do 2 apply occurs_in_after. apply Hall, H.
  - do 2 apply occurs_in_after. apply Hall, H.
Qed.

(** C9, as stated, fails on what is returned: with two batch summaries and
    a consolidation request answered by status 500, the text returned is
    not the first batch's summary but the labelled concatenation of both. *)
Lemma consolidate_analyses_not_first_summary :
  let out := Ollama._consolidate_analyses (fun _ => HttpReply 500 Raised) Sample.summaries in
  out <> "One person walks to the gate." /\
  out = "Multiple batch summaries:" ++ Text.newline
        ++ "Batch 1: One person walks to the gate." ++ Text.newline ++ Text.newline
        ++ "Batch 2: The person leaves by the road.".
Proof. split; [discriminate | reflexivity]. Qed.

(** ** The monitoring session *)

Lemma mutate_current_active (change : MonitoringSession -> MonitoringSession)
    (st : UseCases.SessionState) (r : UseCases.ref) (s : MonitoringSession) :
  UseCases.current_session st = Some r ->
  UseCases.heap st !! r = Some s ->
  UseCases.heap (UseCases.mutate_current change st) !! r = Some (change s) /\
  UseCases.current_session (UseCases.mutate_current change st) = Some r /\
  (forall r', r' <> r ->
     UseCases.heap (UseCases.mutate_current change st) !! r' = UseCases.heap st !! r').
Proof.
  intros Hc Hh. unfold UseCases.mutate_current. rewrite Hc, Hh. cbn.
  split; [apply lookup_insert_eq|]. split; [reflexivity|].
  intros r' Hne. apply lookup_insert_ne. congruence.
Qed.

Lemma mutate_current_idle (change : MonitoringSession -> MonitoringSession)
    (st : UseCases.SessionState) :
  UseCases.current_session st = None -> UseCases.mutate_current change st = st.
Proof. intros Hc. unfold UseCases.mutate_current. rewrite Hc. reflexivity. Qed.

(** C10: with no current session, [add_detection_to_session],
    [add_clip_to_session] and [add_analysis_to_session] leave the whole
    state as it is, the session objects and the repository included, and
    [end_monitoring_session] returns [None] and leaves the state as it is.
    With a current session, each of the three appends its argument at the
    end of its own list of that session and leaves the other two lists, the
    current session and every other session object unchanged. *)
Theorem session_mutators_frame :
  (forall (st : UseCases.SessionState) detection video_clip analysis now,
      UseCases.current_session st = None ->
      UseCases.add_detection_to_session st detection = st /\
      UseCases.add_clip_to_session st video_clip = st /\
      UseCases.add_analysis_to_session st analysis = st /\
      UseCases.end_monitoring_session st now = (None, st)) /\
  (forall (st : UseCases.SessionState) r s detection video_clip analysis,
      UseCases.current_session st = Some r ->
      UseCases.heap st !! r = Some s ->
      (exists s',
          UseCases.heap (UseCases.add_detection_to_session st detection) !! r = Some s' /\
          detections s' = (detections s ++ [detection])%list /\
          video_clips s' = video_clips s /\
          analyses s' = analyses s) /\
      (exists s',
          UseCases.heap (UseCases.add_clip_to_session st video_clip) !! r = Some s' /\
          detections s' = detections s /\
          video_clips s' = (video_clips s ++ [video_clip])%list /\
          analyses s' = analyses s) /\
      (exists s',
          UseCases.heap (UseCases.add_analysis_to_session st analysis) !! r = Some s' /\
          detections s' = detections s /\
          video_clips s' = video_clips s /\
          analyses s' = (analyses s ++ [analysis])%list) /\
      UseCases.current_session (UseCases.add_detection_to_session st detection) = Some r /\
      UseCases.current_session (UseCases.add_clip_to_session st video_clip) = Some r /\
      UseCases.current_session (UseCases.add_analysis_to_session st analysis) = Some r /\
      (forall r', r' <> r ->
         UseCases.heap (UseCases.add_detection_to_session st detection) !! r'
           = UseCases.heap st !! r' /\
         UseCases.heap (UseCases.add_clip_to_session st video_clip) !! r'
           = UseCases.heap st !! r' /\
         UseCases.heap (UseCases.add_analysis_to_session st analysis) !! r'
           = UseCases.heap st !! r')).
Proof.
  split.
  - intros st detection video_clip analysis now Hc.
    unfold UseCases.add_detection_to_session, UseCases.add_clip_to_session,
      UseCases.add_analysis_to_session, UseCases.end_monitoring_session.
    rewrite !mutate_current_idle by exact Hc. rewrite Hc. auto.
  - intros st r s detection video_clip analysis Hc Hh.
    unfold UseCases.add_detection_to_session, UseCases.add_clip_to_session,
      UseCases.add_analysis_to_session.
    destruct (mutate_current_active (UseCases.append_detection detection) st r s Hc Hh)
      as (Hd & Hdc & Hdo).
    destruct (mutate_current_active (UseCases.append_clip video_clip) st r s Hc Hh)
      as (Hv & Hvc & Hvo).
    destruct (mutate_current_active (UseCases.append_analysis analysis) st r s Hc Hh)
      as (Ha & Hac & Hao).
    repeat split; eauto.
Qed.

(** A session started on a fresh use case is current and holds three empty
    lists; a detection added to it is the one element of its detections. *)
Lemma session_mutators_frame_witness :
  let started :=
    UseCases.start_monitoring_session UseCases.MonitoringSessionUseCase__init__
      0 "20250101_120000" 0 in
  let st := UseCases.add_detection_to_session (snd started) Sample.detection in
  UseCases.current_session (snd started) = Some (fst started) /\
  (detections <$> UseCases.heap st !! fst started) = Some [Sample.detection] /\
  (video_clips <$> UseCases.heap st !! fst started) = Some [] /\
  (analyses <$> UseCases.heap st !! fst started) = Some [].
Proof.
  cbv zeta.
  destruct (proj2 session_mutators_frame
              (snd (UseCases.start_monitoring_session
                      UseCases.MonitoringSessionUseCase__init__ 0 "20250101_120000" 0))
              (fst (UseCases.start_monitoring_session
                      UseCases.MonitoringSessionUseCase__init__ 0 "20250101_120000" 0))
              {| session_id := "session_20250101_120000"; session_start_time := 0;
                 end_time := None; detections := []; video_clips := []; analyses := [];
                 status := IN_PROGRESS |}
              Sample.detection Sample.clip (Sample.analysis LOW "" []))
    as ((s' & Hs & Hd & Hv & Ha) & _).
  - reflexivity.
  - cbn. apply lookup_insert_eq.
  - split; [reflexivity|]. rewrite Hs. cbn. rewrite Hd, Hv, Ha. auto.
Defined.

(** ** The detection gate *)

Ltac process_frame_cases self call :=
  unfold UseCases.process_frame;
  destruct (detections ← UseCases.detect_persons call;
            UseCases.valid_detections (UseCases.is_detection_valid call) detections)
    as [[|? ?]|];
  [ | destruct (UseCases._should_process_detection self (UseCases.now_at_check call));
      [ destruct (UseCases.save_all (UseCases.save_detection_ok call)
                    (UseCases.save_detection_inserts call) _
                    (UseCases.detection_repository self)) as [[[]|] ?] | ] | ];
  cbn [fst snd UseCases.set_last UseCases.last_detection_time
       UseCases.detection_cooldown].

Lemma process_frame_admits (self : UseCases.PersonDetectionUseCase)
    (call : UseCases.FrameCall) :
  fst (UseCases.process_frame self call) <> [] ->
  UseCases._should_process_detection self (UseCases.now_at_check call) = true /\
  UseCases.last_detection_time (snd (UseCases.process_frame self call))
    = Some (UseCases.now_at_stamp call) /\
  (detections ← UseCases.detect_persons call;
   UseCases.valid_detections (UseCases.is_detection_valid call) detections)
    = Ok (fst (UseCases.process_frame self call)).
Proof. process_frame_cases self call; intros H; auto; congruence. Qed.

Lemma process_frame_rejects (self : UseCases.PersonDetectionUseCase)
    (call : UseCases.FrameCall) :
  fst (UseCases.process_frame self call) = [] ->
  UseCases.last_detection_time (snd (UseCases.process_frame self call))
    = UseCases.last_detection_time self.
Proof. process_frame_cases self call; intros H; auto; congruence. Qed.

Lemma process_frame_cooldown_kept (self : UseCases.PersonDetectionUseCase)
    (call : UseCases.FrameCall) :
  UseCases.detection_cooldown (snd (UseCases.process_frame self call))
    = UseCases.detection_cooldown self.
Proof. process_frame_cases self call; reflexivity. Qed.

Lemma process_frames_cons (self : UseCases.PersonDetectionUseCase)
    (call : UseCases.FrameCall) (rest : list UseCases.FrameCall) :
  UseCases.process_frames self (call :: rest)
    = fst (UseCases.process_frame self call)
      :: UseCases.process_frames (snd (UseCases.process_frame self call)) rest.
Proof. cbn. destruct (UseCases.process_frame self call). reflexivity. Qed.

Lemma should_process_same (a b : UseCases.PersonDetectionUseCase) (now : Z) :
  UseCases.last_detection_time a = UseCases.last_detection_time b ->
  UseCases.detection_cooldown a = UseCases.detection_cooldown b ->
  UseCases._should_process_detection a now = UseCases._should_process_detection b now.
Proof. unfold UseCases._should_process_detection. intros -> ->. reflexivity. Qed.

Lemma admitted_at_cons (out : list PersonDetection) outs (k : nat) :
  Spec.admitted_at (out :: outs) (S k) = Spec.admitted_at outs k.
Proof. reflexivity. Qed.

(** The first admission of a run passes the check against the state the run
    started from. *)
Lemma first_admission_checked (calls : list UseCases.FrameCall) :
  forall (self : UseCases.PersonDetectionUseCase) (j : nat) (cj : UseCases.FrameCall),
    calls !! j = Some cj ->
    Spec.admitted_at (UseCases.process_frames self calls) j = true ->
    (forall k, (k < j)%nat ->
       Spec.admitted_at (UseCases.process_frames self calls) k = false) ->
    UseCases._should_process_detection self (UseCases.now_at_check cj) = true.
Proof.
  induction calls as [|c calls IH]; intros self j cj Hj Hadm Hnone; [discriminate|].
  rewrite process_frames_cons in Hadm, Hnone.
  destruct j as [|j].
  - injection Hj as <-. apply process_frame_admits.
    unfold Spec.admitted_at in Hadm. cbn in Hadm.
    destruct (fst (UseCases.process_frame self c)); [discriminate | discriminate].
  - rewrite admitted_at_cons in Hadm. cbn in Hj.
    assert (H0 : fst (UseCases.process_frame self c) = []).
    { specialize (Hnone 0%nat ltac:(lia)). unfold Spec.admitted_at in Hnone.
      cbn in Hnone. destruct (fst (UseCases.process_frame self c)); congruence. }
    rewrite (should_process_same self (snd (UseCases.process_frame self c))).
    + apply (IH _ j cj Hj Hadm). intros k Hk.
      specialize (Hnone (S k) ltac:(lia)). rewrite admitted_at_cons in Hnone. exact Hnone.
    + symmetry. apply process_frame_rejects, H0.
    + symmetry. apply process_frame_cooldown_kept.
Qed.

Lemma consecutive_admissions (calls : list UseCases.FrameCall) :
  forall (self : UseCases.PersonDetectionUseCase) (i j : nat) (ci cj : UseCases.FrameCall),
    (i < j)%nat ->
    calls !! i = Some ci -> calls !! j = Some cj ->
    Spec.admitted_at (UseCases.process_frames self calls) i = true ->
    Spec.admitted_at (UseCases.process_frames self calls) j = true ->
    (forall k, (i < k < j)%nat ->
       Spec.admitted_at (UseCases.process_frames self calls) k = false) ->
    UseCases.now_at_check cj - UseCases.now_at_stamp ci
      >= UseCases.detection_cooldown self.
Proof.
  induction calls as [|c calls IH]; intros self i j ci cj Hij Hi Hj Hai Haj Hnone;
    [discriminate|].
  rewrite process_frames_cons in Hai, Haj, Hnone.
  destruct j as [|j]; [lia|]. rewrite admitted_at_cons in Haj. cbn in Hj.
  destruct i as [|i].
  - injection Hi as <-.
    assert (H0 : fst (UseCases.process_frame self c) <> []).
    { unfold Spec.admitted_at in Hai. cbn in Hai.
      destruct (fst (UseCases.process_frame self c)); [discriminate | congruence]. }
    destruct (process_frame_admits self c H0) as (_ & Hlast & _).
    pose proof (first_admission_checked calls _ j cj Hj Haj) as Hchk.
    unfold UseCases._should_process_detection in Hchk.
    rewrite Hlast, process_frame_cooldown_kept in Hchk.
    assert (Hb : (UseCases.now_at_check cj - UseCases.now_at_stamp c
                  >=? UseCases.detection_cooldown self) = true).
    { apply Hchk. intros k Hk. specialize (Hnone (S k) ltac:(lia)).
      rewrite admitted_at_cons in Hnone. exact Hnone. }
    apply Z.geb_le in Hb. lia.
  - rewrite admitted_at_cons in Hai. cbn in Hi.
    rewrite <- (process_frame_cooldown_kept self c).
    apply (IH _ i j ci cj); auto; [lia|].
    intros k Hk. specialize (Hnone (S k) ltac:(lia)).
    rewrite admitted_at_cons in Hnone. exact Hnone.
Qed.

(** Below [j] and from [i] on, the last position where [p] holds. *)
Lemma last_true_before (p : nat -> bool) (i j : nat) :
  (i < j)%nat -> p i = true ->
  exists m, (i <= m < j)%nat /\ p m = true /\ forall k, (m < k < j)%nat -> p k = false.
Proof.
  intros Hij Hi. induction j as [|j IH]; [lia|].
  destruct (Nat.eq_dec i j) as [->|Hne].
  - exists j. repeat split; auto; lia.
  - destruct IH as (m & Hm & Hpm & Hafter); [lia|].
    destruct (p j) eqn:Hpj.
    + exists j. repeat split; auto; lia.
    + exists m. repeat split; auto; try lia.
      intros k Hk. destruct (Nat.eq_dec k j) as [->|]; [exact Hpj|]. apply Hafter. lia.
Qed.

Lemma should_process_iff (self : UseCases.PersonDetectionUseCase) (now : Z) :
  UseCases._should_process_detection self now = true <->
  UseCases.last_detection_time self = None \/
  exists last, UseCases.last_detection_time self = Some last /\
               now - last >= UseCases.detection_cooldown self.
Proof.
  unfold UseCases._should_process_detection.
  destruct (UseCases.last_detection_time self) as [last|].
  - rewrite Z.geb_le. split.
    + intros H. right. exists last. split; [reflexivity | lia].
    + intros [H | (l & H & Hl)]; [discriminate|]. injection H as <-. lia.
  - split; auto.
Qed.

(** C7: a call of [process_frame] returns its valid detections only when no
    admission has been made yet or the time since the last one is at least
    the cooldown, and it then sets the time of the last admission; a call
    whose list of valid detections is empty, or whose cooldown has not
    elapsed, returns the empty list, and a call that returns the empty list
    leaves the time of the last admission as it was.  Hence, in every
    sequence of calls, the check of an admission is at least the cooldown
    after the stamp of the admission before it, and, the clock being
    monotone, any two admissions are at least the cooldown apart.  The
    cooldown of a new use case is 5 seconds. *)
Theorem detection_gate_cooldown :
  (forall (self : UseCases.PersonDetectionUseCase) (call : UseCases.FrameCall),
      let out := fst (UseCases.process_frame self call) in
      let after := snd (UseCases.process_frame self call) in
      let valid :=
        detections ← UseCases.detect_persons call;
        UseCases.valid_detections (UseCases.is_detection_valid call) detections in
      (out <> [] ->
         (UseCases.last_detection_time self = None \/
          exists last, UseCases.last_detection_time self = Some last /\
                       UseCases.now_at_check call - last
                         >= UseCases.detection_cooldown self) /\
         UseCases.last_detection_time after = Some (UseCases.now_at_stamp call) /\
         valid = Ok out) /\
      (valid = Ok [] -> out = []) /\
      ((exists last, UseCases.last_detection_time self = Some last /\
                     UseCases.now_at_check call - last
                       < UseCases.detection_cooldown self) -> out = []) /\
      (out = [] ->
         UseCases.last_detection_time after = UseCases.last_detection_time self)) /\
  (forall (self : UseCases.PersonDetectionUseCase) (calls : list UseCases.FrameCall)
          (i j : nat) (ci cj : UseCases.FrameCall),
      (i < j)%nat -> calls !! i = Some ci -> calls !! j = Some cj ->
      Spec.admitted_at (UseCases.process_frames self calls) i = true ->
      Spec.admitted_at (UseCases.process_frames self calls) j = true ->
      (forall k, (i < k < j)%nat ->
         Spec.admitted_at (UseCases.process_frames self calls) k = false) ->
      UseCases.now_at_check cj - UseCases.now_at_stamp ci
        >= UseCases.detection_cooldown self) /\
  (forall (self : UseCases.PersonDetectionUseCase) (calls : list UseCases.FrameCall)
          (i j : nat) (ci cj : UseCases.FrameCall),
      Spec.clock_monotone calls ->
      (i < j)%nat -> calls !! i = Some ci -> calls !! j = Some cj ->
      Spec.admitted_at (UseCases.process_frames self calls) i = true ->
      Spec.admitted_at (UseCases.process_frames self calls) j = true ->
      UseCases.now_at_check cj - UseCases.now_at_stamp ci
        >= UseCases.detection_cooldown self /\
      UseCases.now_at_stamp cj - UseCases.now_at_stamp ci
        >= UseCases.detection_cooldown self) /\
  UseCases.detection_cooldown UseCases.PersonDetectionUseCase__init__
    = UseCases.seconds 5.
Proof.
  split; [|split; [|split; [|reflexivity]]].
  - intros self call. cbv zeta. split; [|split; [|split]].
    + intros H. destruct (process_frame_admits self call H) as (Hs & Hl & Hv).
      apply should_process_iff in Hs. auto.
    + intros Hv. unfold UseCases.process_frame. rewrite Hv. reflexivity.
    + intros (last & Hl & Hlt).
      destruct (fst (UseCases.process_frame self call)) eqn:E; [reflexivity|].
      assert (Hne : fst (UseCases.process_frame self call) <> []) by congruence.
      destruct (process_frame_admits self call Hne) as (Hs & _).
      apply should_process_iff in Hs. destruct Hs as [Hs | (last' & Hs & Hge)].
      * congruence.
      * assert (last' = last) by congruence. subst last'. lia.
    + apply process_frame_rejects.
  - intros self calls. apply consecutive_admissions.
  - intros self calls i j ci cj [Hwithin Hacross] Hij Hi Hj Hai Haj.
    destruct (last_true_before
                (Spec.admitted_at (UseCases.process_frames self calls)) i j Hij Hai)
      as (m & Hm & Ham & Hnone).
    assert (Hcm : exists cm, calls !! m = Some cm).
    { apply lookup_lt_is_Some. apply lookup_lt_Some in Hj. lia. }
    destruct Hcm as [cm Hcm].
    pose proof (consecutive_admissions calls self m j cm cj
                  ltac:(lia) Hcm Hj Ham Haj Hnone) as Hgap.
    assert (Hstamp : UseCases.now_at_stamp ci <= UseCases.now_at_stamp cm).
    { destruct (Nat.eq_dec i m) as [->|Hne].
      - assert (ci = cm) by congruence. subst. lia.
      - pose proof (Hacross i m ci cm ltac:(lia) Hi Hcm).
        pose proof (Hwithin m cm Hcm). lia. }
    pose proof (Hwithin j cj Hj). split; lia.
Qed.

(** Three frames with a person in view at 0, 2 and 6 seconds: the first and
    the third are admitted, the second is not, and the third is checked
    more than the cooldown after the first was stamped. *)
Lemma detection_gate_cooldown_witness :
  UseCases.process_frames UseCases.PersonDetectionUseCase__init__ Sample.frames
    = [[Sample.detection]; []; [Sample.detection]] /\
  UseCases.seconds 6 - 10
    >= UseCases.detection_cooldown UseCases.PersonDetectionUseCase__init__.
Proof.
  split; [vm_compute; reflexivity|].
  exact (proj1 (proj2 detection_gate_cooldown)
           UseCases.PersonDetectionUseCase__init__ Sample.frames 0%nat 2%nat
           (Sample.frame_call 0 10)
           (Sample.frame_call (UseCases.seconds 6) (UseCases.seconds 6 + 10))
           ltac:(lia) eq_refl eq_refl eq_refl eq_refl
           ltac:(intros k Hk; assert (k = 1%nat) as -> by lia; reflexivity)).
Defined.

(** ** The alert dispatcher *)

Lemma sent_messages_app (a b : list Notify.Event) :
  Spec.sent_messages (a ++ b) = (Spec.sent_messages a ++ Spec.sent_messages b)%list.
Proof. apply omap_app. Qed.

Lemma send_to_all_events (net : Notify.Network) (port : Z) (message : string)
    (addrs : list string) :
  forall log, exists events,
    Notify.send_to_all net port message addrs log = (log ++ events)%list /\
    Forall (fun e => Spec.is_broadcast_event e = true /\ Spec.succeeds e = false) events /\
    Forall (eq message) (Spec.sent_messages events).
Proof.
  induction addrs as [|addr addrs IH]; intros log; cbn [Notify.send_to_all].
  - exists []. rewrite app_nil_r. repeat split; constructor.
  - destruct (IH (log ++ [Notify.SentTo addr port message
                            (Notify.sendto net log addr port message)])%list)
      as (events & -> & Hall & Hmsg).
    exists (Notify.SentTo addr port message (Notify.sendto net log addr port message)
            :: events).
    rewrite <- app_assoc. repeat split; try (constructor; auto).
Qed.

Lemma broadcast_ports_events (net : Notify.Network) (message : string) (todo : list Z) :
  forall success_count log, exists events,
    Notify.broadcast_ports net message todo success_count log
      = (success_count + Z.of_nat (length (List.filter Spec.succeeds events)),
         (log ++ events)%list) /\
    Forall (fun e => Spec.is_broadcast_event e = true) events /\
    Forall (eq message) (Spec.sent_messages events) /\
    (todo <> [] -> events <> []).
Proof.
  induction todo as [|port todo IH]; intros success_count log;
    cbn [Notify.broadcast_ports].
  - exists []. rewrite app_nil_r, Z.add_0_r. repeat split; try constructor. congruence.
  - destruct (Notify.open_socket net log port).
    + destruct (send_to_all_events net port message (Notify.broadcast_addresses net)
                  (log ++ [Notify.SocketOpened port true])%list)
        as (sent & -> & Hsent & Hmsg).
      destruct (IH (success_count + 1)
                  ((log ++ [Notify.SocketOpened port true]) ++ sent)%list)
        as (events & -> & Hall & Hmsgs & _).
      exists (Notify.SocketOpened port true :: sent ++ events)%list.
      repeat split.
      * f_equal.
        -- cbn [List.filter Spec.succeeds length]. rewrite List.filter_app, length_app.
           assert (Hnone : List.filter Spec.succeeds sent = []).
           { clear -Hsent. induction Hsent as [|e l [_ He] _ IHl]; [reflexivity|].
             cbn. rewrite He. exact IHl. }
           rewrite Hnone. cbn [length]. lia.
        -- rewrite <- !app_assoc. reflexivity.
      * constructor; [reflexivity|]. apply Forall_app. split; [|exact Hall].
        eapply Forall_impl; [exact Hsent | intros e [He _]; exact He].
      * change (Notify.SocketOpened port true :: sent ++ events)%list
          with ([Notify.SocketOpened port true] ++ sent ++ events)%list.
        rewrite !sent_messages_app. apply Forall_app. split; [constructor|].
        apply Forall_app. split; assumption.
      * discriminate.
    + destruct (IH success_count (log ++ [Notify.SocketOpened port false])%list)
        as (events & -> & Hall & Hmsgs & _).
      exists (Notify.SocketOpened port false :: events).
      repeat split.
      * rewrite <- app_assoc. reflexivity.
      * constructor; [reflexivity | exact Hall].
      * exact Hmsgs.
      * discriminate.
Qed.

Lemma positive_count_outcome (events : list Notify.Event) :
  (0 <? 0 + Z.of_nat (length (List.filter Spec.succeeds events))) = Spec.outcome events.
Proof.
  unfold Spec.outcome. induction events as [|e events IH]; [reflexivity|].
  cbn [List.filter existsb]. destruct (Spec.succeeds e); cbn [orb length].
  - apply Z.ltb_lt. lia.
  - exact IH.
Qed.

Lemma webhook_loop_events (net : Notify.Network)
    (payload : list (string * Json.value)) (urls : list string) :
  forall success_count log, exists events,
    Notify.webhook_loop net payload urls success_count log
      = (success_count + Z.of_nat (length (List.filter Spec.succeeds events)),
         (log ++ events)%list) /\
    Forall (fun e => Spec.is_webhook_event e = true) events /\
    (urls <> [] -> events <> []).
Proof.
  induction urls as [|url urls IH]; intros success_count log;
    cbn [Notify.webhook_loop].
  - exists []. rewrite app_nil_r, Z.add_0_r. repeat split; try constructor. congruence.
  - set (answer := Notify.post net log url (Json.JDict payload)).
    set (log' := (log ++ [Notify.Posted Notify.Webhook url (Json.JDict payload) answer])%list).
    assert (Hcase :
              Notify.webhook_loop net payload urls
                (success_count + (if Spec.succeeds
                                       (Notify.Posted Notify.Webhook url
                                          (Json.JDict payload) answer)
                                  then 1 else 0)) log'
              = match answer with
                | Notify.Status code =>
                    if code =? 200
                    then Notify.webhook_loop net payload urls (success_count + 1) log'
                    else Notify.webhook_loop net payload urls success_count log'
                | _ => Notify.webhook_loop net payload urls success_count log'
                end).
    { cbn [Spec.succeeds]. destruct answer as [code| |]; rewrite ?Z.add_0_r; try reflexivity.
      destruct (code =? 200); rewrite ?Z.add_0_r; reflexivity. }
    rewrite <- Hcase. clear Hcase.
    destruct (IH (success_count
                  + (if Spec.succeeds (Notify.Posted Notify.Webhook url
                                         (Json.JDict payload) answer)
                     then 1 else 0)) log') as (events & -> & Hall & _).
    exists (Notify.Posted Notify.Webhook url (Json.JDict payload) answer :: events).
    repeat split.
    + f_equal.
      * cbn [List.filter].
        destruct (Spec.succeeds (Notify.Posted Notify.Webhook url (Json.JDict payload) answer));
          cbn [length]; lia.
      * unfold log'. rewrite <- app_assoc. reflexivity.
    + constructor; [reflexivity | exact Hall].
    + discriminate.
Qed.

Lemma http_notification_events (self : Notify.MobileNotificationService)
    (net : Notify.Network) (payload : list (string * Json.value)) (log : list Notify.Event) :
  exists e,
    Notify._send_http_notification self net payload log
      = (Spec.outcome [e], (log ++ [e])%list) /\
    Spec.is_http_event e = true.
Proof.
  unfold Notify._send_http_notification.
  set (url := default "" (Notify.notification_url self)).
  set (answer := Notify.post net log url (Json.JDict payload)).
  exists (Notify.Posted Notify.Http url (Json.JDict payload) answer).
  split; [|reflexivity]. cbn [Spec.outcome existsb Spec.succeeds]. rewrite orb_false_r.
  destruct answer as [code| |]; try reflexivity.
  destruct (code =? 200); reflexivity.
Qed.

Lemma webhook_notifications_events (self : Notify.MobileNotificationService)
    (net : Notify.Network) (payload : list (string * Json.value)) (log : list Notify.Event) :
  exists events,
    Notify._send_webhook_notifications self net payload log
      = (Spec.outcome events, (log ++ events)%list) /\
    Forall (fun e => Spec.is_webhook_event e = true) events /\
    (Notify.webhook_urls self <> [] -> events <> []).
Proof.
  unfold Notify._send_webhook_notifications.
  destruct (webhook_loop_events net payload (Notify.webhook_urls self) 0 log)
    as (events & -> & Hall & Hne).
  exists events. rewrite positive_count_outcome. auto.
Qed.

(** The payload of the dispatcher has a string for its summary and a list
    for its keywords, so that no slice of it raises. *)
Lemma pipeline_payload_message (self : Notify.MobileNotificationService)
    (rt : Notify.Runtime) (analysis : SecurityAnalysis) (video_path : option string) :
  let payload := Notify._create_broadcast_notification_payload self rt analysis video_path in
  Notify.summary_for_log payload = Ok tt /\
  exists message, Notify.broadcast_message payload = Ok message.
Proof.
  cbv zeta. split; [reflexivity|].
  unfold Notify.broadcast_message.
  destruct (_ <? _)%nat; [|eexists; reflexivity].
  eexists. reflexivity.
Qed.

Lemma broadcast_notification_events (net : Notify.Network)
    (payload : list (string * Json.value)) (message : string) (log : list Notify.Event) :
  Notify.summary_for_log payload = Ok tt ->
  Notify.broadcast_message payload = Ok message ->
  exists events,
    Notify._send_broadcast_notification net payload log
      = (Ok (Spec.outcome events), (log ++ events)%list) /\
    Forall (fun e => Spec.is_broadcast_event e = true) events /\
    Forall (eq message) (Spec.sent_messages events) /\
    events <> [].
Proof.
  intros Hs Hm. unfold Notify._send_broadcast_notification. rewrite Hs, Hm.
  destruct (broadcast_ports_events net message Notify.ports 0 log)
    as (events & -> & Hall & Hmsg & Hne).
  exists events. rewrite positive_count_outcome.
  repeat split; auto; try (apply Hne; discriminate).
Qed.

Lemma outcome_app (a b : list Notify.Event) :
  Spec.outcome (a ++ b) = Spec.outcome a || Spec.outcome b.
Proof. apply existsb_app. Qed.

(** C2: a dispatch that passes the gate tries the broadcast first, then the
    webhooks, then the HTTP endpoint: its events are those of the broadcast,
    followed by those of the webhooks, followed by those of the HTTP POST,
    and the outcome of each channel is what the method of that channel
    returned.  The broadcast is always tried; the webhooks are tried exactly
    when the broadcast did not succeed and there are webhook URLs; the HTTP
    endpoint is tried exactly when neither the broadcast nor any webhook
    succeeded and an endpoint is configured.  The value returned is the
    disjunction of the outcomes of the three channels.  A dispatch that the
    gate rejects tries no channel and returns false. *)
Theorem send_security_alert_channel_order
    (self : Notify.MobileNotificationService) (rt : Notify.Runtime)
    (net : Notify.Network) (analysis : SecurityAnalysis) (video_path : option string) :
  let result := fst (Notify.send_security_alert self rt net analysis video_path []) in
  let log := snd (Notify.send_security_alert self rt net analysis video_path []) in
  let payload := Notify._create_broadcast_notification_payload self rt analysis video_path in
  (Notify.should_notify self analysis = false -> result = false /\ log = []) /\
  (Notify.should_notify self analysis = true ->
   exists broadcast webhooks http,
     log = (broadcast ++ webhooks ++ http)%list /\
     Forall (fun e => Spec.is_broadcast_event e = true) broadcast /\
     Forall (fun e => Spec.is_webhook_event e = true) webhooks /\
     Forall (fun e => Spec.is_http_event e = true) http /\
     Notify._send_broadcast_notification net payload []
       = (Ok (Spec.outcome broadcast), broadcast) /\
     (webhooks <> [] ->
      Notify._send_webhook_notifications self net payload broadcast
        = (Spec.outcome webhooks, (broadcast ++ webhooks)%list)) /\
     (http <> [] ->
      Notify._send_http_notification self net payload (broadcast ++ webhooks)%list
        = (Spec.outcome http, (broadcast ++ webhooks ++ http)%list)) /\
     broadcast <> [] /\
     (webhooks <> [] <->
      Spec.outcome broadcast = false /\ Notify.webhook_urls self <> []) /\
     (http <> [] <->
      Spec.outcome broadcast = false /\ Spec.outcome webhooks = false /\
      Notify.truthy (Notify.notification_url self) = true) /\
     result = Spec.outcome broadcast || Spec.outcome webhooks || Spec.outcome http).
Proof.
  cbv zeta. unfold Notify.send_security_alert.
  destruct (Notify.should_notify self analysis); cbn [negb].
  2: { split; [auto | discriminate]. }
  split; [discriminate|]. intros _.
  set (payload := Notify._create_broadcast_notification_payload self rt analysis video_path).
  destruct (pipeline_payload_message self rt analysis video_path) as (Hs & message & Hm).
  fold payload in Hs, Hm.
  destruct (broadcast_notification_events net payload message [] Hs Hm)
    as (broadcast & -> & Hb & _ & Hbne).
  cbn [app]. exists broadcast.
  destruct (Spec.outcome broadcast) eqn:Eb.
  - (* the broadcast succeeded: nothing else is tried *)
    exists [], [].
    assert (Hrest : (match Notify.webhook_urls self with
                     | [] => (true, broadcast)
                     | _ :: _ => (true, broadcast)
                     end) = (true, broadcast))
      by (destruct (Notify.webhook_urls self); reflexivity).
    cbn [negb]. rewrite Hrest. rewrite andb_false_r. cbn [fst snd].
    rewrite !app_nil_r.
    repeat split; auto; try constructor; try congruence;
      intros H; destruct H; congruence.
  - cbn [negb orb].
    destruct (Notify.webhook_urls self) as [|url urls] eqn:Eurls.
    + (* no webhook is configured *)
      exists []. rewrite andb_true_r.
      destruct (Notify.truthy (Notify.notification_url self)) eqn:Et.
      * rewrite app_nil_r.
        destruct (http_notification_events self net payload broadcast) as (e & -> & He).
        exists [e]. cbn [fst snd app].
        repeat split; auto; try constructor; auto; try congruence.
        intros (_ & H); congruence.
      * exists []. cbn [fst snd]. rewrite !app_nil_r.
        repeat split; auto; try constructor; try congruence.
        -- intros (_ & H); congruence.
        -- intros (_ & _ & H); congruence.
    + destruct (webhook_notifications_events self net payload broadcast)
        as (webhooks & -> & Hw & Hwne).
      exists webhooks.
      assert (Hwne' : webhooks <> []) by (apply Hwne; rewrite Eurls; discriminate).
      destruct (Spec.outcome webhooks) eqn:Ew.
      * exists []. rewrite andb_false_r. cbn [fst snd]. rewrite !app_nil_r.
        repeat split; auto; try constructor; try congruence.
        intros (_ & H & _); congruence.
      * rewrite andb_true_r.
        destruct (Notify.truthy (Notify.notification_url self)) eqn:Et.
        -- destruct (http_notification_events self net payload (broadcast ++ webhooks)%list)
             as (e & -> & He).
           exists [e]. cbn [fst snd]. rewrite <- app_assoc.
           repeat split; auto; try constructor; auto; try congruence.
        -- exists []. cbn [fst snd]. rewrite !app_nil_r.
           repeat split; auto; try constructor; try congruence.
           intros (_ & _ & H); congruence.
Qed.

(** Scenario A of the specification: a HIGH analysis against a minimum of
    MEDIUM, on a network where no socket opens: the four ports are tried,
    then the webhook, which succeeds; the HTTP endpoint is not tried. *)
Example dispatch_scenario_a :
  let analysis := Sample.analysis HIGH "A person is climbing over the side gate." ["person"] in
  let run :=
    Notify.send_security_alert (Sample.service MEDIUM true) Sample.runtime
      Sample.no_broadcast analysis (Some (file_path Sample.clip)) [] in
  fst run = true /\
  map Spec.is_broadcast_event (snd run) = [true; true; true; true; false] /\
  map Spec.is_webhook_event (snd run) = [false; false; false; false; true] /\
  map Spec.is_http_event (snd run) = [false; false; false; false; false] /\
  map Spec.succeeds (snd run) = [false; false; false; false; true].
Proof. vm_compute. repeat split. Qed.

(** Scenario B of the specification: a LOW analysis tries no channel. *)
Example dispatch_scenario_b :
  let analysis := Sample.analysis LOW "Routine surveillance - no security incidents detected." [] in
  Notify.send_security_alert (Sample.service MEDIUM true) Sample.runtime
    Sample.network analysis (Some (file_path Sample.clip)) [] = (false, []).
Proof. reflexivity. Qed.

(** ** The size of the broadcast message *)

Lemma get_compact_payload (payload compact : list (string * Json.value)) :
  Notify.compact_payload payload = Ok compact ->
  map fst compact
    = ["type"; "id"; "timestamp"; "threatLevel"; "confidence"; "summary"; "camera";
       "keywords"; "server_info"] /\
  Json.get compact "id" Json.JNull = Json.get payload "id" Json.JNull /\
  Json.get compact "timestamp" Json.JNull = Json.get payload "timestamp" Json.JNull /\
  Json.get compact "threatLevel" Json.JNull = Json.get payload "threatLevel" Json.JNull /\
  Json.slice_to 100 (Json.get payload "summary" (Json.JStr ""))
    = Ok (Json.get compact "summary" Json.JNull) /\
  Json.slice_to 2 (Json.get payload "keywords" (Json.JList []))
    = Ok (Json.get compact "keywords" Json.JNull).
Proof.
  unfold Notify.compact_payload.
  destruct (Json.slice_to 100 _) as [summary|]; [|discriminate].
  destruct (Json.slice_to 2 _) as [keywords|]; [|discriminate].
  intros H. injection H as <-. repeat split.
Qed.

Lemma length_take (n : nat) (s : string) : (String.length (Text.take n s) <= n)%nat.
Proof.
  revert s. induction n as [|n IH]; intros [|c s]; cbn; try lia.
  specialize (IH s). lia.
Qed.

(** The message that is broadcast is the serialized payload when that is
    at most 1400 bytes long, and then it is within the cap; when the
    serialized payload is longer, the message is the serialization of the
    compact variant.  The compact variant has the fields type, id,
    timestamp, threatLevel, confidence, summary, camera, keywords and
    server_info; its id, timestamp and threat level are the payload's, its
    summary is cut to at most 100 characters and its keyword list to at most
    2 entries.  Every message handed to [sendto] is that message. *)
Theorem broadcast_message_size
    (payload : list (string * Json.value)) (message : string)
    (Hmessage : Notify.broadcast_message payload = Ok message) :
  let full := Json.dumps (Json.JDict payload) in
  ((String.length full <= Notify.cap)%nat ->
     message = full /\ (String.length message <= Notify.cap)%nat) /\
  ((Notify.cap < String.length full)%nat ->
     exists compact,
       Notify.compact_payload payload = Ok compact /\
       message = Json.dumps (Json.JDict compact) /\
       map fst compact
         = ["type"; "id"; "timestamp"; "threatLevel"; "confidence"; "summary"; "camera";
            "keywords"; "server_info"] /\
       Json.get compact "id" Json.JNull = Json.get payload "id" Json.JNull /\
       Json.get compact "timestamp" Json.JNull = Json.get payload "timestamp" Json.JNull /\
       Json.get compact "threatLevel" Json.JNull
         = Json.get payload "threatLevel" Json.JNull /\
       (forall summary,
           Json.get payload "summary" (Json.JStr "") = Json.JStr summary ->
           Json.get compact "summary" Json.JNull = Json.JStr (Text.take 100 summary) /\
           (String.length (Text.take 100 summary) <= 100)%nat) /\
       (forall keywords,
           Json.get payload "keywords" (Json.JList []) = Json.JList keywords ->
           Json.get compact "keywords" Json.JNull = Json.JList (firstn 2 keywords) /\
           (length (firstn 2 keywords) <= 2)%nat)) /\
  (forall net log,
      Notify.summary_for_log payload = Ok tt ->
      exists events,
        snd (Notify._send_broadcast_notification net payload log) = (log ++ events)%list /\
        Forall (eq message) (Spec.sent_messages events)).
Proof.
  cbv zeta. split; [|split].
  - intros Hle. unfold Notify.broadcast_message in Hmessage.
    apply Nat.ltb_ge in Hle. rewrite Hle in Hmessage. injection Hmessage as <-.
    apply Nat.ltb_ge in Hle. auto.
  - intros Hgt. unfold Notify.broadcast_message in Hmessage.
    apply Nat.ltb_lt in Hgt. rewrite Hgt in Hmessage.
    destruct (Notify.compact_payload payload) as [compact|] eqn:Ec; [|discriminate].
    injection Hmessage as <-.
    destruct (get_compact_payload payload compact Ec) as (Hk & Hid & Hts & Hlv & Hsum & Hkw).
    exists compact. repeat split; auto.
    + rewrite H in Hsum. cbn [Json.slice_to] in Hsum. congruence.
    + apply length_take.
    + rewrite H in Hkw. cbn [Json.slice_to] in Hkw. congruence.
    + apply length_firstn_le || (rewrite length_firstn; lia).
  - intros net log Hs.
    destruct (broadcast_notification_events net payload message log Hs Hmessage)
      as (events & -> & _ & Hmsg & _).
    exists events. auto.
Qed.

(** A short payload is broadcast as it is, within the cap. *)
Lemma broadcast_message_size_witness :
  let payload :=
    Notify._create_broadcast_notification_payload (Sample.service MEDIUM true)
      Sample.runtime
      (Sample.analysis HIGH "A person is climbing over the side gate." ["person"; "gate"])
      (Some (file_path Sample.clip)) in
  Notify.broadcast_message payload = Ok (Json.dumps (Json.JDict payload)) /\
  (String.length (Json.dumps (Json.JDict payload)) <= Notify.cap)%nat.
Proof.
  cbv zeta.
  assert (Hm : Notify.broadcast_message
                 (Notify._create_broadcast_notification_payload (Sample.service MEDIUM true)
                    Sample.runtime
                    (Sample.analysis HIGH "A person is climbing over the side gate."
                       ["person"; "gate"])
                    (Some (file_path Sample.clip)))
               = Ok (Json.dumps
                       (Json.JDict
                          (Notify._create_broadcast_notification_payload
                             (Sample.service MEDIUM true) Sample.runtime
                             (Sample.analysis HIGH "A person is climbing over the side gate."
                                ["person"; "gate"])
                             (Some (file_path Sample.clip))))))
    by (vm_compute; reflexivity).
  split; [exact Hm|].
  apply (proj1 (broadcast_message_size _ _ Hm)).
  apply Nat.leb_le. vm_compute. reflexivity.
Defined.

(** C6: the cap is tested for and missed.  For an analysis whose one
    keyword has 1400 characters the serialized payload has 1915 bytes; that
    is over the cap, so the compact variant is built; it keeps the keyword
    whole and is sent without a second look at its size: each of the four
    messages handed to [sendto] has 1689 bytes. *)
Theorem broadcast_message_exceeds_cap :
  let analysis :=
    Sample.analysis HIGH "A person is climbing over the side gate." [Sample.long_keyword] in
  let payload :=
    Notify._create_broadcast_notification_payload (Sample.service MEDIUM true)
      Sample.runtime analysis (Some (file_path Sample.clip)) in
  let run :=
    Notify.send_security_alert (Sample.service MEDIUM true) Sample.runtime
      Sample.network analysis (Some (file_path Sample.clip)) [] in
  Json.encoded_size (Json.JDict payload) = 1915%nat /\
  match Notify.broadcast_message payload with
  | Ok message => String.length message
  | Raised => 0%nat
  end = 1689%nat /\
  fst run = true /\
  map String.length (Spec.sent_messages (snd run)) = [1689; 1689; 1689; 1689]%nat /\
  (Notify.cap < 1689)%nat.
Proof.
  split; [vm_compute; reflexivity|]. split; [vm_compute; reflexivity|].
  split; [vm_compute; reflexivity|]. split; [vm_compute; reflexivity|].
  unfold Notify.cap. lia.
Qed.

(** * Further properties *)

(** ** Case and white space *)

Lemma is_space_lower_char (c : ascii) :
  Text.is_space (Text.lower_char c) = Text.is_space c.
Proof. destruct c as [[] [] [] [] [] [] [] []]; reflexivity. Qed.

Lemma is_space_upper_char (c : ascii) :
  Text.is_space (Text.upper_char c) = Text.is_space c.
Proof. destruct c as [[] [] [] [] [] [] [] []]; reflexivity. Qed.

Lemma lower_char_idem (c : ascii) :
  Text.lower_char (Text.lower_char c) = Text.lower_char c.
Proof. destruct c as [[] [] [] [] [] [] [] []]; reflexivity. Qed.

Section smap_strip.
Variable f : ascii -> ascii.
Hypothesis f_space : forall c, Text.is_space (f c) = Text.is_space c.

Lemma smap_lstrip (s : string) :
  Text.smap f (Text.lstrip s) = Text.lstrip (Text.smap f s).
Proof.
  induction s as [|c s IH]; [reflexivity|].
  cbn [Text.lstrip Text.smap]. rewrite f_space.
  destruct (Text.is_space c); [exact IH | reflexivity].
Qed.

Lemma smap_rstrip (s : string) :
  Text.smap f (Text.rstrip s) = Text.rstrip (Text.smap f s).
Proof.
  induction s as [|c s IH]; [reflexivity|].
  cbn [Text.rstrip Text.smap]. rewrite <- IH, f_space.
  destruct (Text.rstrip s); cbn [Text.smap]; [|reflexivity].
  destruct (Text.is_space c); reflexivity.
Qed.

Lemma smap_strip (s : string) :
  Text.smap f (Text.strip s) = Text.strip (Text.smap f s).
Proof. unfold Text.strip. rewrite smap_rstrip, smap_lstrip. reflexivity. Qed.
End smap_strip.

Lemma rstrip_idem (s : string) : Text.rstrip (Text.rstrip s) = Text.rstrip s.
Proof.
  induction s as [|c s IH]; [reflexivity|].
  cbn [Text.rstrip]. destruct (Text.rstrip s) as [|d r] eqn:E.
  - destruct (Text.is_space c) eqn:Ec; [reflexivity|].
    cbn [Text.rstrip]. rewrite Ec. reflexivity.
  - change (Text.rstrip (String c (String d r))) with
      (match Text.rstrip (String d r) with
       | EmptyString => if Text.is_space c then EmptyString else String c EmptyString
       | r' => String c r'
       end).
    rewrite IH. reflexivity.
Qed.

Lemma lstrip_head (s : string) :
  match Text.lstrip s with
  | EmptyString => True
  | String c _ => Text.is_space c = false
  end.
Proof.
  induction s as [|c s IH]; [exact I|].
  cbn [Text.lstrip]. destruct (Text.is_space c) eqn:E; [exact IH | exact E].
Qed.

Lemma lstrip_rstrip_head (s : string) :
  match s with
  | EmptyString => True
  | String c _ => Text.is_space c = false
  end ->
  Text.lstrip (Text.rstrip s) = Text.rstrip s.
Proof.
  destruct s as [|c s]; [reflexivity|]. intros Hc.
  cbn [Text.rstrip]. rewrite Hc.
  destruct (Text.rstrip s); cbn [Text.lstrip]; rewrite Hc; reflexivity.
Qed.

Lemma strip_idem (s : string) : Text.strip (Text.strip s) = Text.strip s.
Proof.
  unfold Text.strip.
  rewrite (lstrip_rstrip_head (Text.lstrip s) (lstrip_head s)).
  apply rstrip_idem.
Qed.

Lemma lstrip_length (s : string) :
  (String.length (Text.lstrip s) <= String.length s)%nat.
Proof.
  induction s as [|c s IH]; [reflexivity|].
  cbn [Text.lstrip]. destruct (Text.is_space c); cbn [String.length]; lia.
Qed.

Lemma rstrip_length (s : string) :
  (String.length (Text.rstrip s) <= String.length s)%nat.
Proof.
  induction s as [|c s IH]; [reflexivity|].
  cbn [Text.rstrip]. destruct (Text.rstrip s).
  - destruct (Text.is_space c); cbn [String.length]; lia.
  - cbn [String.length] in *. lia.
Qed.

Lemma strip_length (s : string) :
  (String.length (Text.strip s) <= String.length s)%nat.
Proof.
  unfold Text.strip. pose proof (rstrip_length (Text.lstrip s)).
  pose proof (lstrip_length s). lia.
Qed.

Lemma has_char_lstrip (a : ascii) (s : string) :
  Spec.has_char a (Text.lstrip s) -> Spec.has_char a s.
Proof.
  unfold Spec.has_char. induction s as [|c s IH]; [auto|].
  cbn [Text.lstrip]. destruct (Text.is_space c); [|auto].
  intros H. right. apply IH, H.
Qed.

Lemma has_char_rstrip (a : ascii) (s : string) :
  Spec.has_char a (Text.rstrip s) -> Spec.has_char a s.
Proof.
  unfold Spec.has_char. induction s as [|c s IH]; [auto|].
  cbn [Text.rstrip]. destruct (Text.rstrip s) as [|d r].
  - destruct (Text.is_space c); cbn; tauto.
  - cbn [list_ascii_of_string]. intros [H|H]; [left; exact H | right; apply IH, H].
Qed.

Lemma has_char_strip (a : ascii) (s : string) :
  Spec.has_char a (Text.strip s) -> Spec.has_char a s.
Proof. intros H. apply has_char_lstrip, has_char_rstrip, H. Qed.

Lemma has_char_smap (f : ascii -> ascii) (a : ascii) (s : string) :
  Spec.has_char a (Text.smap f s) -> exists c, f c = a /\ Spec.has_char c s.
Proof.
  unfold Spec.has_char. induction s as [|c s IH]; cbn; [tauto|].
  intros [H|H]; [exists c; auto|].
  destruct (IH H) as (c' & Hc & Hin). exists c'. auto.
Qed.

Lemma lower_char_comma (c : ascii) : Text.lower_char c = ","%char -> c = ","%char.
Proof. destruct c as [[] [] [] [] [] [] [] []]; vm_compute; congruence. Qed.

Lemma lower_idem (s : string) : Text.lower (Text.lower s) = Text.lower s.
Proof.
  unfold Text.lower. induction s as [|c s IH]; [reflexivity|].
  cbn [Text.smap]. rewrite lower_char_idem, IH. reflexivity.
Qed.

Lemma split_no_sep (sep : ascii) (s p : string) :
  In p (Text.split sep s) -> ~ Spec.has_char sep p.
Proof.
  unfold Spec.has_char. revert p. induction s as [|c s IH]; intros p.
  - cbn. intros [<-|[]]. cbn. tauto.
  - cbn [Text.split]. destruct (Ascii.eqb c sep) eqn:E.
    + intros [<-|H]; [cbn; tauto | apply IH, H].
    + apply Ascii.eqb_neq in E. destruct (Text.split sep s) as [|w ws].
      * intros [<-|[]]. cbn. intros [H|[]]. congruence.
      * intros [<-|H].
        -- cbn [list_ascii_of_string]. intros [H|H]; [congruence|].
           apply (IH w); [left; reflexivity | exact H].
        -- apply IH. right. exact H.
Qed.

(** ** The keyword extractor *)

Lemma In_firstn_list {A : Type} (n : nat) (l : list A) (a : A) :
  In a (firstn n l) -> In a l.
Proof.
  intros H. rewrite <- (firstn_skipn n l). apply in_or_app. left. exact H.
Qed.

Lemma NoDup_firstn_list {A : Type} (n : nat) (l : list A) :
  List.NoDup l -> List.NoDup (firstn n l).
Proof.
  intros H. rewrite <- (firstn_skipn n l) in H.
  apply List.NoDup_app_remove_r in H. exact H.
Qed.

Lemma sublist_list_filter {A : Type} (p : A -> bool) (l : list A) :
  sublist (List.filter p l) l.
Proof.
  induction l as [|a l IH]; cbn; [constructor|].
  destruct (p a); [apply sublist_skip | apply sublist_cons]; exact IH.
Qed.

Lemma In_firstn_all {A : Type} (n : nat) (l : list A) (a : A) :
  (length (firstn n l) < n)%nat -> In a l -> In a (firstn n l).
Proof.
  intros Hlen Hin. rewrite firstn_all2; [exact Hin|].
  rewrite length_firstn in Hlen. lia.
Qed.

(** X1: the fallback keyword extraction returns at most five keywords,
    without repetition and in the order of its keyword list; each of them
    occurs in the lower-cased text; and when it returns fewer than five,
    every keyword of the list that occurs in the text is among them. *)
Theorem fallback_keyword_extraction_sound (analysis_text : string) :
  let found := Services._fallback_keyword_extraction analysis_text in
  (length found <= 5)%nat /\
  List.NoDup found /\
  sublist found Services.all_keywords /\
  (forall keyword, In keyword found ->
     Spec.occurs_in keyword (Text.lower analysis_text)) /\
  ((length found < 5)%nat ->
   forall keyword, In keyword Services.all_keywords ->
     Spec.occurs_in keyword (Text.lower analysis_text) -> In keyword found).
Proof.
  cbv zeta. unfold Services._fallback_keyword_extraction.
  set (p := fun keyword => Text.contains keyword (Text.lower analysis_text)).
  split; [apply firstn_le_length|]. split.
  { apply NoDup_firstn_list, List.NoDup_filter.
    apply NoDup_ListNoDup.
    apply (bool_decide_unpack (NoDup Services.all_keywords)). vm_compute. reflexivity. }
  split.
  { etransitivity; [apply sublist_take | apply sublist_list_filter]. }
  split.
  - intros keyword H. apply In_firstn_list, filter_In in H.
    apply contains_spec. apply H.
  - intros Hlen keyword Hin Hocc. apply In_firstn_all; [exact Hlen|].
    apply filter_In. split; [exact Hin|]. apply contains_spec, Hocc.
Qed.

(** X2: the keywords read from a reply of the model are at most five; each
    has at least three characters, is in lower case, has no white space
    around it and holds no comma. *)
Theorem keywords_of_reply_shape (reply : string) :
  let found := Services.keywords_of_reply reply in
  (length found <= 5)%nat /\
  (forall keyword, In keyword found ->
     (3 <= String.length keyword)%nat /\
     Text.lower keyword = keyword /\
     Text.strip keyword = keyword /\
     ~ Spec.has_char "," keyword).
Proof.
  cbv zeta. unfold Services.keywords_of_reply.
  split; [apply firstn_le_length|].
  intros keyword H. apply In_firstn_list, filter_In in H. destruct H as [H Hlen].
  apply in_map_iff in H. destruct H as (piece & <- & Hpiece).
  split; [apply Nat.ltb_lt in Hlen; lia|].
  split; [apply lower_idem|]. split.
  - unfold Text.lower. rewrite <- (smap_strip _ is_space_lower_char).
    rewrite strip_idem. reflexivity.
  - intros Hc. apply has_char_smap in Hc. destruct Hc as (c & Hc & Hin).
    apply lower_char_comma in Hc. subst c.
    apply has_char_strip in Hin. revert Hin. apply (split_no_sep _ _ _ Hpiece).
Qed.

(** X3: the keyword extractor makes its requests with timeouts of 60, 90
    and 120 seconds, in that order, and stops at the first answer of status
    200 whose reply can be read: the keywords are those read from that
    reply, also when none is found in it.  When none of the three attempts
    gives such an answer, in whatever way each one failed, all three
    requests are made and the keywords are those of the fallback
    extraction. *)
Theorem extract_keywords_retry_policy
    (post : Z -> Z -> PostResult) (analysis_text : string) :
  let out := Services.extract_keywords post analysis_text in
  let first := post 0 60 in
  let second := post 1 90 in
  let third := post 2 120 in
  (forall reply, Spec.usable_reply first = Some reply ->
     Services.calls out = [60] /\
     Services.returned out = Services.keywords_of_reply reply) /\
  (Spec.usable_reply first = None ->
   forall reply, Spec.usable_reply second = Some reply ->
     Services.calls out = [60; 90] /\
     Services.returned out = Services.keywords_of_reply reply) /\
  (Spec.usable_reply first = None -> Spec.usable_reply second = None ->
   forall reply, Spec.usable_reply third = Some reply ->
     Services.calls out = [60; 90; 120] /\
     Services.returned out = Services.keywords_of_reply reply) /\
  (Spec.usable_reply first = None -> Spec.usable_reply second = None ->
   Spec.usable_reply third = None ->
     Services.calls out = [60; 90; 120] /\
     Services.returned out = Services._fallback_keyword_extraction analysis_text).
Proof.
  cbv zeta. unfold Services.extract_keywords.
  rewrite range_max_retries.
  cbn [Services.retry_loop]. unfold Services.retry_step, Services.max_retries.
  change (60 + 0 * 30) with 60. change (60 + 1 * 30) with 90.
  change (60 + 2 * 30) with 120.
  change (0 =? 3 - 1) with false. change (1 =? 3 - 1) with false.
  change (2 =? 3 - 1) with true.
  split_post (post 0 60); split_post (post 1 90); split_post (post 2 120);
    cbn -[Services.keywords_of_reply Services._fallback_keyword_extraction];
    rewrite ?E, ?E0, ?E1;
    cbn -[Services.keywords_of_reply Services._fallback_keyword_extraction];
    repeat split; auto; intros; try discriminate; try congruence.
Qed.

(** ** The reading of the model's verdict *)

Lemma startswith_space (w s : string) (c : ascii) :
  Spec.solid w = true -> w <> "" -> Text.is_space c = true ->
  Text.startswith w (String c s) = false.
Proof.
  intros Hw Hne Hc. destruct w as [|a w]; [congruence|].
  cbn [Spec.solid] in Hw. apply andb_true_iff in Hw. destruct Hw as [Ha _].
  cbn [Text.startswith]. destruct (Ascii.eqb a c) eqn:E; [|reflexivity].
  apply Ascii.eqb_eq in E. subst a. rewrite Hc in Ha. discriminate.
Qed.

Lemma contains_lstrip (w s : string) :
  Spec.solid w = true -> w <> "" ->
  Text.contains w (Text.lstrip s) = Text.contains w s.
Proof.
  intros Hw Hne. induction s as [|c s IH]; [reflexivity|].
  cbn [Text.lstrip]. destruct (Text.is_space c) eqn:Hc; [|reflexivity].
  rewrite IH. cbn [Text.contains]. rewrite (startswith_space w s c Hw Hne Hc).
  reflexivity.
Qed.

Lemma rstrip_blank (s : string) :
  exists t, Spec.blank t = true /\ s = Text.rstrip s ++ t.
Proof.
  induction s as [|c s (t & Ht & IH)]; [exists ""; auto|].
  cbn [Text.rstrip]. destruct (Text.rstrip s) as [|d r] eqn:E.
  - destruct (Text.is_space c) eqn:Hc.
    + exists (String c t). cbn [Spec.blank]. rewrite Hc, Ht. split; [reflexivity|].
      rewrite IH at 1. reflexivity.
    + exists t. split; [exact Ht|]. rewrite IH at 1. reflexivity.
  - exists t. split; [exact Ht|]. rewrite IH at 1. reflexivity.
Qed.

Lemma startswith_blank_tail (w m t : string) :
  Spec.solid w = true -> Spec.blank t = true ->
  Text.startswith w (m ++ t) = Text.startswith w m.
Proof.
  intros Hw Ht. revert m. induction w as [|a w IH]; intros m; [reflexivity|].
  destruct m as [|d m].
  - change ("" ++ t) with t. destruct t as [|d t]; [reflexivity|].
    cbn [Spec.blank] in Ht. apply andb_true_iff in Ht. destruct Ht as [Hd _].
    rewrite (startswith_space (String a w) t d Hw); [reflexivity | discriminate | exact Hd].
  - rewrite append_cons. cbn [Text.startswith]. rewrite IH; [reflexivity|].
    cbn [Spec.solid] in Hw. apply andb_true_iff in Hw. apply Hw.
Qed.

Lemma contains_blank (w t : string) :
  Spec.solid w = true -> w <> "" -> Spec.blank t = true ->
  Text.contains w t = false.
Proof.
  intros Hw Hne. induction t as [|d t IH]; intros Ht.
  - destruct w; [congruence | reflexivity].
  - cbn [Spec.blank] in Ht. apply andb_true_iff in Ht. destruct Ht as [Hd Ht].
    cbn [Text.contains]. rewrite (startswith_space w t d Hw Hne Hd), (IH Ht).
    reflexivity.
Qed.

Lemma contains_blank_tail (w m t : string) :
  Spec.solid w = true -> w <> "" -> Spec.blank t = true ->
  Text.contains w (m ++ t) = Text.contains w m.
Proof.
  intros Hw Hne Ht. induction m as [|d m IH].
  - change ("" ++ t) with t. rewrite (contains_blank w t Hw Hne Ht).
    destruct w; [congruence | reflexivity].
  - rewrite append_cons. cbn [Text.contains]. rewrite IH.
    rewrite <- append_cons, (startswith_blank_tail w (String d m) t Hw Ht).
    reflexivity.
Qed.

Lemma contains_rstrip (w s : string) :
  Spec.solid w = true -> w <> "" ->
  Text.contains w (Text.rstrip s) = Text.contains w s.
Proof.
  intros Hw Hne. destruct (rstrip_blank s) as (t & Ht & E).
  rewrite E at 2. symmetry. apply contains_blank_tail; assumption.
Qed.

Lemma contains_upper_strip (w s : string) :
  Spec.solid w = true -> w <> "" ->
  Text.contains w (Text.upper (Text.strip s)) = Text.contains w (Text.upper s).
Proof.
  intros Hw Hne. unfold Text.upper.
  rewrite (smap_strip _ is_space_upper_char). unfold Text.strip.
  rewrite contains_rstrip, contains_lstrip by assumption. reflexivity.
Qed.

(** X4: the level read from the verdict of the model depends only on which
    of the words CRITICAL, HIGH and MEDIUM occur in the verdict put in upper
    case, whatever the white space around it: CRITICAL when CRITICAL occurs;
    otherwise HIGH when HIGH occurs; otherwise MEDIUM when MEDIUM occurs;
    otherwise LOW. *)
Theorem threat_of_reply_cascade (reply : string) :
  let verdict := Text.upper reply in
  (Spec.occurs_in "CRITICAL" verdict -> Services.threat_of_reply reply = CRITICAL) /\
  (~ Spec.occurs_in "CRITICAL" verdict -> Spec.occurs_in "HIGH" verdict ->
     Services.threat_of_reply reply = HIGH) /\
  (~ Spec.occurs_in "CRITICAL" verdict -> ~ Spec.occurs_in "HIGH" verdict ->
   Spec.occurs_in "MEDIUM" verdict -> Services.threat_of_reply reply = MEDIUM) /\
  (~ Spec.occurs_in "CRITICAL" verdict -> ~ Spec.occurs_in "HIGH" verdict ->
   ~ Spec.occurs_in "MEDIUM" verdict -> Services.threat_of_reply reply = LOW).
Proof.
  cbv zeta. unfold Services.threat_of_reply.
  rewrite !contains_upper_strip by (reflexivity || discriminate).
  rewrite <- !contains_spec.
  destruct (Text.contains "CRITICAL" (Text.upper reply)),
           (Text.contains "HIGH" (Text.upper reply)),
           (Text.contains "MEDIUM" (Text.upper reply));
    repeat split; intros; try reflexivity; try congruence;
    exfalso; auto.
Qed.

(** ** The batches of frames *)

Lemma concat_slices {A : Type} (n m : nat) (l : list A) :
  concat (map (fun k => firstn n (skipn (k * n) l)) (seq 0 m)) = firstn (m * n) l.
Proof.
  induction m as [|m IH]; [reflexivity|].
  rewrite seq_S, map_app, concat_app, IH. cbn [map concat Nat.add].
  rewrite app_nil_r, take_take_drop. f_equal. lia.
Qed.

Lemma batch_count (n : nat) :
  let m := ((n + Ollama.batch_size - 1) / Ollama.batch_size)%nat in
  (n <= m * Ollama.batch_size)%nat /\ (forall k, (k < m)%nat -> (k * Ollama.batch_size < n)%nat).
Proof.
  cbv zeta. unfold Ollama.batch_size.
  pose proof (Nat.div_mod_eq (n + 4 - 1) 4) as E.
  pose proof (Nat.mod_upper_bound (n + 4 - 1) 4 ltac:(lia)) as B.
  split; [lia|]. intros k Hk. nia.
Qed.

(** X5: the batches of the encoded frames, put end to end, are the frames
    in their order; for n frames there are n / 4 of them, rounded up; each
    batch has between one and four frames, and each batch but the last has
    four. *)
Theorem frame_batches_partition {A : Type} (frame_data : list A) :
  let batches := Ollama.frame_batches frame_data in
  concat batches = frame_data /\
  length batches = ((length frame_data + 3) / 4)%nat /\
  (forall k batch, batches !! k = Some batch ->
     (1 <= length batch <= 4)%nat /\
     ((S k < length batches)%nat -> length batch = 4%nat)).
Proof.
  cbv zeta. unfold Ollama.frame_batches.
  destruct (batch_count (length frame_data)) as [Hall Hlt]. cbv zeta in Hlt.
  split; [|split].
  - rewrite concat_slices. apply firstn_all2. exact Hall.
  - rewrite length_map, length_seq. unfold Ollama.batch_size. f_equal. lia.
  - intros k batch H. rewrite list_lookup_fmap in H.
    destruct (seq 0 _ !! k) as [j|] eqn:E; [|discriminate].
    apply lookup_seq in E. destruct E as [-> Hk]. cbn in H. injection H as <-.
    specialize (Hlt k Hk). rewrite length_firstn, length_skipn.
    rewrite length_map, length_seq. unfold Ollama.batch_size in *.
    split; [lia|]. intros Hnext.
    pose proof (Nat.div_mod_eq (length frame_data + 4 - 1) 4) as Ed.
    pose proof (Nat.mod_upper_bound (length frame_data + 4 - 1) 4 ltac:(lia)) as B.
    nia.
Qed.

(** ** The analysis of a clip that has frames *)

Lemma calculate_confidence_bounds (analysis_text : string) (keywords : list string) :
  (7 # 10 <= Ollama._calculate_confidence analysis_text keywords)%Q /\
  (Ollama._calculate_confidence analysis_text keywords <= 1)%Q.
Proof.
  unfold Ollama._calculate_confidence. split; [|apply Q.le_min_r].
  apply Q.min_glb; [|discriminate].
  assert (Ha : (0 <= Qmin (Z.of_nat (String.length analysis_text) # 200) (2 # 10))%Q).
  { apply Q.min_glb; [|discriminate]. unfold Qle. cbn. lia. }
  assert (Hb : (0 <= Qmin (Z.of_nat (length keywords) # 5) (1 # 10))%Q).
  { apply Q.min_glb; [|discriminate]. unfold Qle. cbn. lia. }
  rewrite <- (Qplus_0_r (7 # 10)) at 1. rewrite <- Qplus_assoc.
  apply Qplus_le_compat; [apply Qle_refl|].
  rewrite <- (Qplus_0_r 0). apply Qplus_le_compat; assumption.
Qed.

Lemma retry_loop_returned {A : Type} (on_reply : string -> A)
    (post : Z -> Z -> PostResult) (attempts : list Z) (a : A) :
  fst (Services.retry_loop on_reply post attempts) = Services.Returned a ->
  exists reply, a = on_reply reply.
Proof.
  induction attempts as [|attempt rest IH]; cbn [Services.retry_loop]; [discriminate|].
  unfold Services.retry_step.
  destruct (post attempt (60 + attempt * 30)) as [code [text|] | | ];
    repeat match goal with
           | |- context [if ?b then _ else _] => destruct b
           end;
    cbn [fst]; try discriminate;
    try (destruct (Services.retry_loop on_reply post rest); exact IH).
  intros H. injection H as <-. exists text. reflexivity.
Qed.

Lemma extract_keywords_length (post : Z -> Z -> PostResult) (analysis_text : string) :
  (length (Services.returned (Services.extract_keywords post analysis_text)) <= 5)%nat.
Proof.
  unfold Services.extract_keywords.
  pose proof (retry_loop_returned Services.keywords_of_reply post
                (Services.range Services.max_retries)) as R.
  destruct (Services.retry_loop _ _ _) as [[ks| |] made]; cbn [Services.returned].
  - destruct (R ks eq_refl) as [reply ->]. apply firstn_le_length.
  - apply firstn_le_length.
  - apply firstn_le_length.
Qed.

Lemma consolidate_analyses_nonempty (post : string -> PostResult)
    (batch_summaries : list string) :
  Ollama._consolidate_analyses post batch_summaries <> "".
Proof.
  unfold Ollama._consolidate_analyses.
  destruct (post _) as [code [text|] | | ]; try discriminate;
    destruct (code =? 200); try discriminate.
  destruct (String.eqb (Text.strip text) "") eqn:E; [discriminate|].
  apply String.eqb_neq in E. exact E.
Qed.

Lemma frame_batches_nil {A : Type} (frame_data : list A) :
  Ollama.frame_batches frame_data = [] <-> frame_data = [].
Proof.
  split; [|intros ->; reflexivity].
  intros H. apply (f_equal (@length _)) in H.
  unfold Ollama.frame_batches in H. rewrite length_map, length_seq in H.
  destruct frame_data as [|a l]; [reflexivity|]. exfalso.
  cbn [length] in H. unfold Ollama.batch_size in H.
  pose proof (Nat.div_mod_eq (S (length l) + 4 - 1) 4) as E.
  pose proof (Nat.mod_upper_bound (S (length l) + 4 - 1) 4 ltac:(lia)) as B.
  lia.
Qed.

Lemma analyze_frames_individually_some {Frame : Type} (w : Ollama.World Frame)
    (frame_data : list string) :
  frame_data <> [] ->
  exists analysis_text,
    Ollama._analyze_frames_individually w frame_data = Some analysis_text /\
    analysis_text <> "".
Proof.
  intros Hne. unfold Ollama._analyze_frames_individually.
  destruct (Ollama.frame_batches frame_data) as [|batch batches] eqn:E.
  - exact (False_ind _ (Hne (proj1 (frame_batches_nil _) E))).
  - cbn [imap]. eexists. split; [reflexivity|]. apply consolidate_analyses_nonempty.
Qed.

(** X6: when at least one frame of the clip is read and encoded, the
    analysis is never a failed one, whatever the model server answers or
    fails to answer: its text is not empty, its confidence lies between 0.7
    and 1, and it has at most five keywords. *)
Theorem analyze_video_with_frames {Frame : Type} (w : Ollama.World Frame)
    (video_clip : VideoClip) :
  Ollama._frames_to_base64 w (Ollama.read_frames w (file_path video_clip) 30) <> [] ->
  let out := Ollama.analyze_video w video_clip in
  analysis_text out <> "" /\
  (7 # 10 <= confidence out)%Q /\ (confidence out <= 1)%Q /\
  (length (keywords out) <= 5)%nat /\
  out <> Ollama._create_failed_analysis (Ollama.now w) video_clip
           "Failed to get AI analysis after retries" /\
  out <> Ollama._create_failed_analysis (Ollama.now w) video_clip
           "Failed to extract frames".
Proof.
  intros Hne. cbv zeta. unfold Ollama.analyze_video.
  destruct (Ollama.read_frames w (file_path video_clip) 30) as [|frame frames] eqn:Er.
  { contradiction Hne. reflexivity. }
  destruct (analyze_frames_individually_some w _ Hne) as (text & -> & Htext).
  destruct text as [|c text]; [congruence|].
  cbn [analysis_text confidence keywords].
  pose proof (calculate_confidence_bounds (String c text)
                (Services.returned
                   (Services.extract_keywords (Ollama.post_keywords w) (String c text))))
    as [Hlo Hhi].
  split; [discriminate|]. split; [exact Hlo|]. split; [exact Hhi|].
  split; [apply extract_keywords_length|].
  split; intros H; apply (f_equal confidence) in H;
    cbn [confidence Ollama._create_failed_analysis] in H;
    rewrite H in Hlo; apply Hlo; reflexivity.
Qed.

Lemma analyze_video_with_frames_witness :
  let out := Ollama.analyze_video Sample.server_down Sample.clip in
  analysis_text out <> "" /\
  (7 # 10 <= confidence out)%Q /\ (confidence out <= 1)%Q /\
  (length (keywords out) <= 5)%nat /\
  out <> Ollama._create_failed_analysis (Ollama.now Sample.server_down) Sample.clip
           "Failed to get AI analysis after retries" /\
  out <> Ollama._create_failed_analysis (Ollama.now Sample.server_down) Sample.clip
           "Failed to extract frames".
Proof.
  apply (analyze_video_with_frames Sample.server_down Sample.clip). discriminate.
Defined.

(** ** The frames taken from a clip *)

Lemma frame_indices_loop_lookup (budget : nat) (current_frame limit interval : Z)
    (k : nat) (frame_idx : Z) :
  Ollama.frame_indices_loop budget current_frame limit interval !! k = Some frame_idx ->
  (k < budget)%nat /\
  frame_idx = current_frame + Z.of_nat k * interval /\
  frame_idx < limit.
Proof.
  revert current_frame k. induction budget as [|budget IH]; intros current_frame k;
    cbn [Ollama.frame_indices_loop]; [discriminate|].
  destruct (current_frame <? limit) eqn:E; [|discriminate].
  apply Z.ltb_lt in E. destruct k as [|k]; cbn [lookup list_lookup].
  - intros H. injection H as <-. split; [lia|]. split; [lia | exact E].
  - intros H. apply IH in H. destruct H as (Hk & -> & Hlt).
    split; [lia|]. split; [lia | exact Hlt].
Qed.

Lemma frame_indices_loop_complete (budget : nat) (current_frame limit interval : Z)
    (k : nat) :
  (k < budget)%nat ->
  (forall j, (j <= k)%nat -> current_frame + Z.of_nat j * interval < limit) ->
  Ollama.frame_indices_loop budget current_frame limit interval !! k
    = Some (current_frame + Z.of_nat k * interval).
Proof.
  revert current_frame k. induction budget as [|budget IH]; intros current_frame k Hk Hall;
    [lia|].
  cbn [Ollama.frame_indices_loop].
  pose proof (Hall 0%nat ltac:(lia)) as H0.
  replace (current_frame <? limit) with true by (symmetry; apply Z.ltb_lt; lia).
  destruct k as [|k]; cbn [lookup list_lookup]; [f_equal; lia|].
  rewrite IH; [f_equal; lia | lia |].
  intros j Hj. specialize (Hall (S j) ltac:(lia)). lia.
Qed.

Lemma read_indices_from {Frame : Type} (read : Z -> Ollama.ReadResult Frame)
    (indices : list Z) (frame : Frame) :
  In frame (Ollama.read_indices read indices) ->
  exists k frame_idx,
    indices !! k = Some frame_idx /\ read frame_idx = Ollama.ReadFrame frame.
Proof.
  induction indices as [|i rest IH]; cbn [Ollama.read_indices]; [intros []|].
  destruct (read i) eqn:E.
  - intros [<-|H].
    + exists 0%nat, i. split; [reflexivity | exact E].
    + destruct (IH H) as (k & j & Hk & Hr). exists (S k), j. split; assumption.
  - intros H. destruct (IH H) as (k & j & Hk & Hr). exists (S k), j. split; assumption.
  - intros [].
Qed.

Lemma read_indices_length {Frame : Type} (read : Z -> Ollama.ReadResult Frame)
    (indices : list Z) :
  (length (Ollama.read_indices read indices) <= length indices)%nat.
Proof.
  induction indices as [|i rest IH]; cbn [Ollama.read_indices length]; [lia|].
  destruct (read i); cbn [length]; lia.
Qed.

Lemma frame_indices_loop_length (budget : nat) (current_frame limit interval : Z) :
  (length (Ollama.frame_indices_loop budget current_frame limit interval) <= budget)%nat.
Proof.
  revert current_frame. induction budget as [|budget IH]; intros current_frame;
    cbn [Ollama.frame_indices_loop]; [reflexivity|].
  destruct (current_frame <? limit); cbn [length]; [|lia].
  specialize (IH (current_frame + interval)). lia.
Qed.

(** X7: [extract_frames] returns at most [num_frames] frames, and none when
    the clip cannot be opened or has no frame; each frame returned was read
    at the index
    k times the frame interval, for a k below [num_frames], and that index
    is below the number of frames of the clip and below the number of
    frames of 60 seconds. *)
Theorem extract_frames_bounds {Frame : Type} (cap : result (Ollama.Capture Frame))
    (num_frames : Z) :
  let frames := Ollama.extract_frames cap num_frames in
  (Z.of_nat (length frames) <= Z.max 0 num_frames) /\
  (forall frame, In frame frames ->
     exists (c : Ollama.Capture Frame) (k : Z),
       cap = Ok c /\ 0 <= k < num_frames /\
       k * Ollama.frame_interval c < Ollama.total_frames c /\
       k * Ollama.frame_interval c < Ollama.max_duration_frames c /\
       Ollama.read_at c (k * Ollama.frame_interval c) = Ollama.ReadFrame frame) /\
  (cap = Raised -> frames = []) /\
  (forall c, cap = Ok c -> Ollama.total_frames c = 0 -> frames = []).
Proof.
  cbv zeta. unfold Ollama.extract_frames. destruct cap as [c|].
  2:{ split; [cbn; lia|]. split; [intros frame []|]. split; [reflexivity|].
      discriminate. }
  destruct (Ollama.total_frames c =? 0) eqn:Ez.
  { split; [cbn; lia|]. split; [intros frame []|]. split; [discriminate|].
    reflexivity. }
  apply Z.eqb_neq in Ez.
  split; [|split; [|split; [discriminate|];
                    intros c' E Hz; injection E as <-; contradiction]].
  - pose proof (read_indices_length (Ollama.read_at c) (Ollama.frame_indices c num_frames)).
    pose proof (frame_indices_loop_length (Z.to_nat num_frames) 0
                  (Z.min (Ollama.total_frames c) (Ollama.max_duration_frames c))
                  (Ollama.frame_interval c)).
    unfold Ollama.frame_indices in *. lia.
  - intros frame H. apply read_indices_from in H.
    destruct H as (k & frame_idx & Hk & Hr).
    apply frame_indices_loop_lookup in Hk. destruct Hk as (Hk & -> & Hlt).
    exists c, (Z.of_nat k). rewrite Z.add_0_l in Hr, Hlt.
    split; [reflexivity|]. split; [lia|]. split; [lia|]. split; [lia | exact Hr].
Qed.

(** X8: with a positive frame interval, the index at position k is k times
    the interval, for every k below [num_frames] for which that index is
    below the number of frames of the clip and below the number of frames
    of 60 seconds; there is no index at any other position. *)
Theorem frame_indices_every_two_seconds {Frame : Type} (c : Ollama.Capture Frame)
    (num_frames : Z) :
  0 < Ollama.frame_interval c ->
  let limit := Z.min (Ollama.total_frames c) (Ollama.max_duration_frames c) in
  forall k : nat,
    Ollama.frame_indices c num_frames !! k
    = if bool_decide (Z.of_nat k < num_frames /\ Z.of_nat k * Ollama.frame_interval c < limit)
      then Some (Z.of_nat k * Ollama.frame_interval c)
      else None.
Proof.
  intros Hpos limit k. unfold Ollama.frame_indices. fold limit.
  destruct (bool_decide _) eqn:E.
  - apply bool_decide_eq_true in E. destruct E as [Hk Hlt].
    rewrite frame_indices_loop_complete; [f_equal; lia | lia |].
    intros j Hj. nia.
  - apply bool_decide_eq_false in E.
    destruct (Ollama.frame_indices_loop _ _ _ _ !! k) as [i|] eqn:El; [|reflexivity].
    apply frame_indices_loop_lookup in El. destruct El as (Hk & -> & Hlt).
    contradiction E. split; lia.
Qed.

Lemma frame_indices_every_two_seconds_witness :
  Ollama.frame_indices Sample.capture 30 !! 3%nat = Some 180 /\
  Ollama.frame_indices Sample.capture 30 !! 8%nat = None.
Proof.
  split.
  - exact (frame_indices_every_two_seconds Sample.capture 30 ltac:(reflexivity) 3%nat).
  - exact (frame_indices_every_two_seconds Sample.capture 30 ltac:(reflexivity) 8%nat).
Defined.

(** ** The summary line of an alert *)

Lemma replace_from_length (old : string) (skip : nat) (s : string) :
  (String.length (Text.replace_from old "" skip s) <= String.length s)%nat.
Proof.
  revert skip. induction s as [|c s IH]; intros skip; [reflexivity|].
  cbn [Text.replace_from]. destruct skip as [|k].
  - destruct (Text.startswith old (String c s)).
    + change ("" ++ ?x) with x. specialize (IH (String.length old - 1)%nat).
      cbn [String.length]. lia.
    + specialize (IH 0%nat). cbn [String.length]. lia.
  - specialize (IH k). cbn [String.length]. lia.
Qed.

Lemma has_char_replace_from (a : ascii) (old : string) (skip : nat) (s : string) :
  Spec.has_char a (Text.replace_from old "" skip s) -> Spec.has_char a s.
Proof.
  unfold Spec.has_char. revert skip. induction s as [|c s IH]; intros skip; [auto|].
  cbn [Text.replace_from]. destruct skip as [|k].
  - destruct (Text.startswith old (String c s)).
    + change ("" ++ ?x) with x. intros H. right. eapply IH, H.
    + cbn [list_ascii_of_string]. intros [H|H]; [left; exact H | right; eapply IH, H].
  - intros H. right. eapply IH, H.
Qed.

Lemma replace_char_gone (c : ascii) (s : string) :
  ~ Spec.has_char c (Text.replace (String c "") "" s).
Proof.
  unfold Spec.has_char, Text.replace. induction s as [|d s IH]; [intros []|].
  cbn [Text.replace_from Text.startswith String.length Nat.sub].
  destruct (Ascii.eqb c d) eqn:E; cbn [andb].
  - change ("" ++ ?x) with x. exact IH.
  - apply Ascii.eqb_neq in E. cbn [list_ascii_of_string].
    intros [H|H]; [congruence | exact (IH H)].
Qed.

Lemma has_char_take (a : ascii) (n : nat) (s : string) :
  Spec.has_char a (Text.take n s) -> Spec.has_char a s.
Proof.
  unfold Spec.has_char. revert n. induction s as [|c s IH]; intros [|n]; cbn; auto.
  - intros [].
  - intros [H|H]; [left; exact H | right; eapply IH, H].
Qed.

Lemma has_char_append (a : ascii) (s t : string) :
  Spec.has_char a (s ++ t) <-> Spec.has_char a s \/ Spec.has_char a t.
Proof.
  unfold Spec.has_char. induction s as [|c s IH].
  - change ("" ++ t) with t. cbn. tauto.
  - rewrite append_cons. cbn [list_ascii_of_string In]. rewrite IH. tauto.
Qed.

Lemma strip_markup_clean (s : string) :
  (String.length (Notify.strip_markup s) <= String.length s)%nat /\
  ~ Spec.has_char "*" (Notify.strip_markup s) /\
  ~ Spec.has_char "#" (Notify.strip_markup s).
Proof.
  unfold Notify.strip_markup. split; [|split].
  - unfold Text.replace.
    pose proof (replace_from_length "#" 0
                  (Text.replace_from "*" "" 0 (Text.replace_from "**" "" 0 s))).
    pose proof (replace_from_length "*" 0 (Text.replace_from "**" "" 0 s)).
    pose proof (replace_from_length "**" 0 s). lia.
  - intros H. apply has_char_replace_from in H. revert H. apply replace_char_gone.
  - apply replace_char_gone.
Qed.

Lemma cut_clean (a : ascii) (s : string) :
  a <> "."%char -> ~ Spec.has_char a s ->
  ~ Spec.has_char a (if (100 <? String.length s)%nat then Text.take 100 s ++ "..." else s).
Proof.
  intros Ha Hs. destruct (100 <? String.length s)%nat; [|exact Hs].
  rewrite has_char_append. intros [H|H].
  - apply Hs. eapply has_char_take, H.
  - unfold Spec.has_char in H. cbn in H. intuition congruence.
Qed.

Lemma cut_length (s : string) :
  (String.length (if (100 <? String.length s)%nat then Text.take 100 s ++ "..." else s)
   <= 103)%nat.
Proof.
  destruct (100 <? String.length s)%nat eqn:E.
  - rewrite length_append. pose proof (length_take 100 s). cbn [String.length]. lia.
  - apply Nat.ltb_ge in E. lia.
Qed.

Lemma first_long_sentence_shape (sentences : list string) (summary : string) :
  Notify.first_long_sentence sentences = Some summary ->
  (String.length summary <= 103)%nat /\
  ~ Spec.has_char "*" summary /\ ~ Spec.has_char "#" summary.
Proof.
  induction sentences as [|sentence rest IH]; cbn [Notify.first_long_sentence];
    [discriminate|].
  destruct (20 <? String.length (Text.strip sentence))%nat; [|exact IH].
  intros H. injection H as <-.
  destruct (strip_markup_clean (Text.strip sentence)) as (_ & Hstar & Hhash).
  split; [apply cut_length|].
  split; apply cut_clean; (discriminate || assumption).
Qed.

(** X9: the summary line of an alert has at most 103 characters, and holds
    neither an asterisk nor a hash sign, whatever the analysis text. *)
Theorem extract_summary_shape (analysis_text : string) :
  let summary := Notify._extract_summary analysis_text in
  (String.length summary <= 103)%nat /\
  ~ Spec.has_char "*" summary /\
  ~ Spec.has_char "#" summary.
Proof.
  cbv zeta. unfold Notify._extract_summary.
  destruct (String.eqb analysis_text "").
  { unfold Spec.has_char. cbn. split; [lia|]. split; intuition congruence. }
  destruct (_ || _).
  { unfold Spec.has_char. cbn. split; [lia|]. split; intuition congruence. }
  destruct (Notify.first_long_sentence _) as [summary|] eqn:E.
  { exact (first_long_sentence_shape _ _ E). }
  set (text := Text.strip analysis_text).
  destruct (strip_markup_clean
              (if (100 <? String.length text)%nat then Text.take 100 text ++ "..." else text))
    as (Hlen & Hstar & Hhash).
  pose proof (cut_length text). split; [lia|]. split; assumption.
Qed.

(** ** The test notification *)

Lemma test_payload_message (self : Notify.MobileNotificationService) (rt : Notify.Runtime) :
  Notify.summary_for_log (Notify.test_payload self rt) = Ok tt /\
  exists message, Notify.broadcast_message (Notify.test_payload self rt) = Ok message.
Proof.
  split; [reflexivity|]. unfold Notify.broadcast_message.
  destruct (_ <? _)%nat; eexists; reflexivity.
Qed.

(** X10: a test notification tries the broadcast first, then the HTTP
    endpoint, then the webhooks: the HTTP endpoint comes before the
    webhooks, where an alert tries it after them.  The broadcast is always
    tried; the HTTP endpoint is tried exactly when the broadcast did not
    succeed and an endpoint is configured; the webhooks are tried exactly
    when neither succeeded and there are webhook URLs.  The value returned
    is the disjunction of the outcomes of the three channels. *)
Theorem send_test_notification_channel_order
    (self : Notify.MobileNotificationService) (rt : Notify.Runtime) (net : Notify.Network) :
  let result := fst (Notify.send_test_notification self rt net []) in
  let log := snd (Notify.send_test_notification self rt net []) in
  exists broadcast http webhooks,
    log = (broadcast ++ http ++ webhooks)%list /\
    Forall (fun e => Spec.is_broadcast_event e = true) broadcast /\
    Forall (fun e => Spec.is_http_event e = true) http /\
    Forall (fun e => Spec.is_webhook_event e = true) webhooks /\
    broadcast <> [] /\
    (http <> [] <->
     Spec.outcome broadcast = false /\
     Notify.truthy (Notify.notification_url self) = true) /\
    (webhooks <> [] <->
     Spec.outcome broadcast = false /\ Spec.outcome http = false /\
     Notify.webhook_urls self <> []) /\
    result = Spec.outcome broadcast || Spec.outcome http || Spec.outcome webhooks.
Proof.
  cbv zeta. unfold Notify.send_test_notification.
  set (payload := Notify.test_payload self rt).
  destruct (test_payload_message self rt) as (Hs & message & Hm). fold payload in Hs, Hm.
  destruct (broadcast_notification_events net payload message [] Hs Hm)
    as (broadcast & -> & Hb & _ & Hbne).
  cbn [app]. exists broadcast.
  destruct (Spec.outcome broadcast) eqn:Eb; cbn [negb andb orb].
  - exists [], [].
    assert (Hrest : (match Notify.webhook_urls self with
                     | [] => (true, broadcast)
                     | _ :: _ => (true, broadcast)
                     end) = (true, broadcast))
      by (destruct (Notify.webhook_urls self); reflexivity).
    rewrite Hrest. cbn [fst snd]. rewrite !app_nil_r.
    repeat split; auto; try constructor; try congruence;
      intros H; destruct H; congruence.
  - destruct (Notify.truthy (Notify.notification_url self)) eqn:Et.
    + destruct (http_notification_events self net payload broadcast) as (e & -> & He).
      exists [e]. destruct (Spec.outcome [e]) eqn:Eh; cbn [negb orb].
      * exists [].
        assert (Hrest : (match Notify.webhook_urls self with
                         | [] => (true, (broadcast ++ [e])%list)
                         | _ :: _ => (true, (broadcast ++ [e])%list)
                         end) = (true, (broadcast ++ [e])%list))
          by (destruct (Notify.webhook_urls self); reflexivity).
        rewrite Hrest. cbn [fst snd]. rewrite !app_nil_r.
        repeat split; auto; try constructor; auto; try congruence.
        intros (_ & H & _); congruence.
      * destruct (Notify.webhook_urls self) as [|url urls] eqn:Eurls.
        -- exists []. cbn [fst snd]. rewrite !app_nil_r.
           repeat split; auto; try constructor; auto; try congruence.
           intros (_ & _ & H); congruence.
        -- destruct (webhook_notifications_events self net payload (broadcast ++ [e])%list)
             as (webhooks & -> & Hw & Hwne).
           exists webhooks. cbn [fst snd]. rewrite <- app_assoc.
           assert (Hwne' : webhooks <> []) by (apply Hwne; rewrite Eurls; discriminate).
           repeat split; auto; try constructor; auto; try congruence.
    + exists [].
      destruct (Notify.webhook_urls self) as [|url urls] eqn:Eurls.
      * exists []. cbn [fst snd]. rewrite !app_nil_r.
        repeat split; auto; try constructor; try congruence.
        -- intros (_ & H); congruence.
        -- intros (_ & _ & H); congruence.
      * destruct (webhook_notifications_events self net payload broadcast)
          as (webhooks & -> & Hw & Hwne).
        exists webhooks. cbn [fst snd app].
        assert (Hwne' : webhooks <> []) by (apply Hwne; rewrite Eurls; discriminate).
        repeat split; auto; try constructor; try congruence.
        intros (_ & H); congruence.
Qed.

(** ** The datagrams of a broadcast *)

Lemma send_to_all_answers (net : Notify.Network) (port : Z) (message : string)
    (addrs : list string) :
  forall log, exists sends,
    length sends = length addrs /\
    Notify.send_to_all net port message addrs log
    = (log ++ zip_with (fun addr ok => Notify.SentTo addr port message ok) addrs sends)%list.
Proof.
  induction addrs as [|addr addrs IH]; intros log; cbn [Notify.send_to_all].
  - exists []. rewrite app_nil_r. auto.
  - destruct (IH (log ++ [Notify.SentTo addr port message
                            (Notify.sendto net log addr port message)])%list)
      as (sends & Hlen & ->).
    exists (Notify.sendto net log addr port message :: sends).
    cbn [length zip_with]. rewrite <- app_assoc. split; [lia | reflexivity].
Qed.

Lemma broadcast_ports_answers (net : Notify.Network) (message : string) (todo : list Z) :
  forall success_count log, exists answers,
    length answers = length todo /\
    Forall (fun a => fst a = true ->
                     length (snd a) = length (Notify.broadcast_addresses net)) answers /\
    Notify.broadcast_ports net message todo success_count log
    = (success_count + Z.of_nat (length (List.filter fst answers)),
       (log ++ concat (zip_with (Spec.port_events message (Notify.broadcast_addresses net))
                         todo answers))%list).
Proof.
  induction todo as [|port todo IH]; intros success_count log;
    cbn [Notify.broadcast_ports].
  - exists []. rewrite app_nil_r, Z.add_0_r. repeat split. constructor.
  - destruct (Notify.open_socket net log port).
    + destruct (send_to_all_answers net port message (Notify.broadcast_addresses net)
                  (log ++ [Notify.SocketOpened port true])%list) as (sends & Hlen & ->).
      destruct (IH (success_count + 1)
                  ((log ++ [Notify.SocketOpened port true])
                   ++ zip_with (fun addr ok => Notify.SentTo addr port message ok)
                        (Notify.broadcast_addresses net) sends)%list)
        as (answers & Hl & Hall & ->).
      exists ((true, sends) :: answers).
      cbn [length zip_with concat List.filter fst snd Spec.port_events].
      split; [lia|]. split; [constructor; auto|].
      f_equal; [lia|]. rewrite <- !app_assoc. reflexivity.
    + destruct (IH success_count (log ++ [Notify.SocketOpened port false])%list)
        as (answers & Hl & Hall & ->).
      exists ((false, []) :: answers).
      cbn [length zip_with concat List.filter fst snd Spec.port_events].
      split; [lia|]. split; [constructor; [discriminate | exact Hall]|].
      rewrite <- !app_assoc. reflexivity.
Qed.

Lemma positive_count_exists (answers : list (bool * list bool)) :
  (0 <? 0 + Z.of_nat (length (List.filter fst answers))) = existsb fst answers.
Proof.
  induction answers as [|[[] sends] answers IH]; [reflexivity| |exact IH].
  cbn [List.filter existsb fst orb length]. apply Z.ltb_lt. lia.
Qed.

(** X11: a broadcast tries the ports 9999, 9998, 10000 and 8888, in that
    order, whatever happened on the earlier ones.  On a port whose socket
    opens, the message goes to every broadcast address in turn, whether the
    earlier sends went out or not; on a port whose socket does not open,
    nothing is sent.  The broadcast counts as a success exactly when at
    least one socket opened, whether or not any datagram went out. *)
Theorem broadcast_tries_every_port (net : Notify.Network)
    (payload : list (string * Json.value)) (message : string) (log : list Notify.Event) :
  Notify.summary_for_log payload = Ok tt ->
  Notify.broadcast_message payload = Ok message ->
  exists answers : list (bool * list bool),
    length answers = 4%nat /\
    Forall (fun a => fst a = true ->
                     length (snd a) = length (Notify.broadcast_addresses net)) answers /\
    Notify._send_broadcast_notification net payload log
    = (Ok (existsb fst answers),
       (log ++ concat (zip_with (Spec.port_events message (Notify.broadcast_addresses net))
                         [9999; 9998; 10000; 8888] answers))%list).
Proof.
  intros Hs Hm. unfold Notify._send_broadcast_notification. rewrite Hs, Hm.
  destruct (broadcast_ports_answers net message Notify.ports 0 log)
    as (answers & Hl & Hall & ->).
  exists answers. rewrite positive_count_exists. auto.
Qed.

Lemma broadcast_tries_every_port_witness :
  exists answers : list (bool * list bool),
    length answers = 4%nat /\
    Forall (fun a => fst a = true ->
                     length (snd a) = length (Notify.broadcast_addresses Sample.network))
      answers /\
    Notify._send_broadcast_notification Sample.network
      (Notify.test_payload (Sample.service MEDIUM true) Sample.runtime) []
    = (Ok (existsb fst answers),
       ([] ++ concat (zip_with
                        (Spec.port_events
                           (Json.dumps (Json.JDict
                              (Notify.test_payload (Sample.service MEDIUM true)
                                 Sample.runtime)))
                           (Notify.broadcast_addresses Sample.network))
                        [9999; 9998; 10000; 8888] answers))%list).
Proof.
  apply (broadcast_tries_every_port Sample.network
           (Notify.test_payload (Sample.service MEDIUM true) Sample.runtime)); reflexivity.
Defined.

(** ** The size of the compact message *)

Lemma escape_take_length (n : nat) (s : string) :
  (String.length (Json.escape (Text.take n s)) <= String.length (Json.escape s))%nat.
Proof.
  revert n. induction s as [|c s IH]; intros [|n];
    cbn [Text.take Json.escape String.length]; try lia.
  rewrite !length_append. specialize (IH n). lia.
Qed.

Lemma compact_payload_shorter (self : Notify.MobileNotificationService)
    (rt : Notify.Runtime) (analysis : SecurityAnalysis) (video_path : option string) :
  let payload := Notify._create_broadcast_notification_payload self rt analysis video_path in
  exists compact,
    Notify.compact_payload payload = Ok compact /\
    (Json.encoded_size (Json.JDict compact) < Json.encoded_size (Json.JDict payload))%nat.
Proof.
  cbv zeta. eexists. split; [reflexivity|].
  unfold Json.encoded_size, Notify._create_broadcast_notification_payload.
  cbn [Json.get String.eqb Ascii.eqb Bool.eqb Json.slice_to].
  pose proof (escape_take_length 100 (Notify._extract_summary (analysis_text analysis)))
    as Hsum.
  destruct (keywords analysis) as [|k1 [|k2 [|k3 ks]]];
    cbn [firstn map Json.dumps Text.join fst snd];
    unfold Json.encode_string; rewrite !length_append; cbn [String.length]; lia.
Qed.

(** X12: for a payload that the dispatcher builds, the compact variant can
    always be built and its serialization is strictly shorter than that of
    the payload.  So the message that is broadcast is never longer than the
    serialized payload, and it is strictly shorter when the serialized
    payload is longer than 1400 bytes. *)
Theorem compact_message_shorter (self : Notify.MobileNotificationService)
    (rt : Notify.Runtime) (analysis : SecurityAnalysis) (video_path : option string) :
  let payload := Notify._create_broadcast_notification_payload self rt analysis video_path in
  (exists compact,
     Notify.compact_payload payload = Ok compact /\
     (Json.encoded_size (Json.JDict compact) < Json.encoded_size (Json.JDict payload))%nat) /\
  (exists message,
     Notify.broadcast_message payload = Ok message /\
     (String.length message <= Json.encoded_size (Json.JDict payload))%nat /\
     ((Notify.cap < Json.encoded_size (Json.JDict payload))%nat ->
      (String.length message < Json.encoded_size (Json.JDict payload))%nat)).
Proof.
  cbv zeta.
  destruct (compact_payload_shorter self rt analysis video_path) as (compact & Hc & Hlt).
  cbv zeta in Hc, Hlt. split; [exists compact; auto|].
  unfold Notify.broadcast_message. fold (Json.encoded_size
    (Json.JDict (Notify._create_broadcast_notification_payload self rt analysis video_path))).
  destruct (Notify.cap <? _)%nat eqn:E.
  - rewrite Hc. cbn [mbind result_bind]. eexists. split; [reflexivity|].
    unfold Json.encoded_size in *. split; [lia | intros _; exact Hlt].
  - apply Nat.ltb_ge in E. eexists. split; [reflexivity|].
    unfold Json.encoded_size in *. split; [lia | intros H; lia].
Qed.

(** ** The cap on the broadcast message *)








(** ** The notification gate, level by level *)

(** X13: the notification gate is monotone.  A service that lets an
    analysis through lets through every analysis of a level at least as
    high.  Of two services with the same switch, the one with the lower
    minimum lets through all that the other does.  A minimum of LOW lets
    through exactly what a minimum of MEDIUM does. *)
Theorem should_notify_monotone :
  (forall (self : Notify.MobileNotificationService) (a b : SecurityAnalysis),
      Spec.ordinal (threat_level a) <= Spec.ordinal (threat_level b) ->
      Notify.should_notify self a = true -> Notify.should_notify self b = true) /\
  (forall (self other : Notify.MobileNotificationService) (a : SecurityAnalysis),
      Notify.enable_push_notifications other = Notify.enable_push_notifications self ->
      Spec.ordinal (Notify.min_threat_level other)
        <= Spec.ordinal (Notify.min_threat_level self) ->
      Notify.should_notify self a = true -> Notify.should_notify other a = true) /\
  (forall (self other : Notify.MobileNotificationService) (a : SecurityAnalysis),
      Notify.enable_push_notifications other = Notify.enable_push_notifications self ->
      Notify.min_threat_level self = LOW -> Notify.min_threat_level other = MEDIUM ->
      Notify.should_notify self a = Notify.should_notify other a).
Proof.
  unfold Notify.should_notify. split; [|split].
  - intros self a b. rewrite !levels_get_ordinal, !is_threat_detected_level.
    destruct (Notify.enable_push_notifications self); [|auto].
    destruct (threat_level a), (threat_level b), (Notify.min_threat_level self);
      cbn; intros Hle H; try reflexivity; try discriminate; try lia.
  - intros self other a He. rewrite !levels_get_ordinal, He.
    destruct (Notify.enable_push_notifications self); [|auto].
    destruct (is_threat_detected a); [|auto].
    destruct (threat_level a), (Notify.min_threat_level self),
      (Notify.min_threat_level other);
      cbn; intros Hle H; try reflexivity; try discriminate; try lia.
  - intros self other a He Hs Ho.
    rewrite !levels_get_ordinal, !is_threat_detected_level, He, Hs, Ho.
    destruct (Notify.enable_push_notifications self); [|reflexivity].
    destruct (threat_level a); reflexivity.
Qed.

(** ** The life of a monitoring session *)

Lemma fresh_ref_unused (h : gmap UseCases.ref MonitoringSession) :
  h !! fresh (dom h) = None.
Proof. apply not_elem_of_dom, is_fresh. Qed.

Lemma get_active_session_consistent (st : UseCases.SessionState) :
  Spec.session_consistent st ->
  UseCases.get_active_session st = UseCases.get_current_session st.
Proof.
  intros [Hcur _]. unfold UseCases.get_active_session, UseCases.get_current_session.
  destruct (UseCases.current_session st) as [r|].
  - destruct Hcur as (s & Hh & Hst & _ & Hid & -> & ->). rewrite Hh, Hst.
    destruct (session_id s); [congruence | reflexivity].
  - rewrite Hcur. reflexivity.
Qed.

Lemma mutate_current_consistent (change : MonitoringSession -> MonitoringSession)
    (st : UseCases.SessionState) :
  (forall s, session_id (change s) = session_id s /\ status (change s) = status s /\
             end_time (change s) = end_time s) ->
  Spec.session_consistent st ->
  Spec.session_consistent (UseCases.mutate_current change st).
Proof.
  intros Hch Hinv. pose proof Hinv as [Hcur Hothers]. unfold UseCases.mutate_current.
  destruct (UseCases.current_session st) as [r|] eqn:Ec; [|exact Hinv].
  destruct Hcur as (s & Hh & Hst & Hend & Hid & Hact & Hsess). rewrite Hh.
  destruct (Hch s) as (Ei & Es & Ee).
  split; cbn [UseCases.current_session UseCases.heap UseCases.session_repository
              UseCases.update_session UseCases.active_session_id UseCases.sessions].
  - exists (change s). rewrite lookup_insert_eq, Ei, Es, Ee, Hst.
    rewrite bool_decide_eq_false_2 by discriminate.
    rewrite lookup_insert_eq. auto 10.
  - intros r' s' Hr' Hne. apply (Hothers r' s'); [|exact Hne].
    rewrite lookup_insert_ne in Hr' by congruence. exact Hr'.
Qed.

Lemma end_monitoring_session_consistent (st : UseCases.SessionState) (now : Z) :
  Spec.session_consistent st ->
  Spec.session_consistent (snd (UseCases.end_monitoring_session st now)) /\
  UseCases.current_session (snd (UseCases.end_monitoring_session st now)) = None.
Proof.
  intros Hinv. pose proof Hinv as [Hcur Hothers]. unfold UseCases.end_monitoring_session.
  destruct (UseCases.current_session st) as [r|] eqn:Ec.
  2:{ cbn [snd]. split; [exact Hinv | exact Ec]. }
  destruct Hcur as (s & Hh & Hst & Hend & Hid & Hact & Hsess).
  unfold UseCases.mutate_current. rewrite Ec, Hh.
  cbn [snd UseCases.current_session UseCases.heap UseCases.session_repository].
  split; [|reflexivity]. split;
    cbn [UseCases.current_session UseCases.heap UseCases.session_repository
         UseCases.update_session UseCases.active_session_id UseCases.complete status].
  - rewrite bool_decide_eq_true_2 by reflexivity. reflexivity.
  - intros r' s' Hr' _. destruct (decide (r' = r)) as [->|Hne].
    + rewrite lookup_insert_eq in Hr'. injection Hr' as <-. cbn. split; [reflexivity | discriminate].
    + rewrite lookup_insert_ne in Hr' by congruence.
      apply (Hothers r' s' Hr'). congruence.
Qed.

Lemma start_monitoring_session_consistent (st : UseCases.SessionState)
    (now_end : Z) (stamp : string) (now : Z) :
  Spec.session_consistent st ->
  Spec.session_consistent (snd (UseCases.start_monitoring_session st now_end stamp now)).
Proof.
  intros Hinv. unfold UseCases.start_monitoring_session.
  set (st1 := match UseCases.current_session st with
              | Some r => _
              | None => st
              end).
  assert (H1 : Spec.session_consistent st1 /\ UseCases.current_session st1 = None).
  { subst st1. destruct (UseCases.current_session st) as [r|] eqn:Ec; [|auto].
    pose proof Hinv as [Hcur _]. rewrite Ec in Hcur.
    destruct Hcur as (s & Hh & _ & Hend & _). rewrite Hh, Hend.
    apply end_monitoring_session_consistent, Hinv. }
  clearbody st1. destruct H1 as [[Hcur Hothers] Hnone]. cbn [snd].
  split; cbn [UseCases.current_session UseCases.heap UseCases.session_repository
              UseCases.save_session UseCases.active_session_id UseCases.sessions
              session_id status].
  - eexists. rewrite lookup_insert_eq. split; [reflexivity|].
    cbn [status end_time session_id].
    rewrite bool_decide_eq_true_2 by reflexivity. rewrite lookup_insert_eq.
    repeat split. discriminate.
  - intros r' s' Hr' Hne.
    rewrite lookup_insert_ne in Hr' by congruence.
    apply (Hothers r' s' Hr'). rewrite Hnone. discriminate.
Qed.

Lemma session_call_consistent (st : UseCases.SessionState) (call : Spec.SessionCall) :
  Spec.session_consistent st -> Spec.session_consistent (Spec.session_call st call).
Proof.
  intros Hinv. destruct call; cbn [Spec.session_call].
  - apply start_monitoring_session_consistent, Hinv.
  - apply end_monitoring_session_consistent, Hinv.
  - apply mutate_current_consistent; [intros s; auto | exact Hinv].
  - apply mutate_current_consistent; [intros s; auto | exact Hinv].
  - apply mutate_current_consistent; [intros s; auto | exact Hinv].
Qed.

Lemma session_calls_consistent (st : UseCases.SessionState) (calls : list Spec.SessionCall) :
  Spec.session_consistent st -> Spec.session_consistent (Spec.session_calls st calls).
Proof.
  unfold Spec.session_calls. revert st.
  induction calls as [|call calls IH]; intros st Hinv; [exact Hinv|].
  cbn [fold_left]. apply IH, session_call_consistent, Hinv.
Qed.

Lemma session_init_consistent :
  Spec.session_consistent UseCases.MonitoringSessionUseCase__init__.
Proof.
  split; [reflexivity|]. intros r s H.
  change (UseCases.heap UseCases.MonitoringSessionUseCase__init__)
    with (∅ : gmap UseCases.ref MonitoringSession) in H.
  rewrite lookup_empty in H. discriminate.
Qed.

(** X14: after any sequence of calls that start a session, end it, or add
    a detection, a clip or an analysis, made on a fresh use case, the
    active session of the repository is the current session of the use
    case.  The current session is in progress and has no end time; every
    other session is completed and has one. *)
Theorem session_repository_agrees (calls : list Spec.SessionCall) :
  let st := Spec.session_calls UseCases.MonitoringSessionUseCase__init__ calls in
  UseCases.get_active_session st = UseCases.get_current_session st /\
  (forall r s, UseCases.heap st !! r = Some s ->
     (UseCases.get_current_session st = Some r ->
      status s = IN_PROGRESS /\ end_time s = None) /\
     (UseCases.get_current_session st <> Some r ->
      status s = COMPLETED /\ end_time s <> None)).
Proof.
  cbv zeta.
  pose proof (session_calls_consistent _ calls session_init_consistent) as Hinv.
  split; [apply get_active_session_consistent, Hinv|].
  destruct Hinv as [Hcur Hothers]. intros r s Hr. split.
  - unfold UseCases.get_current_session. intros Hc. rewrite Hc in Hcur.
    destruct Hcur as (s' & Hh & Hst & Hend & _). rewrite Hr in Hh. injection Hh as <-. auto.
  - apply (Hothers r s Hr).
Qed.

(** X15: [start_monitoring_session], from any state, makes a session
    object that no reference named before; that object is the current
    session of the use case and the active session of the repository; it is
    in progress, has no end time and three empty lists, and is named after
    the clock.  A current session that was still open is completed with the
    time at which it was ended; every other session object is as it was. *)
Theorem start_monitoring_session_opens (st : UseCases.SessionState)
    (now_end : Z) (stamp : string) (now : Z) :
  let started := UseCases.start_monitoring_session st now_end stamp now in
  UseCases.heap st !! fst started = None /\
  UseCases.get_current_session (snd started) = Some (fst started) /\
  UseCases.get_active_session (snd started) = Some (fst started) /\
  UseCases.heap (snd started) !! fst started
    = Some {| session_id := "session_" ++ stamp; session_start_time := now;
              end_time := None; detections := []; video_clips := []; analyses := [];
              status := IN_PROGRESS |} /\
  (forall r s, UseCases.current_session st = Some r -> UseCases.heap st !! r = Some s ->
     end_time s = None ->
     UseCases.heap (snd started) !! r = Some (UseCases.complete now_end s)) /\
  (forall r, UseCases.current_session st <> Some r -> r <> fst started ->
     UseCases.heap (snd started) !! r = UseCases.heap st !! r).
Proof.
  cbv zeta. unfold UseCases.start_monitoring_session.
  set (st1 := match UseCases.current_session st with
              | Some r => _
              | None => st
              end).
  assert (Hdom : forall r, UseCases.heap st !! r = None -> UseCases.heap st1 !! r = None).
  { intros r Hr. subst st1. destruct (UseCases.current_session st) as [c|] eqn:Ec; [|exact Hr].
    destruct (UseCases.heap st !! c) as [s|] eqn:Eh; [|exact Hr].
    destruct (end_time s); [exact Hr|].
    unfold UseCases.end_monitoring_session, UseCases.mutate_current. rewrite Ec, Eh.
    cbn [snd UseCases.heap]. rewrite lookup_insert_ne; [exact Hr | congruence]. }
  cbn [fst snd UseCases.get_current_session UseCases.current_session UseCases.heap].
  split.
  { destruct (UseCases.heap st !! fresh (dom (UseCases.heap st1))) as [s|] eqn:E;
      [|reflexivity].
    exfalso. pose proof (fresh_ref_unused (UseCases.heap st1)) as Hf.
    subst st1. revert Hf E. destruct (UseCases.current_session st) as [c|] eqn:Ec;
      [|congruence].
    destruct (UseCases.heap st !! c) as [sc|] eqn:Eh; [|congruence].
    destruct (end_time sc); [congruence|].
    unfold UseCases.end_monitoring_session, UseCases.mutate_current. rewrite Ec, Eh.
    cbn [snd UseCases.heap]. intros Hf E.
    destruct (decide (fresh (dom (<[c:=UseCases.complete now_end sc]> (UseCases.heap st))) = c))
      as [Hc|Hc].
    - rewrite Hc, lookup_insert_eq in Hf. discriminate.
    - rewrite lookup_insert_ne in Hf by congruence. congruence. }
  split; [reflexivity|]. split.
  { unfold UseCases.get_active_session.
    cbn [UseCases.session_repository UseCases.save_session UseCases.active_session_id
         UseCases.sessions UseCases.heap session_id status].
    rewrite bool_decide_eq_true_2 by reflexivity.
    rewrite !lookup_insert_eq. cbn [status].
    rewrite bool_decide_eq_true_2 by reflexivity. reflexivity. }
  split; [apply lookup_insert_eq|]. split.
  - intros r s Hc Hh Hend.
    assert (Hr : UseCases.heap st1 !! r = Some (UseCases.complete now_end s)).
    { subst st1. rewrite Hc, Hh, Hend.
      unfold UseCases.end_monitoring_session, UseCases.mutate_current. rewrite Hc, Hh.
      cbn [snd UseCases.heap]. apply lookup_insert_eq. }
    rewrite lookup_insert_ne; [exact Hr|].
    intros E. rewrite <- E, fresh_ref_unused in Hr. discriminate.
  - intros r Hc Hne. rewrite lookup_insert_ne by congruence.
    subst st1. destruct (UseCases.current_session st) as [c|] eqn:Ec; [|reflexivity].
    destruct (UseCases.heap st !! c) as [s|] eqn:Eh; [|reflexivity].
    destruct (end_time s); [reflexivity|].
    unfold UseCases.end_monitoring_session, UseCases.mutate_current. rewrite Ec, Eh.
    cbn [snd UseCases.heap]. apply lookup_insert_ne. congruence.
Qed.

(** X16: [end_monitoring_session], with a current session, returns that
    session, completed and with the clock as its end time, and leaves every
    other session object as it was.  Afterwards the use case has no current
    session and the repository no active one; adding a detection, a clip or
    an analysis changes nothing, and ending again returns [None]. *)
Theorem end_monitoring_session_closes (st : UseCases.SessionState) (now : Z)
    (r : UseCases.ref) (s : MonitoringSession) :
  UseCases.current_session st = Some r ->
  UseCases.heap st !! r = Some s ->
  let ended := UseCases.end_monitoring_session st now in
  fst ended = Some r /\
  UseCases.heap (snd ended) !! r = Some (UseCases.complete now s) /\
  (forall r', r' <> r -> UseCases.heap (snd ended) !! r' = UseCases.heap st !! r') /\
  UseCases.get_current_session (snd ended) = None /\
  UseCases.get_active_session (snd ended) = None /\
  (forall detection video_clip analysis later,
     UseCases.add_detection_to_session (snd ended) detection = snd ended /\
     UseCases.add_clip_to_session (snd ended) video_clip = snd ended /\
     UseCases.add_analysis_to_session (snd ended) analysis = snd ended /\
     UseCases.end_monitoring_session (snd ended) later = (None, snd ended)).
Proof.
  intros Hc Hh. cbv zeta. unfold UseCases.end_monitoring_session.
  rewrite Hc.
  assert (E : UseCases.mutate_current (UseCases.complete now) st
              = {| UseCases.heap := <[r := UseCases.complete now s]> (UseCases.heap st);
                   UseCases.current_session := Some r;
                   UseCases.session_repository :=
                     UseCases.update_session (UseCases.session_repository st) r
                       (UseCases.complete now s) |}).
  { unfold UseCases.mutate_current. rewrite Hc, Hh. reflexivity. }
  rewrite E. clear E.
  cbn [fst snd UseCases.heap UseCases.current_session UseCases.session_repository
       UseCases.get_current_session].
  split; [reflexivity|]. split; [apply lookup_insert_eq|].
  split; [intros r' Hne; apply lookup_insert_ne; congruence|].
  split; [reflexivity|]. split.
  - unfold UseCases.get_active_session.
    cbn [UseCases.session_repository UseCases.update_session UseCases.active_session_id
         UseCases.complete status].
    reflexivity.
  - intros detection video_clip analysis later.
    unfold UseCases.add_detection_to_session, UseCases.add_clip_to_session,
      UseCases.add_analysis_to_session.
    rewrite !mutate_current_idle by reflexivity. auto.
Qed.

Lemma end_monitoring_session_closes_witness :
  let started :=
    UseCases.start_monitoring_session UseCases.MonitoringSessionUseCase__init__
      0 "20250101_120000" 0 in
  let ended := UseCases.end_monitoring_session (snd started) 60000000 in
  fst ended = Some (fst started) /\
  (status <$> UseCases.heap (snd ended) !! fst started) = Some COMPLETED /\
  (end_time <$> UseCases.heap (snd ended) !! fst started) = Some (Some 60000000) /\
  UseCases.get_active_session (snd ended) = None.
Proof.
  cbv zeta.
  destruct (end_monitoring_session_closes
              (snd (UseCases.start_monitoring_session
                      UseCases.MonitoringSessionUseCase__init__ 0 "20250101_120000" 0))
              60000000
              (fst (UseCases.start_monitoring_session
                      UseCases.MonitoringSessionUseCase__init__ 0 "20250101_120000" 0))
              {| session_id := "session_20250101_120000"; session_start_time := 0;
                 end_time := None; detections := []; video_clips := []; analyses := [];
                 status := IN_PROGRESS |})
    as (Hr & Hh & _ & _ & Ha & _).
  - reflexivity.
  - cbn. apply lookup_insert_eq.
  - split; [exact Hr|]. rewrite Hh. cbn. auto.
Defined.

(** ** The detections a frame leaves behind *)

Lemma sublist_list_filter_of {A : Type} (p : A -> bool) (l k : list A) :
  sublist l k -> sublist (List.filter p l) k.
Proof. intros H. etransitivity; [apply sublist_list_filter | exact H]. Qed.

Lemma save_all_stored (ok inserts : PersonDetection -> bool)
    (todo stored : list PersonDetection) :
  exists handed,
    snd (UseCases.save_all ok inserts todo stored)
      = (stored ++ List.filter inserts handed)%list /\
    handed `prefix_of` todo /\
    Forall (fun d => ok d = true) handed /\
    (fst (UseCases.save_all ok inserts todo stored) = Ok tt -> handed = todo).
Proof.
  revert stored. induction todo as [|d todo IH]; intros stored; cbn [UseCases.save_all].
  - exists []. cbn [List.filter]. rewrite app_nil_r.
    repeat split; [apply prefix_nil | constructor].
  - destruct (ok d) eqn:Ed.
    + destruct (IH (Repositories.save_detection (inserts d) stored d))
        as (handed & -> & Hpre & Hok & Hall).
      exists (d :: handed). unfold Repositories.save_detection. cbn [List.filter].
      repeat split.
      * destruct (inserts d); [rewrite <- app_assoc|]; reflexivity.
      * apply prefix_cons, Hpre.
      * constructor; assumption.
      * intros H. rewrite (Hall H). reflexivity.
    + exists []. cbn [List.filter]. rewrite app_nil_r.
      repeat split; [apply prefix_nil | constructor | discriminate].
Qed.

Lemma valid_detections_kept (valid : PersonDetection -> result bool)
    (detections kept : list PersonDetection) :
  UseCases.valid_detections valid detections = Ok kept ->
  sublist kept detections /\ Forall (fun d => valid d = Ok true) kept.
Proof.
  revert kept. induction detections as [|d rest IH]; intros kept;
    cbn [UseCases.valid_detections].
  - intros H. injection H as <-. split; constructor.
  - destruct (valid d) as [keep|] eqn:Ev; [|discriminate].
    destruct (UseCases.valid_detections valid rest) as [kept'|]; [|discriminate].
    cbn. intros H. injection H as <-. destruct (IH kept' eq_refl) as [Hsub Hall].
    destruct keep.
    + split; [apply sublist_skip, Hsub | constructor; assumption].
    + split; [apply sublist_cons, Hsub | exact Hall].
Qed.

Lemma filter_all {A : Type} (p : A -> bool) (l : list A) :
  (forall a, p a = true) -> List.filter p l = l.
Proof.
  intros H. induction l as [|a l IH]; [reflexivity|].
  cbn [List.filter]. rewrite H, IH. reflexivity.
Qed.

Lemma Forall_list_filter {A : Type} (P : A -> Prop) (p : A -> bool) (l : list A) :
  Forall P l -> Forall P (List.filter p l).
Proof.
  induction 1 as [|a l Ha Hl IH]; cbn [List.filter]; [constructor|].
  destruct (p a); [constructor; assumption | exact IH].
Qed.

Lemma Forall_list_filter_true {A : Type} (p : A -> bool) (l : list A) :
  Forall (fun a => p a = true) (List.filter p l).
Proof.
  induction l as [|a l IH]; cbn [List.filter]; [constructor|].
  destruct (p a) eqn:E; [constructor; assumption | exact IH].
Qed.

Ltac nothing_saved :=
  exists []; rewrite app_nil_r; cbn [fst snd];
  repeat split; auto; try discriminate; try congruence; try apply sublist_nil_l.

(** X17: [process_frame] adds rows to the detection repository at its end
    only, in their order, and only for detections that the detector found
    in the frame, that are valid, whose saving returned and was carried
    out.  When it returns detections, the saving of each of them returned,
    and the rows added are those of the returned detections whose saving
    was carried out: all of them when the repository carries out every
    saving that returns, possibly none otherwise.  No row is added unless
    the cooldown test passed, and nothing is returned or added when the
    detector raises. *)
Theorem process_frame_stores (self : UseCases.PersonDetectionUseCase)
    (call : UseCases.FrameCall) :
  let out := fst (UseCases.process_frame self call) in
  let after := snd (UseCases.process_frame self call) in
  exists saved,
    UseCases.detection_repository after
      = (UseCases.detection_repository self ++ saved)%list /\
    (out <> [] ->
     saved = List.filter (UseCases.save_detection_inserts call) out /\
     Forall (fun d => UseCases.save_detection_ok call d = true) out) /\
    ((forall d, UseCases.save_detection_inserts call d = true) ->
     out <> [] -> saved = out) /\
    (saved <> [] ->
     UseCases._should_process_detection self (UseCases.now_at_check call) = true) /\
    (forall detected, UseCases.detect_persons call = Ok detected ->
       sublist out detected /\ sublist saved detected) /\
    (UseCases.detect_persons call = Raised -> out = [] /\ saved = []) /\
    Forall (fun d => UseCases.is_detection_valid call d = Ok true) saved /\
    Forall (fun d => UseCases.save_detection_ok call d = true) saved /\
    Forall (fun d => UseCases.save_detection_inserts call d = true) saved.
Proof.
  cbv zeta. unfold UseCases.process_frame.
  destruct (UseCases.detect_persons call) as [detected|]; cbn [mbind result_bind];
    [|nothing_saved].
  destruct (UseCases.valid_detections _ detected) as [valid|] eqn:Ev; [|nothing_saved].
  apply valid_detections_kept in Ev. destruct Ev as [Hsub Hvalid].
  destruct valid as [|d valid]; [nothing_saved|].
  destruct (UseCases._should_process_detection self (UseCases.now_at_check call));
    [|nothing_saved].
  destruct (save_all_stored (UseCases.save_detection_ok call)
              (UseCases.save_detection_inserts call) (d :: valid)
              (UseCases.detection_repository self)) as (handed & Hs & Hpre & Hok & Hall).
  assert (Hhanded : sublist handed detected).
  { etransitivity; [|exact Hsub]. destruct Hpre as [rest ->].
    apply sublist_inserts_r. reflexivity. }
  assert (Hv : Forall (fun d => UseCases.is_detection_valid call d = Ok true) handed).
  { destruct Hpre as [rest Hrest]. rewrite Hrest in Hvalid.
    apply Forall_app in Hvalid. apply Hvalid. }
  exists (List.filter (UseCases.save_detection_inserts call) handed).
  assert (Hrest :
    (forall detected0, Ok detected = Ok detected0 ->
       sublist (List.filter (UseCases.save_detection_inserts call) handed) detected0) /\
    Forall (fun d => UseCases.is_detection_valid call d = Ok true)
      (List.filter (UseCases.save_detection_inserts call) handed) /\
    Forall (fun d => UseCases.save_detection_ok call d = true)
      (List.filter (UseCases.save_detection_inserts call) handed) /\
    Forall (fun d => UseCases.save_detection_inserts call d = true)
      (List.filter (UseCases.save_detection_inserts call) handed)).
  { split; [intros ? E; injection E as <-; apply sublist_list_filter_of, Hhanded|].
    split; [apply Forall_list_filter, Hv|].
    split; [apply Forall_list_filter, Hok | apply Forall_list_filter_true]. }
  destruct Hrest as (Hsub' & Hv' & Hok' & Hin').
  destruct (UseCases.save_all _ _ _ _) as [[[]|] stored]; cbn [fst snd] in *;
    subst stored; cbn [UseCases.detection_repository UseCases.set_last].
  - rewrite (Hall eq_refl) in *.
    split; [reflexivity|]. split; [intros _; split; [reflexivity | exact Hok]|].
    split; [intros Hevery _; apply filter_all, Hevery|].
    split; [reflexivity|].
    split; [intros detected0 E; split; [injection E as <-; exact Hsub | exact (Hsub' _ E)]|].
    split; [discriminate|]. auto.
  - split; [reflexivity|]. split; [congruence|]. split; [congruence|].
    split; [reflexivity|].
    split; [intros detected0 E; split; [apply sublist_nil_l | exact (Hsub' _ E)]|].
    split; [discriminate|]. auto.
Qed.

(** A frame with the sample person in view, on a repository whose
    [INSERT] fails: the detection is returned, and no row is added. *)
Example process_frame_insert_fails :
  let call :=
    {| UseCases.detect_persons := Ok [Sample.detection];
       UseCases.is_detection_valid :=
         fun d => Ok (PersonDetector.is_detection_valid (1 # 2) d);
       UseCases.save_detection_ok := fun _ => true;
       UseCases.save_detection_inserts := fun _ => false;
       UseCases.now_at_check := 0;
       UseCases.now_at_stamp := 10 |} in
  let run := UseCases.process_frame UseCases.PersonDetectionUseCase__init__ call in
  fst run = [Sample.detection] /\ UseCases.detection_repository (snd run) = [].
Proof. vm_compute. split; reflexivity. Qed.

(** ** The notification service of the container *)

Lemma upper_lower_char (c : ascii) :
  Text.upper_char (Text.lower_char c) = Text.upper_char c.
Proof. destruct c as [[] [] [] [] [] [] [] []]; reflexivity. Qed.

Lemma upper_char_idem (c : ascii) :
  Text.upper_char (Text.upper_char c) = Text.upper_char c.
Proof. destruct c as [[] [] [] [] [] [] [] []]; reflexivity. Qed.

Lemma upper_lower (s : string) : Text.upper (Text.lower s) = Text.upper s.
Proof.
  unfold Text.upper, Text.lower. induction s as [|c s IH]; [reflexivity|].
  cbn [Text.smap]. rewrite upper_lower_char, IH. reflexivity.
Qed.

Lemma upper_idem (s : string) : Text.upper (Text.upper s) = Text.upper s.
Proof.
  unfold Text.upper. induction s as [|c s IH]; [reflexivity|].
  cbn [Text.smap]. rewrite upper_char_idem, IH. reflexivity.
Qed.

(** X18: the minimum level of the notification service is read from the
    setting without regard to case.  A setting that is the name or the
    value of a level, in any case, gives that level; any other setting gives
    MEDIUM. *)
Theorem parse_min_threat_level_names :
  (forall name level,
      Text.upper name = Text.upper (Entities.value level) ->
      Config.parse_min_threat_level name = level) /\
  (forall name,
      (forall level, Text.upper name <> Text.upper (Entities.value level)) ->
      Config.parse_min_threat_level name = MEDIUM) /\
  (forall name,
      Config.parse_min_threat_level (Text.lower name) = Config.parse_min_threat_level name /\
      Config.parse_min_threat_level (Text.upper name) = Config.parse_min_threat_level name).
Proof.
  split; [|split].
  - intros name level H. unfold Config.parse_min_threat_level. rewrite H.
    destruct level; reflexivity.
  - intros name H. unfold Config.parse_min_threat_level, Config.level_by_name.
    destruct (String.eqb_spec (Text.upper name) "LOW") as [E|_];
      [contradiction (H LOW E)|].
    destruct (String.eqb_spec (Text.upper name) "MEDIUM") as [E|_]; [reflexivity|].
    destruct (String.eqb_spec (Text.upper name) "HIGH") as [E|_];
      [contradiction (H HIGH E)|].
    destruct (String.eqb_spec (Text.upper name) "CRITICAL") as [E|_];
      [contradiction (H CRITICAL E) | reflexivity].
  - intros name. unfold Config.parse_min_threat_level.
    rewrite upper_lower, upper_idem. split; reflexivity.
Qed.

Lemma split_without_sep (sep : ascii) (p : string) :
  ~ Spec.has_char sep p -> Text.split sep p = [p].
Proof.
  unfold Spec.has_char. induction p as [|c p IH]; [reflexivity|].
  cbn [list_ascii_of_string In Text.split]. intros H.
  destruct (Ascii.eqb_spec c sep) as [E|_]; [tauto|].
  rewrite IH by tauto. reflexivity.
Qed.

Lemma split_append_sep (sep : ascii) (p rest : string) :
  ~ Spec.has_char sep p ->
  Text.split sep (p ++ String sep rest) = p :: Text.split sep rest.
Proof.
  unfold Spec.has_char. induction p as [|c p IH].
  - intros _. change ("" ++ String sep rest) with (String sep rest).
    cbn [Text.split]. rewrite Ascii.eqb_refl. reflexivity.
  - cbn [list_ascii_of_string In]. intros H. rewrite append_cons.
    cbn [Text.split]. destruct (Ascii.eqb_spec c sep) as [E|_]; [tauto|].
    rewrite IH by tauto. reflexivity.
Qed.

Lemma split_join (sep : ascii) (parts : list string) :
  parts <> [] -> Forall (fun p => ~ Spec.has_char sep p) parts ->
  Text.split sep (Text.join (String sep "") parts) = parts.
Proof.
  intros Hne Hall. induction Hall as [|p parts Hp Hall IH]; [congruence|].
  destruct parts as [|q parts].
  - cbn [Text.join]. apply split_without_sep, Hp.
  - change (Text.join (String sep "") (p :: q :: parts))
      with (p ++ String sep "" ++ Text.join (String sep "") (q :: parts)).
    change (String sep "" ++ ?x) with (String sep x).
    rewrite split_append_sep by exact Hp. rewrite IH by discriminate. reflexivity.
Qed.

(** X19: every webhook URL read from the setting is a piece of the setting
    between two commas, with the white space around it removed; it is not
    empty and holds no comma. *)
Theorem parse_webhook_urls_shape (urls url : string) :
  In url (Config.parse_webhook_urls urls) ->
  url <> "" /\ Text.strip url = url /\ ~ Spec.has_char "," url /\
  exists piece, In piece (Text.split "," urls) /\ url = Text.strip piece.
Proof.
  unfold Config.parse_webhook_urls. destruct (String.eqb urls ""); [intros []|].
  intros H. apply filter_In in H. destruct H as [H Hne].
  apply in_map_iff in H. destruct H as (piece & <- & Hpiece).
  split; [|split; [|split]].
  - intros E. rewrite E in Hne. discriminate.
  - apply strip_idem.
  - intros Hc. apply has_char_strip in Hc. revert Hc. apply (split_no_sep _ _ _ Hpiece).
  - exists piece. auto.
Qed.

Lemma clean_urls_kept (urls : list string) :
  Forall (fun url => url <> "" /\ Text.strip url = url /\ ~ Spec.has_char "," url) urls ->
  List.filter (fun url => negb (String.eqb url "")) (map Text.strip urls) = urls.
Proof.
  induction 1 as [|u us (Hne & Hs & _) Hall IH]; [reflexivity|].
  cbn [map List.filter]. rewrite Hs.
  apply String.eqb_neq in Hne. rewrite Hne. cbn [negb]. f_equal. exact IH.
Qed.

(** X20: URLs that are not empty, have no white space around them and hold
    no comma are read back, in their order, from the setting that joins
    them with commas. *)
Theorem parse_webhook_urls_round_trip (urls : list string) :
  Forall (fun url => url <> "" /\ Text.strip url = url /\ ~ Spec.has_char "," url) urls ->
  Config.parse_webhook_urls (Text.join "," urls) = urls.
Proof.
  intros Hall. unfold Config.parse_webhook_urls.
  destruct urls as [|url urls]; [reflexivity|].
  assert (Hjoin : Text.join "," (url :: urls) <> "").
  { pose proof (Forall_inv Hall) as (Hne & _).
    destruct urls; cbn [Text.join]; [exact Hne|].
    destruct url; [congruence|]. rewrite append_cons. discriminate. }
  apply String.eqb_neq in Hjoin. rewrite Hjoin.
  rewrite split_join; [apply clean_urls_kept, Hall | discriminate |].
  eapply Forall_impl; [exact Hall|]. intros u (_ & _ & H). exact H.
Qed.

Lemma parse_webhook_urls_round_trip_witness :
  Config.parse_webhook_urls "http://192.168.1.30/hook,http://192.168.1.31/hook"
  = ["http://192.168.1.30/hook"; "http://192.168.1.31/hook"].
Proof.
  apply (parse_webhook_urls_round_trip
           ["http://192.168.1.30/hook"; "http://192.168.1.31/hook"]).
  repeat constructor; try discriminate; unfold Spec.has_char; cbn; intuition discriminate.
Defined.

Lemma parse_webhook_urls_shape_witness :
  let url := "http://192.168.1.31/hook" in
  url <> "" /\ Text.strip url = url /\ ~ Spec.has_char "," url /\
  exists piece,
    In piece (Text.split "," "http://192.168.1.30/hook, http://192.168.1.31/hook ,")
    /\ url = Text.strip piece.
Proof.
  apply (parse_webhook_urls_shape
           "http://192.168.1.30/hook, http://192.168.1.31/hook ,"
           "http://192.168.1.31/hook").
  vm_compute. right. left. reflexivity.
Defined.

(** With the settings left at their defaults, the service is the one
    [__init__] builds, with a minimum of MEDIUM and no webhook. *)
Example get_notification_service_defaults (local_ip : string) :
  Config.get_notification_service Config.defaults local_ip
  = Notify.__init__ local_ip None (Some []) MEDIUM.
Proof. reflexivity. Qed.

(** X21: with mobile notifications switched off in the settings, the
    service that the container builds sends no alert: for every analysis,
    [send_security_alert] returns false and opens no socket and makes no
    request. *)
Theorem get_notification_service_disabled (settings : Config.SecurityMonitorSettings)
    (local_ip : string) (rt : Notify.Runtime) (net : Notify.Network)
    (analysis : SecurityAnalysis) (video_path : option string)
    (log : list Notify.Event) :
  Config.enable_mobile_notifications settings = false ->
  Notify.send_security_alert (Config.get_notification_service settings local_ip)
    rt net analysis video_path log = (false, log).
Proof.
  intros H. unfold Notify.send_security_alert, Notify.should_notify.
  cbn [Config.get_notification_service Notify.enable_push_notifications].
  rewrite H. reflexivity.
Qed.

Lemma get_notification_service_disabled_witness :
  Notify.send_security_alert
    (Config.get_notification_service
       {| Config.enable_mobile_notifications := false;
          Config.notification_min_threat_level := "low";
          Config.mobile_notification_url := Some "http://192.168.1.20:8080/alert";
          Config.notification_webhook_urls := "http://192.168.1.30/hook";
          Config.notification_server_port := 8888 |}
       "192.168.1.10")
    Sample.runtime Sample.network
    (Sample.analysis CRITICAL "A man with a weapon at the gate." ["weapon"])
    (Some (file_path Sample.clip)) []
  = (false, []).
Proof. apply get_notification_service_disabled. reflexivity. Defined.

(** ** The two loops of the monitor *)

Section monitor_properties.
Context {Time : Type} (too_soon : Time -> Time -> bool).

Lemma step_sequential (m : Monitor.SecurityMonitor Time) (s : Monitor.Step Time) :
  (Spec.being_recorded (Monitor.monitoring_loop m)
   + length (Monitor.pending_analyses m)
   + Spec.being_analysed (Monitor.analysis_loop m) <= 1)%nat /\
  (Monitor._recording_in_progress m = true <->
   Spec.being_recorded (Monitor.monitoring_loop m) = 1%nat) /\
  (Monitor._analysis_in_progress m = true <->
   (length (Monitor.pending_analyses m)
    + Spec.being_analysed (Monitor.analysis_loop m))%nat = 1%nat) ->
  let m' := Monitor.step too_soon m s in
  (Spec.being_recorded (Monitor.monitoring_loop m')
   + length (Monitor.pending_analyses m')
   + Spec.being_analysed (Monitor.analysis_loop m') <= 1)%nat /\
  (Monitor._recording_in_progress m' = true <->
   Spec.being_recorded (Monitor.monitoring_loop m') = 1%nat) /\
  (Monitor._analysis_in_progress m' = true <->
   (length (Monitor.pending_analyses m')
    + Spec.being_analysed (Monitor.analysis_loop m'))%nat = 1%nat).
Proof.
  intros (Hone & Hrec & Hana). cbv zeta.
  destruct m as [rec ana last pending text level st repo mon anl].
  cbn [Monitor.monitoring_loop Monitor.analysis_loop Monitor.pending_analyses
       Monitor._recording_in_progress Monitor._analysis_in_progress] in *.
  destruct s as [detections now | call | | analysis], mon as [|trigger],
    anl as [|clip];
    cbn [Monitor.step Monitor.monitoring_loop Monitor.analysis_loop];
    try (split; [exact Hone | split; [exact Hrec | exact Hana]]);
    unfold Monitor.handle_detections, Monitor.clip_recorded, Monitor.take_clip,
      Monitor.clip_analysed;
    cbn [Monitor.monitoring_loop Monitor.analysis_loop Monitor.pending_analyses
         Monitor._recording_in_progress Monitor._analysis_in_progress
         Monitor._last_detection_time Spec.being_recorded Spec.being_analysed] in *.
  all: repeat match goal with
         | |- context [UseCases.record_security_clip ?c ?r ?t] =>
             destruct (UseCases.record_security_clip c r t) as [? ?] eqn:?
         | |- context [if ?b then _ else _] => destruct b eqn:?
         | |- context [match ?l with [] => _ | _ :: _ => _ end] => destruct l eqn:?
         | |- context [match ?o with Some _ => _ | None => _ end] => destruct o eqn:?
         end;
       cbn [Monitor.monitoring_loop Monitor.analysis_loop Monitor.pending_analyses
            Monitor._recording_in_progress Monitor._analysis_in_progress
            Spec.being_recorded Spec.being_analysed length] in *;
       rewrite ?length_app in *; cbn [length] in *.
  all: split; [lia | split; split; intros; try solve [intuition (lia || congruence)]].
  apply Hana. lia.
Qed.


Lemma run_sequential (m : Monitor.SecurityMonitor Time) (steps : list (Monitor.Step Time)) :
  (Spec.being_recorded (Monitor.monitoring_loop m)
   + length (Monitor.pending_analyses m)
   + Spec.being_analysed (Monitor.analysis_loop m) <= 1)%nat /\
  (Monitor._recording_in_progress m = true <->
   Spec.being_recorded (Monitor.monitoring_loop m) = 1%nat) /\
  (Monitor._analysis_in_progress m = true <->
   (length (Monitor.pending_analyses m)
    + Spec.being_analysed (Monitor.analysis_loop m))%nat = 1%nat) ->
  let m' := Monitor.run too_soon m steps in
  (Spec.being_recorded (Monitor.monitoring_loop m')
   + length (Monitor.pending_analyses m')
   + Spec.being_analysed (Monitor.analysis_loop m') <= 1)%nat /\
  (Monitor._recording_in_progress m' = true <->
   Spec.being_recorded (Monitor.monitoring_loop m') = 1%nat) /\
  (Monitor._analysis_in_progress m' = true <->
   (length (Monitor.pending_analyses m')
    + Spec.being_analysed (Monitor.analysis_loop m'))%nat = 1%nat).
Proof.
  revert m. induction steps as [|s steps IH]; intros m Hm; [exact Hm|].
  cbn [Monitor.run fold_left]. apply IH, step_sequential, Hm.
Qed.

(** X22: in every interleaving of the two loops of the monitor, at most
    one clip is in hand: being recorded, waiting for its analysis or being
    analysed.  The recording flag is set exactly while a clip is being
    recorded, and the analysis flag exactly while a clip is waiting or being
    analysed. *)
Theorem monitor_one_clip_at_a_time (epoch : Time)
    (session_use_case : UseCases.SessionState) (video_repository : list VideoClip)
    (steps : list (Monitor.Step Time)) :
  let m := Monitor.run too_soon (Monitor.__init__ epoch session_use_case video_repository)
             steps in
  (Spec.being_recorded (Monitor.monitoring_loop m)
   + length (Monitor.pending_analyses m)
   + Spec.being_analysed (Monitor.analysis_loop m) <= 1)%nat /\
  (Monitor._recording_in_progress m = true <->
   Spec.being_recorded (Monitor.monitoring_loop m) = 1%nat) /\
  (Monitor._analysis_in_progress m = true <->
   (length (Monitor.pending_analyses m)
    + Spec.being_analysed (Monitor.analysis_loop m))%nat = 1%nat).
Proof.
  apply run_sequential. cbn. split; [lia|]. split; split; intros; lia || discriminate.
Qed.


Lemma current_object_mutate (change : MonitoringSession -> MonitoringSession)
    (st : UseCases.SessionState) (s : MonitoringSession) :
  Spec.current_object st = Some s ->
  Spec.current_object (UseCases.mutate_current change st) = Some (change s).
Proof.
  unfold Spec.current_object, UseCases.mutate_current.
  destruct (UseCases.current_session st) as [r|] eqn:Ec; [|discriminate].
  intros Hh. rewrite Hh. cbn [UseCases.current_session UseCases.heap].
  apply lookup_insert_eq.
Qed.

Lemma current_object_detections (detections0 : list PersonDetection)
    (st : UseCases.SessionState) (s : MonitoringSession) :
  Spec.current_object st = Some s ->
  exists s',
    Spec.current_object (fold_left UseCases.add_detection_to_session detections0 st)
      = Some s' /\
    detections s' = (detections s ++ detections0)%list /\
    video_clips s' = video_clips s /\ analyses s' = analyses s.
Proof.
  revert st s. induction detections0 as [|d ds IH]; intros st s Hs; cbn [fold_left].
  - exists s. rewrite app_nil_r. auto.
  - destruct (IH (UseCases.add_detection_to_session st d) (UseCases.append_detection d s))
      as (s' & Hs' & Hd & Hv & Ha).
    { apply current_object_mutate, Hs. }
    exists s'. rewrite Hd, Hv, Ha. cbn. rewrite <- app_assoc. auto.
Qed.

Lemma step_session_counts (first : MonitoringSession) (m : Monitor.SecurityMonitor Time)
    (s : Monitor.Step Time) :
  (exists session,
     Spec.current_object (Monitor.session_use_case m) = Some session /\
     (length (analyses session) + length (Monitor.pending_analyses m)
      + Spec.being_analysed (Monitor.analysis_loop m) + length (video_clips first)
      <= length (video_clips session) + length (analyses first))%nat /\
     (length (video_clips session) + Spec.being_recorded (Monitor.monitoring_loop m)
      + length (detections first)
      <= length (detections session) + length (video_clips first))%nat) ->
  let m' := Monitor.step too_soon m s in
  exists session,
    Spec.current_object (Monitor.session_use_case m') = Some session /\
    (length (analyses session) + length (Monitor.pending_analyses m')
     + Spec.being_analysed (Monitor.analysis_loop m') + length (video_clips first)
     <= length (video_clips session) + length (analyses first))%nat /\
    (length (video_clips session) + Spec.being_recorded (Monitor.monitoring_loop m')
     + length (detections first)
     <= length (detections session) + length (video_clips first))%nat.
Proof.
  intros (session & Hs & Ha & Hv). cbv zeta.
  destruct m as [rec ana last pending text level st repo mon anl].
  cbn [Monitor.monitoring_loop Monitor.analysis_loop Monitor.pending_analyses
       Monitor.session_use_case] in *.
  assert (Hsame : exists session0,
             Spec.current_object st = Some session0 /\
             (length (analyses session0) + length pending
              + Spec.being_analysed anl + length (video_clips first)
              <= length (video_clips session0) + length (analyses first))%nat /\
             (length (video_clips session0) + Spec.being_recorded mon
              + length (detections first)
              <= length (detections session0) + length (video_clips first))%nat)
    by (exists session; auto).
  destruct s as [detections0 now | call | | analysis], mon as [|trigger],
    anl as [|clip];
    cbn [Monitor.step Monitor.monitoring_loop Monitor.analysis_loop];
    try exact Hsame;
    unfold Monitor.handle_detections, Monitor.clip_recorded, Monitor.take_clip,
      Monitor.clip_analysed;
    cbn [Monitor.monitoring_loop Monitor.analysis_loop Monitor.pending_analyses
         Monitor._recording_in_progress Monitor._analysis_in_progress
         Monitor._last_detection_time Monitor.session_use_case
         Spec.being_recorded Spec.being_analysed] in *.
  all: repeat match goal with
         | |- context [UseCases.record_security_clip ?c ?r ?t] =>
             destruct (UseCases.record_security_clip c r t) as [? ?] eqn:?
         | |- context [if ?b then _ else _] => destruct b eqn:?
         | |- context [match ?l with [] => _ | _ :: _ => _ end] => destruct l eqn:?
         | |- context [match ?o with Some _ => _ | None => _ end] => destruct o eqn:?
         end;
       cbn [Monitor.monitoring_loop Monitor.analysis_loop Monitor.pending_analyses
            Monitor.session_use_case Spec.being_recorded Spec.being_analysed] in *;
       try exact Hsame.
  all: try (exists session; cbn [length] in *; repeat split; [assumption | lia | lia]).
  1, 2: destruct (current_object_detections (p :: l) st session Hs)
          as (session' & Hs' & Hd' & Hv' & Ha');
        exists session'; rewrite Hd', Hv', Ha', length_app; cbn [length];
        repeat split; [assumption | lia | lia].
  1, 2: exists (UseCases.append_clip v session);
        split; [apply current_object_mutate, Hs|];
        cbn [UseCases.append_clip analyses video_clips detections];
        rewrite !length_app; cbn [length]; lia.
  1, 2: exists (UseCases.append_analysis s session);
        split; [apply current_object_mutate, Hs|];
        cbn [UseCases.append_analysis analyses video_clips detections];
        rewrite !length_app; cbn [length]; lia.
Qed.

Lemma run_session_counts (first : MonitoringSession) (m : Monitor.SecurityMonitor Time)
    (steps : list (Monitor.Step Time)) :
  (exists session,
     Spec.current_object (Monitor.session_use_case m) = Some session /\
     (length (analyses session) + length (Monitor.pending_analyses m)
      + Spec.being_analysed (Monitor.analysis_loop m) + length (video_clips first)
      <= length (video_clips session) + length (analyses first))%nat /\
     (length (video_clips session) + Spec.being_recorded (Monitor.monitoring_loop m)
      + length (detections first)
      <= length (detections session) + length (video_clips first))%nat) ->
  let m' := Monitor.run too_soon m steps in
  exists session,
    Spec.current_object (Monitor.session_use_case m') = Some session /\
    (length (analyses session) + length (Monitor.pending_analyses m')
     + Spec.being_analysed (Monitor.analysis_loop m') + length (video_clips first)
     <= length (video_clips session) + length (analyses first))%nat /\
    (length (video_clips session) + Spec.being_recorded (Monitor.monitoring_loop m')
     + length (detections first)
     <= length (detections session) + length (video_clips first))%nat.
Proof.
  revert m. induction steps as [|s steps IH]; intros m Hm; [exact Hm|].
  cbn [Monitor.run fold_left]. apply IH, step_session_counts, Hm.
Qed.

(** X23: in every interleaving of the two loops, on a monitor whose use
    case has a current session, the analyses added to the session, the
    clips waiting and the clip being analysed are together no more than the
    clips added to the session; and the clips added, with the one being
    recorded, are no more than the detections added. *)
Theorem monitor_session_counts (epoch : Time)
    (session_use_case : UseCases.SessionState) (video_repository : list VideoClip)
    (first : MonitoringSession) (steps : list (Monitor.Step Time)) :
  Spec.current_object session_use_case = Some first ->
  let m := Monitor.run too_soon (Monitor.__init__ epoch session_use_case video_repository)
             steps in
  exists session,
    Spec.current_object (Monitor.session_use_case m) = Some session /\
    (length (analyses session) + length (Monitor.pending_analyses m)
     + Spec.being_analysed (Monitor.analysis_loop m) + length (video_clips first)
     <= length (video_clips session) + length (analyses first))%nat /\
    (length (video_clips session) + Spec.being_recorded (Monitor.monitoring_loop m)
     + length (detections first)
     <= length (detections session) + length (video_clips first))%nat.
Proof.
  intros Hfirst. apply run_session_counts. exists first.
  split; [exact Hfirst|]. cbn. lia.
Qed.


Lemma record_security_clip_outcome (call : UseCases.RecordingCall)
    (stored : list VideoClip) (trigger : PersonDetection) :
  let out := fst (UseCases.record_security_clip call stored trigger) in
  let after := snd (UseCases.record_security_clip call stored trigger) in
  (out = None -> after = stored) /\
  (forall video_clip, out = Some video_clip ->
     trigger_detection video_clip = trigger /\
     forall record, In record after -> In record stored \/ record = video_clip).
Proof.
  cbv zeta. unfold UseCases.record_security_clip.
  destruct (UseCases.is_recording_active call) as [[]|];
    try (split; [reflexivity | discriminate]).
  destruct (UseCases.record_clip call) as [[recorded|]|];
    try (split; [reflexivity | discriminate]).
  destruct (UseCases.save_clip_ok call);
    try (split; [reflexivity | discriminate]).
  cbn [fst snd]. split; [discriminate|].
  intros video_clip H. injection H as <-. split; [reflexivity|].
  intros record. unfold Repositories.save_clip, Repositories._save_data,
    Repositories._load_data.
  destruct (UseCases.clips_written call); [|auto|intros []].
  destruct (UseCases.clips_loaded call); intros Hin; apply in_app_or in Hin;
    destruct Hin as [Hin|[<-|[]]]; auto; destruct Hin.
Qed.

Lemma step_clip_provenance (first_records : list VideoClip)
    (m : Monitor.SecurityMonitor Time) (s : Monitor.Step Time) :
  (exists session,
     Spec.current_object (Monitor.session_use_case m) = Some session /\
     Forall (fun video_clip => In (trigger_detection video_clip) (detections session))
       (video_clips session) /\
     (forall record, In record (Monitor.video_repository m) ->
        In record first_records \/ In record (video_clips session)) /\
     (forall trigger, Monitor.monitoring_loop m = Monitor.Recording trigger ->
        In trigger (detections session))) ->
  let m' := Monitor.step too_soon m s in
  exists session,
    Spec.current_object (Monitor.session_use_case m') = Some session /\
    Forall (fun video_clip => In (trigger_detection video_clip) (detections session))
      (video_clips session) /\
    (forall record, In record (Monitor.video_repository m') ->
       In record first_records \/ In record (video_clips session)) /\
    (forall trigger, Monitor.monitoring_loop m' = Monitor.Recording trigger ->
       In trigger (detections session)).
Proof.
  intros Hm. cbv zeta. pose proof Hm as (session & Hs & Hclips & Hrepo & Htrigger).
  destruct m as [rec ana last pending text level st repo mon anl].
  cbn [Monitor.monitoring_loop Monitor.analysis_loop Monitor.video_repository
       Monitor.session_use_case] in *.
  destruct s as [detections0 now | call | | analysis], mon as [|trigger],
    anl as [|clip];
    cbn [Monitor.step Monitor.monitoring_loop Monitor.analysis_loop];
    try exact Hm.
  1, 2: unfold Monitor.handle_detections;
        cbn [Monitor._recording_in_progress Monitor._analysis_in_progress
             Monitor._last_detection_time Monitor.session_use_case];
        destruct rec; [exact Hm|]; destruct ana; [exact Hm|];
        destruct (too_soon now last); [exact Hm|];
        destruct detections0 as [|d ds]; [exact Hm|];
        destruct (current_object_detections (d :: ds) st session Hs)
          as (session' & Hs' & Hd' & Hv' & Ha');
        exists session';
        cbn [Monitor.monitoring_loop Monitor.video_repository Monitor.session_use_case];
        rewrite Hd', Hv'; split; [exact Hs'|]; split;
        [ eapply Forall_impl; [exact Hclips|]; intros c Hc;
          apply in_or_app; left; exact Hc
        | split; [exact Hrepo|];
          intros t Ht; injection Ht as <-; apply in_or_app; right; left; reflexivity ].
  1, 2: unfold Monitor.clip_recorded;
        cbn [Monitor.video_repository Monitor.session_use_case];
        pose proof (record_security_clip_outcome call repo trigger) as [Hnone Hsome];
        cbv zeta in Hnone, Hsome;
        destruct (UseCases.record_security_clip call repo trigger) as [[video_clip|] stored];
        cbn [fst snd] in Hnone, Hsome;
        [ destruct (Hsome video_clip eq_refl) as [Htr Hafter];
          exists (UseCases.append_clip video_clip session);
          cbn [Monitor.monitoring_loop Monitor.video_repository Monitor.session_use_case
               UseCases.append_clip detections video_clips];
          split; [apply current_object_mutate, Hs|]; split;
          [ apply Forall_app; split; [exact Hclips|];
            constructor; [|constructor]; rewrite Htr; apply Htrigger; reflexivity
          | split; [|discriminate];
            intros record Hin; destruct (Hafter record Hin) as [Hold| ->];
            [ destruct (Hrepo record Hold) as [Hf|Hc];
              [left; exact Hf | right; apply in_or_app; left; exact Hc]
            | right; apply in_or_app; right; left; reflexivity ] ]
        | rewrite (Hnone eq_refl); exists session;
          cbn [Monitor.monitoring_loop Monitor.video_repository Monitor.session_use_case];
          split; [exact Hs|]; split; [exact Hclips|]; split; [exact Hrepo | discriminate] ].
  1, 2: unfold Monitor.take_clip; cbn [Monitor.pending_analyses];
        destruct pending; [exact Hm|]; exact Hm.
  1, 2: unfold Monitor.clip_analysed; destruct analysis as [a|]; [|exact Hm];
        exists (UseCases.append_analysis a session);
        cbn [Monitor.monitoring_loop Monitor.video_repository Monitor.session_use_case
             UseCases.append_analysis detections video_clips];
        split; [apply current_object_mutate, Hs|]; repeat split; assumption.
Qed.

Lemma run_clip_provenance (first_records : list VideoClip)
    (m : Monitor.SecurityMonitor Time) (steps : list (Monitor.Step Time)) :
  (exists session,
     Spec.current_object (Monitor.session_use_case m) = Some session /\
     Forall (fun video_clip => In (trigger_detection video_clip) (detections session))
       (video_clips session) /\
     (forall record, In record (Monitor.video_repository m) ->
        In record first_records \/ In record (video_clips session)) /\
     (forall trigger, Monitor.monitoring_loop m = Monitor.Recording trigger ->
        In trigger (detections session))) ->
  let m' := Monitor.run too_soon m steps in
  exists session,
    Spec.current_object (Monitor.session_use_case m') = Some session /\
    Forall (fun video_clip => In (trigger_detection video_clip) (detections session))
      (video_clips session) /\
    (forall record, In record (Monitor.video_repository m') ->
       In record first_records \/ In record (video_clips session)) /\
    (forall trigger, Monitor.monitoring_loop m' = Monitor.Recording trigger ->
       In trigger (detections session)).
Proof.
  revert m. induction steps as [|s steps IH]; intros m Hm; [exact Hm|].
  cbn [Monitor.run fold_left]. apply IH, step_clip_provenance, Hm.
Qed.

(** X24: in every interleaving of the two loops, on a monitor started on a
    session without clips, each clip of the session was triggered by a
    detection of the session; and the clip repository holds no record but
    those it held at the start and records of clips of the session.  The
    converse is not claimed: the repository may lack a clip of the
    session. *)
Theorem monitor_clip_provenance (epoch : Time)
    (session_use_case : UseCases.SessionState) (video_repository : list VideoClip)
    (first : MonitoringSession) (steps : list (Monitor.Step Time)) :
  Spec.current_object session_use_case = Some first ->
  video_clips first = [] ->
  let m := Monitor.run too_soon (Monitor.__init__ epoch session_use_case video_repository)
             steps in
  exists session,
    Spec.current_object (Monitor.session_use_case m) = Some session /\
    Forall (fun video_clip => In (trigger_detection video_clip) (detections session))
      (video_clips session) /\
    (forall record, In record (Monitor.video_repository m) ->
       In record video_repository \/ In record (video_clips session)).
Proof.
  intros Hfirst Hclips. cbv zeta.
  destruct (run_clip_provenance video_repository
              (Monitor.__init__ epoch session_use_case video_repository) steps)
    as (session & Hs & Hall & Hrepo & _).
  - exists first. cbn [Monitor.session_use_case Monitor.__init__ Monitor.monitoring_loop
                       Monitor.video_repository].
    split; [exact Hfirst|]. rewrite Hclips.
    split; [constructor|]. split; [auto | discriminate].
  - exists session. auto.
Qed.

End monitor_properties.

Lemma monitor_clip_provenance_witness :
  let started :=
    UseCases.start_monitoring_session UseCases.MonitoringSessionUseCase__init__
      0 "20250101_120000" 0 in
  let m :=
    Monitor.run Sample.too_soon (Monitor.__init__ 0 (snd started) [])
      [ Monitor.Detected [Sample.detection] 10; Monitor.Recorded Sample.recording ] in
  exists session,
    Spec.current_object (Monitor.session_use_case m) = Some session /\
    Forall (fun video_clip => In (trigger_detection video_clip) (detections session))
      (video_clips session) /\
    (forall record, In record (Monitor.video_repository m) ->
       In record [] \/ In record (video_clips session)).
Proof.
  cbv zeta.
  apply (monitor_clip_provenance Sample.too_soon 0
           (snd (UseCases.start_monitoring_session
                   UseCases.MonitoringSessionUseCase__init__ 0 "20250101_120000" 0)) []
           {| session_id := "session_20250101_120000"; session_start_time := 0;
              end_time := None; detections := []; video_clips := []; analyses := [];
              status := IN_PROGRESS |}).
  - unfold Spec.current_object. cbn. apply lookup_insert_eq.
  - reflexivity.
Defined.

(** A recording whose clip the repository fails to write: the clip joins
    the session and the repository stays empty. *)
Example monitor_clip_not_written :
  let started :=
    UseCases.start_monitoring_session UseCases.MonitoringSessionUseCase__init__
      0 "20250101_120000" 0 in
  let failing :=
    {| UseCases.is_recording_active := Ok false;
       UseCases.record_clip := Ok (Some Sample.clip);
       UseCases.save_clip_ok := true;
       UseCases.clips_loaded := true;
       UseCases.clips_written := Repositories.NotWritten |} in
  let m :=
    Monitor.run Sample.too_soon (Monitor.__init__ 0 (snd started) [])
      [ Monitor.Detected [Sample.detection] 10; Monitor.Recorded failing ] in
  (video_clips <$> Spec.current_object (Monitor.session_use_case m)) = Some [Sample.clip] /\
  Monitor.video_repository m = [].
Proof. vm_compute. split; reflexivity. Qed.

Lemma monitor_session_counts_witness :
  let started :=
    UseCases.start_monitoring_session UseCases.MonitoringSessionUseCase__init__
      0 "20250101_120000" 0 in
  let m :=
    Monitor.run Sample.too_soon (Monitor.__init__ 0 (snd started) [])
      [ Monitor.Detected [Sample.detection] 10;
        Monitor.Recorded Sample.recording;
        Monitor.Polled;
        Monitor.Detected [Sample.detection] 80;
        Monitor.Analysed (Some (Sample.analysis HIGH "A person climbs the gate." ["person"])) ] in
  exists session,
    Spec.current_object (Monitor.session_use_case m) = Some session /\
    (length (analyses session) + length (Monitor.pending_analyses m)
     + Spec.being_analysed (Monitor.analysis_loop m) + 0 <= length (video_clips session) + 0)%nat /\
    (length (video_clips session) + Spec.being_recorded (Monitor.monitoring_loop m) + 0
     <= length (detections session) + 0)%nat.
Proof.
  cbv zeta.
  apply (monitor_session_counts Sample.too_soon 0
           (snd (UseCases.start_monitoring_session
                   UseCases.MonitoringSessionUseCase__init__ 0 "20250101_120000" 0)) []
           {| session_id := "session_20250101_120000"; session_start_time := 0;
              end_time := None; detections := []; video_clips := []; analyses := [];
              status := IN_PROGRESS |}).
  unfold Spec.current_object. cbn. apply lookup_insert_eq.
Defined.
